(** * maestro-fastify: the Fastify adapter of the Maestro orchestrator

    A shallow embedding of the adapter's translation layer
    (src/Adapter.ts, src/sendResponse/SendResponse.ts,
    src/transformRequest/TransformRequest.ts, src/commands/Commands.ts,
    src/error/ErrorHandler.ts) together with the properties the
    specification states about it.

    Conventions.
    - JavaScript values are terms of [JsVal]; an absent property reads as
      [JUndefined].  Numbers are integer valued (HTTP statuses, ports).
    - The native reply ([FastifyReply]) is the sequence of method calls the
      adapter has made on it, oldest first: the Fastify library itself is an
      external collaborator and its calls are recorded, not interpreted.
    - Three calls of Fastify may throw instead of returning:
      [reply.status], [fastify.route] and [fastify.listen].  Each function
      that reaches one of them is given twice: under its own name as the run
      in which Fastify lets every call through, and under the name ending in
      [_checked] with the throws threaded through, for any choice of what
      Fastify lets through.
    - A callback ([resolve], [reject]) is modelled by the call made to it.
    - An event emitted is recorded; its listeners, which run inside [emit],
      belong to the users of the adapter and are taken to return.
    - Exceptions are explicit: effectful code returns the reply reached so far
      together with a [Completion]. *)

From Stdlib Require Import ZArith Ascii String List.
From stdpp Require Import base option list strings pretty gmap fin_maps.

Set Warnings "-register-all".
Local Open Scope string_scope.
Local Open Scope list_scope.

(** ** JavaScript values *)

Module Js.

Inductive JsVal : Type :=
| JUndefined
| JNull
| JBool (b : bool)
| JNum (n : Z)
| JStr (s : string)
| JArr (elems : list JsVal)
| JObj (props : list (string * JsVal)).

(** The answers of the [typeof] operator.  Function values do not occur as
    data in this development, so ["function"] is never answered. *)
Inductive TypeOf := TyUndefined | TyObject | TyBoolean | TyNumber | TyString.

Definition typeof (v : JsVal) : TypeOf :=
  match v with
  | JUndefined => TyUndefined
  | JNull => TyObject
  | JBool _ => TyBoolean
  | JNum _ => TyNumber
  | JStr _ => TyString
  | JArr _ => TyObject
  | JObj _ => TyObject
  end.

Definition is_number (v : JsVal) : bool :=
  match typeof v with TyNumber => true | _ => false end.

(** [v == null] *)
Definition is_nullish (v : JsVal) : bool :=
  match v with JUndefined | JNull => true | _ => false end.

(** [v ?? d] *)
Definition coalesce (v d : JsVal) : JsVal :=
  if is_nullish v then d else v.

(** [v === s] for a string literal [s] *)
Definition strict_eq_str (v : JsVal) (s : string) : bool :=
  match v with JStr s' => bool_decide (s' = s) | _ => false end.

(** [arr.includes(s)] for a string [s]: some element is that string. *)
Definition includes_str (elems : list JsVal) (s : string) : bool :=
  existsb (fun v => strict_eq_str v s) elems.

(** The characters of a string, each as a one-character string. *)
Fixpoint chars (s : string) : list string :=
  match s with
  | EmptyString => []
  | String c s' => String c EmptyString :: chars s'
  end.

(** Array-index keys ["0"], ["1"], ... of a value with [n] elements. *)
Definition index_keys (n : nat) : list string :=
  (fun i : nat => pretty i) <$> seq 0 n.

(** Own enumerable properties, in the order [for ... in] visits them.
    The property list of an object is kept in that order, one binding per
    key.  Primitives other than strings have none. *)
Definition own_props (v : JsVal) : list (string * JsVal) :=
  match v with
  | JObj props => props
  | JArr elems => zip (index_keys (length elems)) elems
  | JStr s => zip (index_keys (String.length s)) (JStr <$> chars s)
  | _ => []
  end.

(** The keys a [for (k in v)] loop visits; none for [null]/[undefined]. *)
Definition for_in_keys (v : JsVal) : list string := (own_props v).*1.

Fixpoint assoc (k : string) (props : list (string * JsVal)) : option JsVal :=
  match props with
  | [] => None
  | (k', v) :: rest => if decide (k' = k) then Some v else assoc k rest
  end.

(** [v[k]] on a value that is not [null]/[undefined]: the own enumerable
    property, else [undefined].  (Inherited and non-enumerable members are
    not data of the adapter and are not represented.) *)
Definition prop (v : JsVal) (k : string) : JsVal :=
  default JUndefined (assoc k (own_props v)).

(** What is thrown: a TypeError of the language, or the error of a library
    call that refuses its arguments (named by the call). *)
Inductive JsError :=
| TypeError (msg : string)
| Refused (by_call : string).

Inductive Completion (A : Type) : Type :=
| Normal (a : A)
| Abrupt (e : JsError).
Arguments Normal {A} a.
Arguments Abrupt {A} e.

(** [v.k] where [v] may be [null]/[undefined]: reading a property of those
    throws a TypeError. *)
Definition member (v : JsVal) (k : string) : Completion JsVal :=
  if is_nullish v
  then Abrupt (TypeError ("Cannot read property '" ++ k ++ "' of null or undefined"))
  else Normal (prop v k).

(** ToString, as string concatenation with [+] applies it. *)
Fixpoint to_string (v : JsVal) : string :=
  match v with
  | JUndefined => "undefined"
  | JNull => "null"
  | JBool true => "true"
  | JBool false => "false"
  | JNum n => pretty n
  | JStr s => s
  | JArr elems =>
      String.concat ","
        (map (fun e => if is_nullish e then "" else to_string e) elems)
  | JObj _ => "[object Object]"
  end.

(** [{...base, ...extra}]: a key already present keeps its position and
    takes the new value, a new key is appended. *)
Fixpoint set_prop (k : string) (v : JsVal) (props : list (string * JsVal))
  : list (string * JsVal) :=
  match props with
  | [] => [(k, v)]
  | (k', v') :: rest =>
      if decide (k' = k) then (k', v) :: rest else (k', v') :: set_prop k v rest
  end.

Definition spread (base : list (string * JsVal)) (extra : JsVal)
  : list (string * JsVal) :=
  fold_left (fun acc kv => set_prop kv.1 kv.2 acc) (own_props extra) base.

End Js.
Import Js.

(** ** The native reply *)

Inductive ReplyCall :=
| CallHeader (name : string) (value : JsVal)          (* response.header(name, value) *)
| CallStatus (code : JsVal)                           (* response.status(code) *)
| CallSend (body : JsVal)                             (* response.send(body) *)
| CallSetCookie (name : string) (value options : JsVal). (* response.setCookie(...) *)

Definition FastifyReply := list ReplyCall.

(** The status the reply will be sent with: the argument of the last
    [status] call. *)
Fixpoint reply_status (r : FastifyReply) : option JsVal :=
  match r with
  | [] => None
  | c :: r' =>
      match reply_status r' with
      | Some s => Some s
      | None => match c with CallStatus s => Some s | _ => None end
      end
  end.

(** The value of a header: the argument of the last [header] call for it. *)
Fixpoint reply_header (name : string) (r : FastifyReply) : option JsVal :=
  match r with
  | [] => None
  | c :: r' =>
      match reply_header name r' with
      | Some v => Some v
      | None =>
          match c with
          | CallHeader n v => if decide (n = name) then Some v else None
          | _ => None
          end
      end
  end.

(** The call made to one of the promise callbacks. *)
Inductive Settlement :=
| Resolve (value : JsVal)
| Reject (reason : JsVal).

(** ** The error handler

    The repository holds two versions of [ErrorHandler].  The one below reads
    the error's properties and builds a payload (it is written against the
    package [maestro], like src/Adapter.ts, which takes its handler from
    ./error/ErrorHandler); the earlier one follows as [Legacy.ErrorHandler]. *)

(** An error object, as the handler reads it: the values of its [message],
    [exitCode] and [httpStatus] properties ([JUndefined] when it has none),
    and whether it is an instance of the orchestrator's [ApiError]. *)
Record ErrorObject := {
  error_message : JsVal;
  error_exitCode : JsVal;
  error_httpStatus : JsVal;
  error_isApiError : bool;
}.

(** [type ErrorPayload = { exitCode: string; message: string; reason?: string }];
    [reason] is never set by the handler. *)
Record ErrorPayload := {
  exitCode : string;
  message : JsVal;
}.

(** The payload as the JavaScript object handed to the callbacks. *)
Definition payload_object (p : ErrorPayload) : JsVal :=
  JObj [("exitCode", JStr (exitCode p)); ("message", message p)].

(** The handler on a reply that accepts the status it is given: which
    status it passes and how it settles the promise.  On a reply that may
    refuse the status the handler is [ErrorHandler_checked], further down. *)
Definition ErrorHandler (response : FastifyReply) (error : ErrorObject)
  : FastifyReply * Settlement :=
  let errorPayload :=
    {| exitCode := "REQUEST_REFUSED"; message := error_message error |} in
  let errorPayload :=
    (* if (typeof error.exitCode === 'string') *)
    match error_exitCode error with
    | JStr code => {| exitCode := code; message := message errorPayload |}
    | _ => errorPayload
    end in
  if is_number (error_httpStatus error)
  then (response ++ [CallStatus (error_httpStatus error)],
        Resolve (payload_object errorPayload))
  else (response ++ [CallStatus (JNum 500)],
        Reject (payload_object errorPayload)).

(** The earlier handler (written against [auria-maestro]): it tells the two
    kinds of error apart by class and passes the bare message on.  Here too
    the reply accepts the status; [Legacy_ErrorHandler_checked] is the
    handler on any reply. *)
Module Legacy.

Definition ErrorHandler (response : FastifyReply) (error : ErrorObject)
  : FastifyReply * Settlement :=
  if error_isApiError error
  then (response ++ [CallStatus (error_httpStatus error);
                     CallSend (error_message error)],
        Resolve (error_message error))
  else (response ++ [CallStatus (JNum 500)], Reject (error_message error)).

End Legacy.

(** ** Effects on the reply

    Code that calls methods of the reply and may throw: it maps the reply to
    the reply reached and how it completed.  A throw keeps the calls already
    made. *)

Definition Eff (A : Type) : Type := FastifyReply -> FastifyReply * Completion A.

Definition ret {A} (a : A) : Eff A := fun r => (r, Normal a).

Definition throw {A} (e : JsError) : Eff A := fun r => (r, Abrupt e).

Definition bind {A B} (m : Eff A) (k : A -> Eff B) : Eff B :=
  fun r =>
    match m r with
    | (r', Normal a) => k a r'
    | (r', Abrupt e) => (r', Abrupt e)
    end.

Definition lift {A} (c : Completion A) : Eff A := fun r => (r, c).

(** One method call on the reply. *)
Definition call (c : ReplyCall) : Eff unit := fun r => (r ++ [c], Normal tt).

Notation "'let*' x := m 'in' k" := (bind m (fun x => k))
  (at level 10, x name, m at level 100, k at level 200, only parsing).
Notation "m ;;; k" := (bind m (fun _ => k))
  (at level 100, k at level 200, right associativity, only parsing).

(** [for (let x of l) body(x)] *)
Fixpoint for_each {A} (body : A -> Eff unit) (l : list A) : Eff unit :=
  match l with
  | [] => ret tt
  | x :: l' => body x ;;; for_each body l'
  end.

(** ** src/commands/Commands.ts *)

Definition ADAPTER_NAME : string := "Fastify".

Module Commands.

(** ['set-header'] *)
Definition set_header (headers : JsVal) : Eff unit :=
  for_each
    (fun headerName => call (CallHeader headerName (prop headers headerName)))
    (for_in_keys headers).

(** ['create-cookie'] *)
Definition create_cookie (cookies : JsVal) : Eff unit :=
  for_each
    (fun cookieName =>
       let* value := lift (member (prop cookies cookieName) "value") in
       call (CallSetCookie cookieName value (prop cookies cookieName)))
    (for_in_keys cookies).

Inductive KnownFastifyCommands := SetHeader | CreateCookie.

(** What the property read [Commands[name]] finds.  [Commands] is an object
    literal, so besides its two own properties the read reaches the members
    every object inherits from [Object.prototype]: its methods, and the
    [__proto__] accessor, whose value is the prototype object itself. *)
Inductive Member :=
| Own (k : KnownFastifyCommands)
| InheritedMethod (name : string)
| InheritedProto.

Definition object_prototype_methods : list string :=
  [ "constructor"; "hasOwnProperty"; "isPrototypeOf"; "propertyIsEnumerable";
    "toLocaleString"; "toString"; "valueOf";
    "__defineGetter__"; "__defineSetter__";
    "__lookupGetter__"; "__lookupSetter__" ].

(** [Commands[name]]; [None] is [undefined]. *)
Definition get (name : string) : option Member :=
  if decide (name = "set-header") then Some (Own SetHeader)
  else if decide (name = "create-cookie") then Some (Own CreateCookie)
  else if decide (name = "__proto__") then Some InheritedProto
  else if bool_decide (name ∈ object_prototype_methods)
       then Some (InheritedMethod name)
  else None.

(** [Commands[name](response, payload)] for a member that is not
    [null]/[undefined].  The inherited methods make no call on the reply;
    [__defineGetter__] and [__defineSetter__] refuse a second argument that
    is not a function, which a payload of data never is; the prototype
    object is not callable. *)
Definition invoke (m : Member) (payload : JsVal) : Eff unit :=
  match m with
  | Own SetHeader => set_header payload
  | Own CreateCookie => create_cookie payload
  | InheritedMethod name =>
      if bool_decide (name ∈ ["__defineGetter__"; "__defineSetter__"])
      then throw (TypeError ("Object.prototype." ++ name ++ ": Expecting function"))
      else ret tt
  | InheritedProto => throw (TypeError "Commands[commands.name] is not a function")
  end.

End Commands.

(** ** src/sendResponse/SendResponse.ts *)

(** [ICommand] of the orchestrator: a name, an optional adapter filter
    ([string | string[]]) and a payload. *)
Record ICommand := {
  command_name : string;
  command_adapters : JsVal;
  command_payload : JsVal;
}.

(** The argument of [applyCommandsToResponse]: a command or an array. *)
Inductive CommandArg :=
| OneCommand (command : ICommand)
| CommandArray (commands : list CommandArg).

Definition applyCommand (command : ICommand) : Eff unit :=
  let adapters := command_adapters command in
  let dispatch : Eff unit :=
    (* Unspecified adapter or Express adapter ? *)
    if is_nullish adapters || strict_eq_str adapters ADAPTER_NAME
    then
      (* Known command ? *)
      match Commands.get (command_name command) with
      | Some m => Commands.invoke m (command_payload command)
      | None => ret tt
      end
    else ret tt in
  match adapters with
  | JArr elems =>
      (* Accepts array of adapters?  Is Fastify not one of them?  (return) *)
      if negb (includes_str elems ADAPTER_NAME) then ret tt else dispatch
  | _ => dispatch
  end.

Fixpoint applyCommandsToResponse (commands : CommandArg) : Eff unit :=
  match commands with
  | CommandArray l =>
      (fix loop (l : list CommandArg) : Eff unit :=
         match l with
         | [] => ret tt
         | command :: l' => applyCommandsToResponse command ;;; loop l'
         end) l
  | OneCommand command => applyCommand command
  end.

(** [IApiRouteResponse]; [response_commands] is [None] when the property is
    [null] or [undefined]. *)
Record IApiRouteResponse := {
  response_payload : JsVal;
  response_commands : option CommandArg;
  response_exitCode : JsVal;
  response_status : JsVal;
}.

(** The result is the value [resolve] is called with.  The commands may
    throw; the reply is one that accepts the status, [SendResponse_checked]
    further down being the function on any reply. *)
Definition SendResponse (routeResp : IApiRouteResponse) : Eff JsVal :=
  (* Cannot resolve a promise with null/undefined! *)
  let send := coalesce (response_payload routeResp) (JObj []) in
  match response_commands routeResp with
  | Some commands => applyCommandsToResponse commands
  | None => ret tt
  end ;;;
  call (CallHeader "X-Exit-Code" (response_exitCode routeResp)) ;;;
  call (CallStatus (response_status routeResp)) ;;;
  ret send.

(** ** The orchestrator's side: methods, routes, containers *)

(** [HTTPMethod] of the orchestrator; its members are the keys of
    [ConsoleMethodColor] in src/Adapter.ts, which is typed
    [{ [method in HTTPMethod]: string }]. *)
Inductive HTTPMethod :=
| all | connect | delete | get | head | options | patch | post | put
| search | trace.

Global Instance HTTPMethod_eq_dec : EqDecision HTTPMethod.
Proof. solve_decision. Defined.

(** The string each member is. *)
Definition method_string (m : HTTPMethod) : string :=
  match m with
  | all => "all" | connect => "connect" | delete => "delete" | get => "get"
  | head => "head" | options => "options" | patch => "patch" | post => "post"
  | put => "put" | search => "search" | trace => "trace"
  end.

(** [route.methods] is one method or an array of methods. *)
Inductive RouteMethods :=
| SingleMethod (m : HTTPMethod)
| MethodArray (ms : list HTTPMethod).

Global Instance RouteMethods_eq_dec : EqDecision RouteMethods.
Proof. solve_decision. Defined.

(** A route object.  [route_ref] is the object's identity: two values denote
    the same object exactly when they are equal, which is what
    [Array.prototype.includes] compares. *)
Record IProxiedRoute := {
  route_ref : nat;
  route_url : string;
  route_methods : RouteMethods;
}.

Global Instance IProxiedRoute_eq_dec : EqDecision IProxiedRoute.
Proof. solve_decision. Defined.

(** A container: its identity and the routes [allRoutes()] returns. *)
Record Container := {
  container_ref : nat;
  allRoutes : list IProxiedRoute;
}.

Global Instance Container_eq_dec : EqDecision Container.
Proof. solve_decision. Defined.

(** The normalized request handed to the orchestrator.  [RouteRequest] is a
    class of the orchestrator (package [maestro]); the adapter constructs it,
    assigns its [identification] and [method] and calls [add] on it.  Those
    calls are kept as they are made, oldest first: the name, with the value
    and the origin given for it. *)
Record RequestParameter := {
  parameter_value : JsVal;
  parameter_origin : string;
}.

Record RouteRequest := {
  adapter : string;
  url : string;
  identification : JsVal;
  method : option HTTPMethod;
  added : list (string * RequestParameter);
}.

(** [new RouteRequest(adapter, url)] *)
Definition new_RouteRequest (adapter url : string) : RouteRequest :=
  {| adapter := adapter; url := url; identification := JUndefined;
     method := None; added := [] |}.

(** [req.add(name, value, origin)] *)
Definition add (name : string) (value : JsVal) (origin : string)
    (req : RouteRequest) : RouteRequest :=
  {| adapter := adapter req; url := url req;
     identification := identification req; method := method req;
     added :=
       added req
       ++ [(name, {| parameter_value := value; parameter_origin := origin |})] |}.

(** Modelled from the spec: what [add] makes of the request is decided in the
    orchestrator, whose source is not part of the repository.  The
    specification describes the normalized request as "a normalized mapping,
    keyed by parameter name with last-write-wins on collision across
    sources": each [add] binds its name, replacing an earlier binding of that
    name. *)
Definition parameters (req : RouteRequest) : gmap string RequestParameter :=
  fold_left (fun m a => <[a.1 := a.2]> m) (added req) ∅.

(** Modelled from the spec: the value the normalized request holds for a
    parameter name. *)
Definition get_parameter (name : string) (req : RouteRequest) : option JsVal :=
  parameter_value <$> parameters req !! name.

Definition set_identification (v : JsVal) (req : RouteRequest) : RouteRequest :=
  {| adapter := adapter req; url := url req; identification := v;
     method := method req; added := added req |}.

Definition set_method (m : HTTPMethod) (req : RouteRequest) : RouteRequest :=
  {| adapter := adapter req; url := url req;
     identification := identification req; method := Some m;
     added := added req |}.

(** ** src/transformRequest/TransformRequest.ts *)

(** The native request.  [request_headers] is always an object; the other
    sources may be [undefined]. *)
Record FastifyRequest := {
  request_url : string;
  request_ip : string;
  request_ips : option (list string);
  request_headers : list (string * JsVal);
  request_cookies : JsVal;
  request_body : JsVal;
  request_query : JsVal;
  request_params : JsVal;
}.

(** [for (let name in source) req.add(name, source[name], origin)] *)
Definition add_all (origin : string) (source : JsVal) (req : RouteRequest)
  : RouteRequest :=
  fold_left (fun req name => add name (prop source name) origin req)
            (for_in_keys source) req.

Definition TransformRequest (request : FastifyRequest) : RouteRequest :=
  let req := new_RouteRequest ADAPTER_NAME (request_url request) in
  let headers := JObj (request_headers request) in
  (* [+] binds tighter than [??]: the left operand is the whole sum *)
  let requestIdentification :=
    coalesce
      (JStr ((match request_ips request with
              | Some ips => String.concat " - " ips
              | None => request_ip request
              end)
             ++ " | "
             ++ to_string (prop headers "user-agent")))
      (JStr "UA-NOT-PROVIDED") in
  let req := set_identification requestIdentification req in
  let body := coalesce (request_body request) (JObj []) in
  let query := coalesce (request_query request) (JObj []) in
  let params := coalesce (request_params request) (JObj []) in
  let req := add_all "header" headers req in
  let req := add_all "cookie" (request_cookies request) req in
  let req := add_all "body" body req in
  let req := add_all "query" query req in
  let req := add_all "url" params req in
  req.

(** ** src/events/Events.ts *)

Inductive Events :=
| REQUEST
| ALL_REQUEST | GET_REQUEST | POST_REQUEST | CONNECT_REQUEST | PUT_REQUEST
| PATCH_REQUEST | DELETE_REQUEST | TRACE_REQUEST | HEAD_REQUEST
| OPTIONS_REQUEST
| REQUEST_ERROR | REQUEST_RESPONSE.

(** The arguments an event is emitted with. *)
Inductive EmitArgs :=
| ArgsRoute (route : IProxiedRoute)
| ArgsRouteMethod (route : IProxiedRoute) (method : HTTPMethod)
| ArgsError (error : ErrorObject) (route : IProxiedRoute) (request : FastifyRequest)
| ArgsResponse (routeResp : IApiRouteResponse) (route : IProxiedRoute).

(** ** src/Adapter.ts *)

Definition newline : string := String (ascii_of_nat 10) EmptyString.
Definition double_quote : string := String (ascii_of_nat 34) EmptyString.

(** [s.trim()]: white space and line terminators of the ASCII range. *)
Definition is_white_space (c : ascii) : bool :=
  let n := nat_of_ascii c in
  ((9 <=? n)%nat && (n <=? 13)%nat) || (n =? 32)%nat.

Fixpoint trim_start (s : string) : string :=
  match s with
  | EmptyString => EmptyString
  | String c s' => if is_white_space c then trim_start s' else s
  end.

Definition trim (s : string) : string :=
  String.rev (trim_start (String.rev (trim_start s))).

(** [s.charAt(0)] *)
Definition charAt0 (s : string) : string :=
  match s with
  | EmptyString => EmptyString
  | String c _ => String c EmptyString
  end.

(** [s.toLocaleUpperCase()] on ASCII letters (no locale-specific mapping). *)
Definition upper_ascii (c : ascii) : ascii :=
  let n := nat_of_ascii c in
  if (97 <=? n)%nat && (n <=? 122)%nat then ascii_of_nat (n - 32) else c.

Fixpoint toLocaleUpperCase (s : string) : string :=
  match s with
  | EmptyString => EmptyString
  | String c s' => String (upper_ascii c) (toLocaleUpperCase s')
  end.

(** What is written to the console.  [describeRoute] only writes there; its
    lines are kept as one entry. *)
Inductive ConsoleCall :=
| ConsoleDebug (text : string)
| ConsoleWarn (text : string)
| ConsoleDescribeRoute (route : IProxiedRoute) (methods : list HTTPMethod).

Inductive Plugin :=
| fastifyCookie (secret : string)
| fastifyHelmet
| fastifyMultipart.

(** The options object given to [fastify.route].  The handler is the closure
    [(req, res) => this._requestHandler(route, method, req, url, res)]: it is
    kept as the route and the method it captures (its url is [options_url]). *)
Record RouteOptions := {
  options_method : string;
  options_url : string;
  handler_route : IProxiedRoute;
  handler_method : HTTPMethod;
}.

(** The Fastify application: the plugins registered and the routes declared,
    oldest first. *)
Record FastifyInstance := {
  plugins : list Plugin;
  routes : list RouteOptions;
}.

(** What the api request handler ([Maestro['handle']]) does with the two
    callbacks it is given. *)
Inductive HandlerAction :=
| CallsSuccess (routeResp : IApiRouteResponse)
| CallsFailure (error : ErrorObject)
| CallsNeither.

Definition ApiHandler : Type := IProxiedRoute -> RouteRequest -> HandlerAction.

Record Adapter := {
  fastify : FastifyInstance;
  containers : list Container;
  _booted : bool;
  _loadedRoutes : list IProxiedRoute;
  _apiHandler : option ApiHandler;
  emitted : list (Events * EmitArgs);
  console : list ConsoleCall;
}.

(** [new Adapter()] *)
Definition new_Adapter : Adapter :=
  {| fastify := {| plugins := []; routes := [] |};
     containers := [];
     _booted := false;
     _loadedRoutes := [];
     _apiHandler := None;
     emitted := [];
     console := [] |}.

Definition emit (e : Events) (args : EmitArgs) (this : Adapter) : Adapter :=
  {| fastify := fastify this; containers := containers this;
     _booted := _booted this; _loadedRoutes := _loadedRoutes this;
     _apiHandler := _apiHandler this;
     emitted := emitted this ++ [(e, args)];
     console := console this |}.

Definition console_write (c : ConsoleCall) (this : Adapter) : Adapter :=
  {| fastify := fastify this; containers := containers this;
     _booted := _booted this; _loadedRoutes := _loadedRoutes this;
     _apiHandler := _apiHandler this; emitted := emitted this;
     console := console this ++ [c] |}.

Definition with_fastify (f : FastifyInstance) (this : Adapter) : Adapter :=
  {| fastify := f; containers := containers this;
     _booted := _booted this; _loadedRoutes := _loadedRoutes this;
     _apiHandler := _apiHandler this; emitted := emitted this;
     console := console this |}.

(** [this.fastify.register(plugin)] *)
Definition fastify_register (p : Plugin) (this : Adapter) : Adapter :=
  with_fastify {| plugins := plugins (fastify this) ++ [p];
                  routes := routes (fastify this) |} this.

(** [this.fastify.route(options)] once it has returned: the instance
    holds the declaration.  The call itself, which may throw and then
    declares nothing, is [fastify_route_checked], further down. *)
Definition fastify_route (o : RouteOptions) (this : Adapter) : Adapter :=
  with_fastify {| plugins := plugins (fastify this);
                  routes := routes (fastify this) ++ [o] |} this.

Definition setRequestHandler (handler : ApiHandler) (this : Adapter) : Adapter :=
  {| fastify := fastify this; containers := containers this;
     _booted := _booted this; _loadedRoutes := _loadedRoutes this;
     _apiHandler := Some handler; emitted := emitted this;
     console := console this |}.

Definition addContainer (container : Container) (this : Adapter) : Adapter :=
  (* Prevent duplicates *)
  if bool_decide (container ∈ containers this) then this
  else
    {| fastify := fastify this; containers := containers this ++ [container];
       _booted := _booted this; _loadedRoutes := _loadedRoutes this;
       _apiHandler := _apiHandler this; emitted := emitted this;
       console := console this |}.

Definition describeRoute (route : IProxiedRoute) (methods : list HTTPMethod)
    (this : Adapter) : Adapter :=
  console_write (ConsoleDescribeRoute route methods) this.

(** [addRouteToHttpMethod], and after it the loop body and the two
    functions that load routes, on an instance that accepts every
    declaration; on an instance that may refuse one they are
    [addRouteToHttpMethod_checked], [loadRoute_checked],
    [loadRoutesFromContainers_checked] and [boot_checked]. *)
Definition addRouteToHttpMethod (method : HTTPMethod) (route : IProxiedRoute)
    (this : Adapter) : Adapter :=
  let url :=
    if bool_decide (charAt0 (trim (route_url route)) ≠ "/")
    then ("/" ++ trim (route_url route))%string
    else trim (route_url route) in
  (* Handle 'search' http method, currently unsupported by fastify *)
  let unsupported := bool_decide (method ∈ [search; all]) in
  let this :=
    if unsupported
    then console_write
           (ConsoleWarn ("Fastify adapter does not support " ++ double_quote
                         ++ toLocaleUpperCase (method_string method)
                         ++ double_quote
                         ++ " HTTP verb, serving route as POST instead"))
           this
    else this in
  let method := if unsupported then post else method in
  let this :=
    fastify_route
      {| options_method := toLocaleUpperCase (method_string method);
         options_url := url;
         handler_route := route;
         handler_method := method |}
      this in
  let this :=
    match method with
    | all => emit ALL_REQUEST (ArgsRoute route) this
    | get => emit GET_REQUEST (ArgsRoute route) this
    | post => emit POST_REQUEST (ArgsRoute route) this
    | put => emit PUT_REQUEST (ArgsRoute route) this
    | patch => emit PATCH_REQUEST (ArgsRoute route) this
    | delete => emit DELETE_REQUEST (ArgsRoute route) this
    | head => emit HEAD_REQUEST (ArgsRoute route) this
    | options => emit OPTIONS_REQUEST (ArgsRoute route) this
    | connect => emit CONNECT_REQUEST (ArgsRoute route) this
    | trace => emit TRACE_REQUEST (ArgsRoute route) this
    | search => this
    end in
  emit REQUEST (ArgsRouteMethod route method) this.

(** The body of the inner loop of [loadRoutesFromContainers]. *)
Definition loadRoute (this : Adapter) (route : IProxiedRoute) : Adapter :=
  (* Already loaded? Do not add duplicates *)
  if bool_decide (route ∈ _loadedRoutes this) then this
  else
    let methods :=
      match route_methods route with
      | SingleMethod m => [m]
      | MethodArray ms => ms
      end in
    let this := describeRoute route methods this in
    let this :=
      fold_left (fun this method => addRouteToHttpMethod method route this)
                methods this in
    {| fastify := fastify this; containers := containers this;
       _booted := _booted this;
       _loadedRoutes := _loadedRoutes this ++ [route];
       _apiHandler := _apiHandler this; emitted := emitted this;
       console := console this |}.

Definition loadRoutesFromContainers (containers : list Container)
    (this : Adapter) : Adapter :=
  fold_left
    (fun this container => fold_left loadRoute (allRoutes container) this)
    containers this.

Definition boot (this : Adapter) : Adapter :=
  if _booted this then this
  else
    (* Add needed fastify capabilities *)
    let this := fastify_register (fastifyCookie "") this in
    let this := fastify_register fastifyHelmet this in
    let this := fastify_register fastifyMultipart this in
    let this :=
      console_write
        (ConsoleDebug (newline ++ "Route Descriptions:" ++ newline
                       ++ "----------------------" ++ newline))
        this in
    (* Add all routes from currently known containers *)
    let this := loadRoutesFromContainers (containers this) this in
    let this := console_write (ConsoleDebug "") this in
    {| fastify := fastify this; containers := containers this;
       _booted := true; _loadedRoutes := _loadedRoutes this;
       _apiHandler := _apiHandler this; emitted := emitted this;
       console := console this |}.

(** What one run of [_requestHandler] does: the calls made on the reply, the
    calls made to [resolve]/[reject] (the promise given back to Fastify takes
    the first), the events emitted, the normalized request once it has been
    built, whether the api request handler was entered, and the exception
    that left the promise's executor, if any.  The executor is an [async]
    function, so such an exception settles nothing: it is an unhandled
    rejection. *)
Record HandlerRun := {
  run_reply : FastifyReply;
  run_settled : list Settlement;
  run_emitted : list (Events * EmitArgs);
  run_apiRequest : option RouteRequest;
  run_handled : bool;
  run_uncaught : option JsError;
}.

Section RequestHandler.

(** The orchestrator's [RequestFlowNotDefined] error class is declared in
    the orchestrator: what its instances answer for [exitCode] and
    [httpStatus], and whether the class extends [ApiError], are taken as
    given. *)
Variable flow_exitCode flow_httpStatus : JsVal.
Variable flow_isApiError : bool.

(** [new RequestFlowNotDefined(message)] *)
Definition RequestFlowNotDefined (message : string) : ErrorObject :=
  {| error_message := JStr message;
     error_exitCode := flow_exitCode;
     error_httpStatus := flow_httpStatus;
     error_isApiError := flow_isApiError |}.

(** [_requestHandler] on a reply that accepts every status; on any reply
    it is [_requestHandler_checked], further down. *)
Definition _requestHandler (this : Adapter) (route : IProxiedRoute)
    (method : HTTPMethod) (request : FastifyRequest)
    (matchedPattern : string) (response : FastifyReply) : HandlerRun :=
  (* if (typeof this._apiHandler !== "function") { ... } *)
  let run :=
    match _apiHandler this with
    | None =>
        let error :=
          RequestFlowNotDefined
            "Fastify adapter does not have an associated api request handler" in
        let '(response, settled) := ErrorHandler response error in
        {| run_reply := response;
           run_settled := [settled];
           run_emitted := [(REQUEST_ERROR, ArgsError error route request)];
           run_apiRequest := None;
           run_handled := false;
           run_uncaught := None |}
    | Some _ =>
        {| run_reply := response; run_settled := []; run_emitted := [];
           run_apiRequest := None; run_handled := false;
           run_uncaught := None |}
    end in
  (* Create API Request *)
  let apiRequest := TransformRequest request in
  let apiRequest := set_method method apiRequest in
  (* Send it to API Handler *)
  match _apiHandler this with
  | None =>
      {| run_reply := run_reply run;
         run_settled := run_settled run;
         run_emitted := run_emitted run;
         run_apiRequest := Some apiRequest;
         run_handled := false;
         run_uncaught :=
           Some (TypeError "this._apiHandler is not a function") |}
  | Some handle =>
      match handle route apiRequest with
      | CallsSuccess routeResp =>
          match SendResponse routeResp (run_reply run) with
          | (response, Normal send) =>
              {| run_reply := response;
                 run_settled := run_settled run ++ [Resolve send];
                 run_emitted :=
                   run_emitted run
                   ++ [(REQUEST_RESPONSE, ArgsResponse routeResp route)];
                 run_apiRequest := Some apiRequest;
                 run_handled := true;
                 run_uncaught := None |}
          | (response, Abrupt e) =>
              {| run_reply := response;
                 run_settled := run_settled run;
                 run_emitted := run_emitted run;
                 run_apiRequest := Some apiRequest;
                 run_handled := true;
                 run_uncaught := Some e |}
          end
      | CallsFailure error =>
          let '(response, settled) := ErrorHandler (run_reply run) error in
          {| run_reply := response;
             run_settled := run_settled run ++ [settled];
             run_emitted :=
               run_emitted run
               ++ [(REQUEST_ERROR, ArgsError error route request)];
             run_apiRequest := Some apiRequest;
             run_handled := true;
             run_uncaught := None |}
      | CallsNeither =>
          {| run_reply := run_reply run;
             run_settled := run_settled run;
             run_emitted := run_emitted run;
             run_apiRequest := Some apiRequest;
             run_handled := true;
             run_uncaught := None |}
      end
  end.

End RequestHandler.

(** [Adapter.CreateCookie(name, value, options)] *)
Definition CreateCookie (name value : string) (options : JsVal) : ICommand :=
  {| command_name := "create-cookie";
     command_adapters := JArr [JStr ADAPTER_NAME];
     command_payload :=
       JObj (spread [("name", JStr name); ("value", JStr value)] options) |}.

(** The operations that change the registration state of an adapter. *)
Inductive Operation :=
| OpAddContainer (container : Container)
| OpLoadRoutesFromContainers (containers : list Container)
| OpBoot
| OpSetRequestHandler (handler : ApiHandler).

(** A call on an instance that accepts every declaration;
    [perform_checked], further down, is the call on any instance. *)
Definition perform (this : Adapter) (op : Operation) : Adapter :=
  match op with
  | OpAddContainer container => addContainer container this
  | OpLoadRoutesFromContainers containers =>
      loadRoutesFromContainers containers this
  | OpBoot => boot this
  | OpSetRequestHandler handler => setRequestHandler handler this
  end.

Definition perform_all (ops : list Operation) (this : Adapter) : Adapter :=
  fold_left perform ops this.

(** The five sources [TransformRequest] copies, with the origin each is
    copied under, in the order of its loops. *)
Definition copied_sources (request : FastifyRequest) : list (string * JsVal) :=
  [ ("header", JObj (request_headers request));
    ("cookie", request_cookies request);
    ("body", coalesce (request_body request) (JObj []));
    ("query", coalesce (request_query request) (JObj []));
    ("url", coalesce (request_params request) (JObj [])) ].

(** The binding [add] makes for a key of a source. *)
Definition copied (origin : string) (source : JsVal) (name : string)
  : RequestParameter :=
  {| parameter_value := prop source name; parameter_origin := origin |}.

(** A request whose header and url parameter share the name [id]. *)
Definition colliding_request : FastifyRequest :=
  {| request_url := "/users/7";
     request_ip := "127.0.0.1";
     request_ips := None;
     request_headers := [("id", JStr "from-header")];
     request_cookies := JUndefined;
     request_body := JUndefined;
     request_query := JUndefined;
     request_params := JObj [("id", JStr "7")] |}.

(** The fields an operation may leave alone. *)
Definition same_registry (this this' : Adapter) : Prop :=
  _loadedRoutes this' = _loadedRoutes this
  /\ _booted this' = _booted this
  /\ containers this' = containers this
  /\ _apiHandler this' = _apiHandler this.

(** What holds from one state to a later one: the loaded routes are kept as
    a prefix, stay free of duplicates, and a booted adapter stays booted. *)
Definition grows (this this' : Adapter) : Prop :=
  _loadedRoutes this `prefix_of` _loadedRoutes this'
  /\ (NoDup (_loadedRoutes this) -> NoDup (_loadedRoutes this'))
  /\ (_booted this = true -> _booted this' = true).

(** Every route of every container of [cs] is loaded. *)
Definition all_loaded (cs : list Container) (this : Adapter) : Prop :=
  forall c r, c ∈ cs -> r ∈ allRoutes c -> r ∈ _loadedRoutes this.

(** ** More of src/Adapter.ts: what is registered, and the lifecycle *)

(** [route.methods] as the array [loadRoutesFromContainers] iterates. *)
Definition methods_of (route : IProxiedRoute) : list HTTPMethod :=
  match route_methods route with
  | SingleMethod m => [m]
  | MethodArray ms => ms
  end.

(** The method a route is served under once [search] and [all] are replaced. *)
Definition served_method (method : HTTPMethod) : HTTPMethod :=
  if bool_decide (method ∈ [search; all]) then post else method.

(** The url a route is declared under. *)
Definition served_url (route : IProxiedRoute) : string :=
  if bool_decide (charAt0 (trim (route_url route)) ≠ "/")
  then ("/" ++ trim (route_url route))%string
  else trim (route_url route).

(** The value of each member of the [Events] enum. *)
Definition event_name (e : Events) : string :=
  match e with
  | REQUEST => "request"
  | ALL_REQUEST => "all_request"
  | GET_REQUEST => "get_request"
  | POST_REQUEST => "post_request"
  | CONNECT_REQUEST => "connect_request"
  | PUT_REQUEST => "put_request"
  | PATCH_REQUEST => "patch_request"
  | DELETE_REQUEST => "delete_request"
  | TRACE_REQUEST => "trace_request"
  | HEAD_REQUEST => "head_request"
  | OPTIONS_REQUEST => "options_request"
  | REQUEST_ERROR => "request_error"
  | REQUEST_RESPONSE => "request_response"
  end.

(** [loadedRoutes()]: the own properties of the object built by
    [loaded[route.url] = route] over the loaded routes.  Assigning to the key
    ["__proto__"] of a plain object sets its prototype and makes no
    property. *)
Definition loadedRoutes (this : Adapter) : gmap string IProxiedRoute :=
  fold_left
    (fun loaded route =>
       if decide (route_url route = "__proto__") then loaded
       else <[route_url route := route]> loaded)
    (_loadedRoutes this) ∅.

(** The adapter with the fields of its start/stop lifecycle.  [_port] is a
    JavaScript number, [None] standing for [NaN]; [_server] tells whether the
    field has been assigned; [listened] and [closed] record the calls of
    [fastify.listen(port)] and of [server.close()]. *)
Record Lifecycle := {
  registry : Adapter;
  _port : option Z;
  _started : bool;
  _server : bool;
  listened : list Z;
  closed : nat;
}.

(** [onPort(port)] *)
Definition onPort (port : Z) (this : Lifecycle) : Lifecycle :=
  if _started this then this
  else
    {| registry := registry this; _port := Some port;
       _started := _started this; _server := _server this;
       listened := listened this; closed := closed this |}.

(** [new Adapter(port?)].  [envPort] is [Number(process.env.FASTIFY_PORT)],
    the initial value of [_port]: a number is never [null]/[undefined], so
    the [?? 3333] beside it is not taken.  [port] is the constructor's
    argument when it is a number. *)
Definition new_Lifecycle (envPort port : option Z) : Lifecycle :=
  let this :=
    {| registry := new_Adapter; _port := envPort; _started := false;
       _server := false; listened := []; closed := 0 |} in
  match port with
  | Some port => onPort port this
  | None => this
  end.

(** [this._port > 0 ? this._port : 3031]; a comparison with [NaN] is
    false. *)
Definition listen_port (port : option Z) : Z :=
  match port with
  | Some port => if (0 <? port)%Z then port else 3031%Z
  | None => 3031%Z
  end.

(** [start()] when [boot] and [listen] return; [start_checked], further
    down, is the call when either may throw. *)
Definition start (this : Lifecycle) : Lifecycle :=
  {| registry := boot (registry this);
     _port := _port this;
     _started := true;
     _server := true;
     listened := listened this ++ [listen_port (_port this)];
     closed := closed this |}.

(** [stop()]; [this._server!.close()] throws when [_server] was never
    assigned. *)
Definition stop (this : Lifecycle) : Completion Lifecycle :=
  if _started this
  then
    if _server this
    then Normal {| registry := registry this; _port := _port this;
                   _started := false; _server := _server this;
                   listened := listened this; closed := S (closed this) |}
    else Abrupt (TypeError "Cannot read property 'close' of undefined")
  else Normal this.

(** The calls made on an adapter over its life. *)
Inductive LifecycleCall :=
| DoStart
| DoStop
| DoOnPort (port : Z)
| DoRegistry (op : Operation).

(** The calls a reply receives from commands: headers and cookies. *)
Definition is_header_or_cookie (c : ReplyCall) : bool :=
  match c with
  | CallHeader _ _ | CallSetCookie _ _ _ => true
  | CallStatus _ | CallSend _ => false
  end.

(** The names for which applying a command can throw. *)
Definition throwing_names : list string :=
  ["create-cookie"; "__proto__"; "__defineGetter__"; "__defineSetter__"].

(** The names of the commands in an argument of [applyCommandsToResponse]. *)
Fixpoint command_names (commands : CommandArg) : list string :=
  match commands with
  | OneCommand command => [command_name command]
  | CommandArray l =>
      (fix names (l : list CommandArg) : list string :=
         match l with
         | [] => []
         | command :: l' => command_names command ++ names l'
         end) l
  end.

(** The leading keys that satisfy a test: those before the first that fails. *)
Fixpoint leading (test : string -> bool) (keys : list string) : list string :=
  match keys with
  | [] => []
  | k :: keys' => if test k then k :: leading test keys' else []
  end.

(** An effect that only adds header and cookie calls to the reply, whether
    it completes or throws. *)
Definition only_adds (m : Eff unit) : Prop :=
  forall r, exists calls,
    (m r).1 = r ++ calls /\ forallb is_header_or_cookie calls = true.

(** An effect that, besides, always completes. *)
Definition adds_and_completes (m : Eff unit) : Prop :=
  forall r, exists calls,
    m r = (r ++ calls, Normal tt) /\ forallb is_header_or_cookie calls = true.

(** Whether a character occurs in a string. *)
Fixpoint mentions (c : ascii) (s : string) : bool :=
  match s with
  | EmptyString => false
  | String c' s' => bool_decide (c' = c) || mentions c s'
  end.

(** The address part of the request identification. *)
Definition request_address (request : FastifyRequest) : string :=
  match request_ips request with
  | Some ips => String.concat " - " ips
  | None => request_ip request
  end.

(** The event the [switch] of [addRouteToHttpMethod] emits for a method; it
    has no case for [search]. *)
Definition method_event (method : HTTPMethod) : option Events :=
  match method with
  | all => Some ALL_REQUEST
  | get => Some GET_REQUEST
  | post => Some POST_REQUEST
  | put => Some PUT_REQUEST
  | patch => Some PATCH_REQUEST
  | delete => Some DELETE_REQUEST
  | head => Some HEAD_REQUEST
  | options => Some OPTIONS_REQUEST
  | connect => Some CONNECT_REQUEST
  | trace => Some TRACE_REQUEST
  | search => None
  end.

(** What registering a route under a method declares to Fastify. *)
Definition declared (route : IProxiedRoute) (method : HTTPMethod)
  : RouteOptions :=
  {| options_method := toLocaleUpperCase (method_string (served_method method));
     options_url := served_url route;
     handler_route := route;
     handler_method := served_method method |}.

(** The events registering a route under a method emits. *)
Definition announced (route : IProxiedRoute) (method : HTTPMethod)
  : list (Events * EmitArgs) :=
  match method_event (served_method method) with
  | Some e => [(e, ArgsRoute route)]
  | None => []
  end
  ++ [(REQUEST, ArgsRouteMethod route (served_method method))].

(** The routes declared and the events emitted are those of the loaded
    routes: for each, in the order loaded, one declaration and its events per
    method. *)
Definition routes_registered (this : Adapter) : Prop :=
  routes (fastify this)
    = _loadedRoutes this ≫= (fun r => declared r <$> methods_of r)
  /\ emitted this
    = _loadedRoutes this ≫= (fun r => methods_of r ≫= announced r).

(** What the registration calls keep true of an adapter: besides, the
    plugins are those of a booted adapter, and no container is held twice. *)
Definition registered (this : Adapter) : Prop :=
  routes_registered this
  /\ plugins (fastify this)
    = (if _booted this
       then [fastifyCookie ""; fastifyHelmet; fastifyMultipart] else [])
  /\ NoDup (containers this).

(** What every call keeps true of an adapter over its life. *)
Definition life_ok (this : Lifecycle) : Prop :=
  (_started this = true -> _server this = true)
  /\ Forall (fun port => (0 < port)%Z) (listened this)
  /\ closed this <= length (listened this)
  /\ (_started this = true -> closed this < length (listened this))
  /\ (listened this <> [] -> _booted (registry this) = true).

(** Whether a settlement is a call of [resolve]. *)
Definition is_resolve (s : Settlement) : bool :=
  match s with Resolve _ => true | Reject _ => false end.

(** ** Calls that Fastify may refuse

    The definitions above follow the adapter's statements and record each
    call of Fastify as made, with the effect it has once it returns: they
    are the runs in which every call of Fastify returns.  Three of these
    calls may throw instead, [reply.status(code)] for a code that is no
    valid status, [fastify.route(options)] for a declaration it refuses (a
    method it does not support, among others) and [fastify.listen(port)];
    a throw cuts the adapter's function short.  Which calls throw is decided
    in Fastify, not in the adapter: it is taken as given, and the properties
    are proved whatever it is.  The definitions below are the same functions
    with the throws threaded through; a call that throws has no other
    effect. *)

Section Fastify.

(** Whether [reply.status(code)] returns, rather than throws. *)
Variable accepts_status : JsVal -> bool.

(** Whether [fastify.route(options)] returns, rather than throws, on the
    instance as it is. *)
Variable accepts_route : FastifyInstance -> RouteOptions -> bool.

Variable flow_exitCode flow_httpStatus : JsVal.
Variable flow_isApiError : bool.

(** [response.status(code)] *)
Definition status_checked (code : JsVal) : Eff unit :=
  if accepts_status code
  then call (CallStatus code)
  else throw (Refused "reply.status").

(** [ErrorHandler] (the current version) *)
Definition ErrorHandler_checked (response : FastifyReply) (error : ErrorObject)
  : FastifyReply * Completion Settlement :=
  let errorPayload :=
    {| exitCode := "REQUEST_REFUSED"; message := error_message error |} in
  let errorPayload :=
    (* if (typeof error.exitCode === 'string') *)
    match error_exitCode error with
    | JStr code => {| exitCode := code; message := message errorPayload |}
    | _ => errorPayload
    end in
  if is_number (error_httpStatus error)
  then (status_checked (error_httpStatus error) ;;;
        ret (Resolve (payload_object errorPayload))) response
  else (status_checked (JNum 500) ;;;
        ret (Reject (payload_object errorPayload))) response.

(** [ErrorHandler] (the earlier version) *)
Definition Legacy_ErrorHandler_checked (response : FastifyReply)
    (error : ErrorObject) : FastifyReply * Completion Settlement :=
  if error_isApiError error
  then (status_checked (error_httpStatus error) ;;;
        call (CallSend (error_message error)) ;;;
        ret (Resolve (error_message error))) response
  else (status_checked (JNum 500) ;;;
        ret (Reject (error_message error))) response.

(** [SendResponse] *)
Definition SendResponse_checked (routeResp : IApiRouteResponse) : Eff JsVal :=
  (* Cannot resolve a promise with null/undefined! *)
  let send := coalesce (response_payload routeResp) (JObj []) in
  match response_commands routeResp with
  | Some commands => applyCommandsToResponse commands
  | None => ret tt
  end ;;;
  call (CallHeader "X-Exit-Code" (response_exitCode routeResp)) ;;;
  status_checked (response_status routeResp) ;;;
  ret send.

(** [_requestHandler].  A throw of the error handler in the guard leaves the
    promise's executor at once, before the request is normalized; a throw
    inside one of the two callbacks leaves the callback before its [emit].
    Either way the promise is not settled. *)
Definition _requestHandler_checked (this : Adapter) (route : IProxiedRoute)
    (method : HTTPMethod) (request : FastifyRequest)
    (matchedPattern : string) (response : FastifyReply) : HandlerRun :=
  let error :=
    RequestFlowNotDefined flow_exitCode flow_httpStatus flow_isApiError
      "Fastify adapter does not have an associated api request handler" in
  (* Create API Request *)
  let apiRequest := TransformRequest request in
  let apiRequest := set_method method apiRequest in
  match _apiHandler this with
  | None =>
      (* if (typeof this._apiHandler !== "function") { ... } *)
      match ErrorHandler_checked response error with
      | (response, Normal settled) =>
          {| run_reply := response;
             run_settled := [settled];
             run_emitted := [(REQUEST_ERROR, ArgsError error route request)];
             run_apiRequest := Some apiRequest;
             run_handled := false;
             run_uncaught :=
               Some (TypeError "this._apiHandler is not a function") |}
      | (response, Abrupt e) =>
          {| run_reply := response; run_settled := []; run_emitted := [];
             run_apiRequest := None; run_handled := false;
             run_uncaught := Some e |}
      end
  | Some handle =>
      (* Send it to API Handler *)
      match handle route apiRequest with
      | CallsSuccess routeResp =>
          match SendResponse_checked routeResp response with
          | (response, Normal send) =>
              {| run_reply := response;
                 run_settled := [Resolve send];
                 run_emitted :=
                   [(REQUEST_RESPONSE, ArgsResponse routeResp route)];
                 run_apiRequest := Some apiRequest;
                 run_handled := true;
                 run_uncaught := None |}
          | (response, Abrupt e) =>
              {| run_reply := response; run_settled := []; run_emitted := [];
                 run_apiRequest := Some apiRequest; run_handled := true;
                 run_uncaught := Some e |}
          end
      | CallsFailure error =>
          match ErrorHandler_checked response error with
          | (response, Normal settled) =>
              {| run_reply := response;
                 run_settled := [settled];
                 run_emitted :=
                   [(REQUEST_ERROR, ArgsError error route request)];
                 run_apiRequest := Some apiRequest;
                 run_handled := true;
                 run_uncaught := None |}
          | (response, Abrupt e) =>
              {| run_reply := response; run_settled := []; run_emitted := [];
                 run_apiRequest := Some apiRequest; run_handled := true;
                 run_uncaught := Some e |}
          end
      | CallsNeither =>
          {| run_reply := response; run_settled := []; run_emitted := [];
             run_apiRequest := Some apiRequest; run_handled := true;
             run_uncaught := None |}
      end
  end.

(** [this.fastify.route(options)]: the declaration is added when the call
    returns. *)
Definition fastify_route_checked (options : RouteOptions) (this : Adapter)
  : Adapter * Completion unit :=
  if accepts_route (fastify this) options
  then (fastify_route options this, Normal tt)
  else (this, Abrupt (Refused "fastify.route")).

(** [for (let x of l) body(x)] on the adapter: a throw ends the loop and
    keeps what was done. *)
Fixpoint each_checked {A} (body : A -> Adapter -> Adapter * Completion unit)
    (l : list A) (this : Adapter) : Adapter * Completion unit :=
  match l with
  | [] => (this, Normal tt)
  | x :: l' =>
      match body x this with
      | (this, Normal _) => each_checked body l' this
      | (this, Abrupt e) => (this, Abrupt e)
      end
  end.

(** [addRouteToHttpMethod]: the warning comes before the call of
    [fastify.route], the events after it. *)
Definition addRouteToHttpMethod_checked (method : HTTPMethod)
    (route : IProxiedRoute) (this : Adapter) : Adapter * Completion unit :=
  let url :=
    if bool_decide (charAt0 (trim (route_url route)) ≠ "/")
    then ("/" ++ trim (route_url route))%string
    else trim (route_url route) in
  (* Handle 'search' http method, currently unsupported by fastify *)
  let unsupported := bool_decide (method ∈ [search; all]) in
  let this :=
    if unsupported
    then console_write
           (ConsoleWarn ("Fastify adapter does not support " ++ double_quote
                         ++ toLocaleUpperCase (method_string method)
                         ++ double_quote
                         ++ " HTTP verb, serving route as POST instead"))
           this
    else this in
  let method := if unsupported then post else method in
  match
    fastify_route_checked
      {| options_method := toLocaleUpperCase (method_string method);
         options_url := url;
         handler_route := route;
         handler_method := method |}
      this
  with
  | (this, Normal _) =>
      let this :=
        match method with
        | all => emit ALL_REQUEST (ArgsRoute route) this
        | get => emit GET_REQUEST (ArgsRoute route) this
        | post => emit POST_REQUEST (ArgsRoute route) this
        | put => emit PUT_REQUEST (ArgsRoute route) this
        | patch => emit PATCH_REQUEST (ArgsRoute route) this
        | delete => emit DELETE_REQUEST (ArgsRoute route) this
        | head => emit HEAD_REQUEST (ArgsRoute route) this
        | options => emit OPTIONS_REQUEST (ArgsRoute route) this
        | connect => emit CONNECT_REQUEST (ArgsRoute route) this
        | trace => emit TRACE_REQUEST (ArgsRoute route) this
        | search => this
        end in
      (emit REQUEST (ArgsRouteMethod route method) this, Normal tt)
  | (this, Abrupt e) => (this, Abrupt e)
  end.

(** The body of the inner loop of [loadRoutesFromContainers]: the route is
    pushed once every method of it has been declared. *)
Definition loadRoute_checked (this : Adapter) (route : IProxiedRoute)
  : Adapter * Completion unit :=
  (* Already loaded? Do not add duplicates *)
  if bool_decide (route ∈ _loadedRoutes this) then (this, Normal tt)
  else
    let methods :=
      match route_methods route with
      | SingleMethod m => [m]
      | MethodArray ms => ms
      end in
    let this := describeRoute route methods this in
    match each_checked
            (fun method => addRouteToHttpMethod_checked method route)
            methods this with
    | (this, Normal _) =>
        ({| fastify := fastify this; containers := containers this;
            _booted := _booted this;
            _loadedRoutes := _loadedRoutes this ++ [route];
            _apiHandler := _apiHandler this; emitted := emitted this;
            console := console this |}, Normal tt)
    | (this, Abrupt e) => (this, Abrupt e)
    end.

Definition loadRoutesFromContainers_checked (containers : list Container)
    (this : Adapter) : Adapter * Completion unit :=
  each_checked
    (fun container =>
       each_checked (fun route this => loadRoute_checked this route)
                    (allRoutes container))
    containers this.

(** [boot]: the plugins are registered first, the flag is set last, once the
    routes are loaded. *)
Definition boot_checked (this : Adapter) : Adapter * Completion unit :=
  if _booted this then (this, Normal tt)
  else
    (* Add needed fastify capabilities *)
    let this := fastify_register (fastifyCookie "") this in
    let this := fastify_register fastifyHelmet this in
    let this := fastify_register fastifyMultipart this in
    let this :=
      console_write
        (ConsoleDebug (newline ++ "Route Descriptions:" ++ newline
                       ++ "----------------------" ++ newline))
        this in
    (* Add all routes from currently known containers *)
    match loadRoutesFromContainers_checked (containers this) this with
    | (this, Normal _) =>
        let this := console_write (ConsoleDebug "") this in
        ({| fastify := fastify this; containers := containers this;
            _booted := true; _loadedRoutes := _loadedRoutes this;
            _apiHandler := _apiHandler this; emitted := emitted this;
            console := console this |}, Normal tt)
    | (this, Abrupt e) => (this, Abrupt e)
    end.

Definition perform_checked (this : Adapter) (op : Operation)
  : Adapter * Completion unit :=
  match op with
  | OpAddContainer container => (addContainer container this, Normal tt)
  | OpLoadRoutesFromContainers containers =>
      loadRoutesFromContainers_checked containers this
  | OpBoot => boot_checked this
  | OpSetRequestHandler handler => (setRequestHandler handler this, Normal tt)
  end.

(** A sequence of calls, each throw caught by the caller: the next call
    finds the adapter as the throwing one left it.  With the adapter
    reached, how each call completed, in order. *)
Fixpoint perform_each (ops : list Operation) (this : Adapter)
  : Adapter * list (Completion unit) :=
  match ops with
  | [] => (this, [])
  | op :: ops' =>
      let '(this, done) := perform_checked this op in
      let '(final, rest) := perform_each ops' this in
      (final, done :: rest)
  end.

End Fastify.

(** Whether a call returned. *)
Definition returned {A} (c : Completion A) : bool :=
  match c with Normal _ => true | Abrupt _ => false end.

(** How many of the calls are calls of [boot] that threw. *)
Fixpoint boots_thrown (ops : list Operation) (done : list (Completion unit))
  : nat :=
  match ops, done with
  | OpBoot :: ops', Abrupt _ :: done' => S (boots_thrown ops' done')
  | _ :: ops', _ :: done' => boots_thrown ops' done'
  | _, _ => 0
  end.

(** The adapter once [addRouteToHttpMethod] has written its warning, for
    [search] and [all]. *)
Definition warned (method : HTTPMethod) (this : Adapter) : Adapter :=
  if bool_decide (method ∈ [search; all])
  then console_write
         (ConsoleWarn ("Fastify adapter does not support " ++ double_quote
                       ++ toLocaleUpperCase (method_string method)
                       ++ double_quote
                       ++ " HTTP verb, serving route as POST instead"))
         this
  else this.

(** The events of a declaration: those [addRouteToHttpMethod] emits once
    the declaration is made. *)
Definition declaration_events (o : RouteOptions) : list (Events * EmitArgs) :=
  announced (handler_route o) (handler_method o).

(** What loading [methods] of a route does to an adapter: one declaration
    and its events for each, in order; the console apart, nothing else
    changes. *)
Definition declares (route : IProxiedRoute) (methods : list HTTPMethod)
    (this this' : Adapter) : Prop :=
  routes (fastify this')
    = routes (fastify this) ++ (declared route <$> methods)
  /\ emitted this' = emitted this ++ (methods ≫= announced route)
  /\ plugins (fastify this') = plugins (fastify this)
  /\ same_registry this this'.

(** What a call that loads routes keeps of an adapter, whether it returns
    or throws: the flag, the containers, the handler and the plugins; the
    declarations and the loaded routes are kept as prefixes. *)
Definition loads_only (this this' : Adapter) : Prop :=
  _booted this' = _booted this
  /\ containers this' = containers this
  /\ _apiHandler this' = _apiHandler this
  /\ plugins (fastify this') = plugins (fastify this)
  /\ routes (fastify this) `prefix_of` routes (fastify this')
  /\ _loadedRoutes this `prefix_of` _loadedRoutes this'.

(** What every registration call keeps true of an adapter, whether it
    returns or throws: the events emitted are those of the declarations made,
    every declaration is that of a route under a method, and every method of
    every loaded route has its declaration. *)
Definition declarations_ok (this : Adapter) : Prop :=
  emitted this = routes (fastify this) ≫= declaration_events
  /\ Forall (fun b => exists r m, b = declared r m) (routes (fastify this))
  /\ (forall r m, r ∈ _loadedRoutes this -> m ∈ methods_of r ->
        declared r m ∈ routes (fastify this)).

(** The plugins of [n] passes of [boot] through its registrations. *)
Definition plugins_of_boots (n : nat) : list Plugin :=
  mjoin (replicate n [fastifyCookie ""; fastifyHelmet; fastifyMultipart]).

Section Server.

(** What Fastify lets through may depend on the calls of [listen] and of
    [close] made so far: whether [fastify.route(options)] returns, given
    these and the instance as it is, and whether [fastify.listen(port)]
    returns. *)
Variable accepts_route_after :
  list Z -> nat -> FastifyInstance -> RouteOptions -> bool.
Variable accepts_listen : list Z -> nat -> Z -> bool.

(** [start()]: [boot] may throw, and [listen] may, before the server and the
    flag are assigned.  A call of [listen] that throws is not recorded in
    [listened]. *)
Definition start_checked (this : Lifecycle) : Lifecycle * Completion unit :=
  match boot_checked (accepts_route_after (listened this) (closed this))
                     (registry this) with
  | (booted, Abrupt e) =>
      ({| registry := booted; _port := _port this;
          _started := _started this; _server := _server this;
          listened := listened this; closed := closed this |}, Abrupt e)
  | (booted, Normal _) =>
      if accepts_listen (listened this) (closed this)
                        (listen_port (_port this))
      then
        ({| registry := booted; _port := _port this; _started := true;
            _server := true;
            listened := listened this ++ [listen_port (_port this)];
            closed := closed this |}, Normal tt)
      else
        ({| registry := booted; _port := _port this;
            _started := _started this; _server := _server this;
            listened := listened this; closed := closed this |},
         Abrupt (Refused "fastify.listen"))
  end.

Definition lifecycle_step_checked (this : Lifecycle) (c : LifecycleCall)
  : Lifecycle * Completion unit :=
  match c with
  | DoStart => start_checked this
  | DoStop =>
      match stop this with
      | Normal this => (this, Normal tt)
      | Abrupt e => (this, Abrupt e)
      end
  | DoOnPort port => (onPort port this, Normal tt)
  | DoRegistry op =>
      let '(r, done) :=
        perform_checked (accepts_route_after (listened this) (closed this))
                        (registry this) op in
      ({| registry := r; _port := _port this; _started := _started this;
          _server := _server this; listened := listened this;
          closed := closed this |}, done)
  end.

(** The calls of a life, each throw caught by the caller; with the adapter
    reached, how each call completed, in order. *)
Fixpoint lifecycle_each (calls : list LifecycleCall) (this : Lifecycle)
  : Lifecycle * list (Completion unit) :=
  match calls with
  | [] => (this, [])
  | c :: calls' =>
      let '(this, done) := lifecycle_step_checked this c in
      let '(final, rest) := lifecycle_each calls' this in
      (final, done :: rest)
  end.

End Server.

(** Whether a call of the life of an adapter reaches Fastify's [route] or
    [listen]. *)
Definition reaches_fastify (c : LifecycleCall) : bool :=
  match c with
  | DoStart => true
  | DoRegistry (OpLoadRoutesFromContainers _) => true
  | DoRegistry OpBoot => true
  | _ => false
  end.

(** A reply whose [status] returns for the integers from 100 to 600 and
    throws for the other numbers and for [undefined] and [null], as
    Fastify's does.  It is made to throw for every other value too, though
    Fastify parses a string as a number first: no such value is passed to it
    below. *)
Definition status_100_to_600 (code : JsVal) : bool :=
  match code with
  | JNum n => (100 <=? n)%Z && (n <=? 600)%Z
  | _ => false
  end.

(** An instance whose [route] returns for the methods Fastify supports and
    throws for the others, [CONNECT] and [TRACE] among them. *)
Definition supported_methods : list string :=
  ["DELETE"; "GET"; "HEAD"; "PATCH"; "POST"; "PUT"; "OPTIONS"].

Definition route_supported (instance : FastifyInstance) (o : RouteOptions)
  : bool :=
  bool_decide (options_method o ∈ supported_methods).

(** An instance that lets every declaration through. *)
Definition route_any (instance : FastifyInstance) (o : RouteOptions) : bool :=
  true.

(** A container with a route Fastify refuses between two it accepts. *)
Definition refused_container : Container :=
  {| container_ref := 1;
     allRoutes :=
       [ {| route_ref := 1; route_url := "a";
            route_methods := SingleMethod get |};
         {| route_ref := 2; route_url := "b";
            route_methods := MethodArray [put; connect] |};
         {| route_ref := 3; route_url := "c";
            route_methods := SingleMethod get |} ] |}.

(** * Properties *)

(** ** The error handler *)

Lemma reply_status_snoc (r : FastifyReply) (code : JsVal) :
  reply_status (r ++ [CallStatus code]) = Some code.
Proof.
  induction r as [|c r IH]; simpl; [reflexivity|]. now rewrite IH.
Qed.

(** The earlier handler: an instance of [ApiError] gives its status, any
    other error 500; both ways the promise is settled with the bare
    message. *)
Lemma Legacy_ErrorHandler_status (response : FastifyReply) (error : ErrorObject) :
  reply_status (Legacy.ErrorHandler response error).1 =
    Some (if error_isApiError error then error_httpStatus error else JNum 500)
  /\ (Legacy.ErrorHandler response error).2 =
       (if error_isApiError error then Resolve else Reject) (error_message error).
Proof.
  unfold Legacy.ErrorHandler. destruct (error_isApiError error); simpl.
  - split; [|reflexivity].
    induction response as [|c r IH]; simpl; [reflexivity|]. now rewrite IH.
  - now rewrite reply_status_snoc.
Qed.

Lemma status_checked_run (accepts_status : JsVal -> bool) (code : JsVal)
    (r : FastifyReply) :
  status_checked accepts_status code r =
    if accepts_status code
    then (r ++ [CallStatus code], Normal tt)
    else (r, Abrupt (Refused "reply.status")).
Proof. unfold status_checked. now destruct (accepts_status code). Qed.

Lemma ErrorHandler_checked_run (accepts_status : JsVal -> bool)
    (response : FastifyReply) (error : ErrorObject) :
  ErrorHandler_checked accepts_status response error =
    if accepts_status (if is_number (error_httpStatus error)
                       then error_httpStatus error else JNum 500)
    then ((ErrorHandler response error).1,
          Normal (ErrorHandler response error).2)
    else (response, Abrupt (Refused "reply.status")).
Proof.
  unfold ErrorHandler_checked, ErrorHandler, bind, ret.
  destruct (is_number (error_httpStatus error));
    rewrite status_checked_run;
    match goal with |- context [accepts_status ?c] =>
      destruct (accepts_status c) end; reflexivity.
Qed.

Lemma Legacy_ErrorHandler_checked_run (accepts_status : JsVal -> bool)
    (response : FastifyReply) (error : ErrorObject) :
  Legacy_ErrorHandler_checked accepts_status response error =
    if accepts_status (if error_isApiError error
                       then error_httpStatus error else JNum 500)
    then ((Legacy.ErrorHandler response error).1,
          Normal (Legacy.ErrorHandler response error).2)
    else (response, Abrupt (Refused "reply.status")).
Proof.
  unfold Legacy_ErrorHandler_checked, Legacy.ErrorHandler, bind, ret, call.
  destruct (error_isApiError error);
    rewrite status_checked_run;
    match goal with |- context [accepts_status ?c] =>
      destruct (accepts_status c) end; cbn; rewrite <- ?app_assoc;
    reflexivity.
Qed.

(** C1. For every error object and whatever statuses the reply accepts,
    the current handler passes the reply the error's [httpStatus] when that
    is a number and 500 otherwise.  When the reply accepts the status, it is
    set to exactly that value and the promise is settled with the structured
    payload [{exitCode, message}], resolved in the first case and rejected in
    the second; the payload's [message] is the error's message as it is, its
    exit code the error's when that is a string and ["REQUEST_REFUSED"]
    otherwise.  When the reply refuses the status, the handler throws: no
    status is set and the promise is not settled.  The earlier handler
    passes the error's [httpStatus] when the error is an [ApiError], whether
    a number or not, and 500 otherwise, and settles the promise with the
    bare message. *)
Theorem ErrorHandler_sets_accepted_status :
  forall (accepts_status : JsVal -> bool) (response : FastifyReply)
         (error : ErrorObject),
    let code :=
      match error_exitCode error with
      | JStr code => code
      | _ => "REQUEST_REFUSED"
      end in
    let payload :=
      JObj [("exitCode", JStr code); ("message", error_message error)] in
    let status :=
      if is_number (error_httpStatus error)
      then error_httpStatus error else JNum 500 in
    let earlier_status :=
      if error_isApiError error then error_httpStatus error else JNum 500 in
    ErrorHandler_checked accepts_status response error =
      (if accepts_status status
       then (response ++ [CallStatus status],
             Normal ((if is_number (error_httpStatus error)
                      then Resolve else Reject) payload))
       else (response, Abrupt (Refused "reply.status")))
    /\ reply_status (response ++ [CallStatus status]) = Some status
    /\ prop payload "message" = error_message error
    /\ Legacy_ErrorHandler_checked accepts_status response error =
         (if accepts_status earlier_status
          then (response
                  ++ CallStatus earlier_status
                     :: (if error_isApiError error
                         then [CallSend (error_message error)] else []),
                Normal ((if error_isApiError error then Resolve else Reject)
                          (error_message error)))
          else (response, Abrupt (Refused "reply.status")))
    /\ reply_status
         (response
            ++ CallStatus earlier_status
               :: (if error_isApiError error
                   then [CallSend (error_message error)] else []))
       = Some earlier_status.
Proof.
  intros accepts_status response error code payload status earlier_status.
  subst code payload status earlier_status.
  rewrite ErrorHandler_checked_run, Legacy_ErrorHandler_checked_run.
  destruct (Legacy_ErrorHandler_status response error) as (Hearlier & _).
  unfold ErrorHandler, Legacy.ErrorHandler in *.
  split.
  { destruct (is_number (error_httpStatus error));
      destruct (error_exitCode error); reflexivity. }
  split; [apply reply_status_snoc|].
  split; [reflexivity|].
  split.
  { destruct (error_isApiError error); reflexivity. }
  destruct (error_isApiError error); exact Hearlier.
Qed.

(** Where the claim as worded fails.  An error of another class that
    carries the numeric status 404 gets 500 from the earlier handler, and an
    [ApiError] gets no structured payload from it: the promise is resolved
    with the bare message.  With the current handler, a numeric status that
    Fastify's reply refuses, such as 0, is not set: the handler throws. *)
Lemma ErrorHandler_status_not_set :
  let plain :=
    {| error_message := JStr "No such user"; error_exitCode := JUndefined;
       error_httpStatus := JNum 404; error_isApiError := false |} in
  let known :=
    {| error_message := JStr "No such user";
       error_exitCode := JStr "NOT_FOUND";
       error_httpStatus := JNum 404; error_isApiError := true |} in
  let zero :=
    {| error_message := JStr "No such user";
       error_exitCode := JStr "NOT_FOUND";
       error_httpStatus := JNum 0; error_isApiError := true |} in
  is_number (error_httpStatus plain) = true
  /\ Legacy_ErrorHandler_checked status_100_to_600 [] plain
     = ([CallStatus (JNum 500)], Normal (Reject (JStr "No such user")))
  /\ Legacy_ErrorHandler_checked status_100_to_600 [] known
     = ([CallStatus (JNum 404); CallSend (JStr "No such user")],
        Normal (Resolve (JStr "No such user")))
  /\ is_number (error_httpStatus zero) = true
  /\ ErrorHandler_checked status_100_to_600 [] zero
     = ([], Abrupt (Refused "reply.status")).
Proof. vm_compute. repeat split. Qed.

(** An application error with a status the reply accepts, and a plain
    [Error]. *)
Example ErrorHandler_checked_known_error :
  ErrorHandler_checked status_100_to_600 []
    {| error_message := JStr "No such user"; error_exitCode := JStr "NOT_FOUND";
       error_httpStatus := JNum 404; error_isApiError := true |}
  = ([CallStatus (JNum 404)],
     Normal (Resolve (JObj [("exitCode", JStr "NOT_FOUND");
                            ("message", JStr "No such user")]))).
Proof. reflexivity. Qed.

Example ErrorHandler_checked_unknown_error :
  ErrorHandler_checked status_100_to_600 []
    {| error_message := JStr "boom"; error_exitCode := JUndefined;
       error_httpStatus := JUndefined; error_isApiError := false |}
  = ([CallStatus (JNum 500)],
     Normal (Reject (JObj [("exitCode", JStr "REQUEST_REFUSED");
                           ("message", JStr "boom")]))).
Proof. reflexivity. Qed.

(** ** Command dispatch *)

(** A command reaches the command table exactly when its filter is absent
    ([null]/[undefined]) or is the string ["Fastify"]; every other filter,
    arrays included, leaves the reply as it is. *)
Lemma applyCommand_dispatch (command : ICommand) (response : FastifyReply) :
  applyCommand command response =
    if is_nullish (command_adapters command)
       || strict_eq_str (command_adapters command) ADAPTER_NAME
    then
      match Commands.get (command_name command) with
      | Some m => Commands.invoke m (command_payload command) response
      | None => (response, Normal tt)
      end
    else (response, Normal tt).
Proof.
  unfold applyCommand.
  destruct (command_adapters command) as [| |b|n|s|elems|props]; simpl;
    try reflexivity.
  - destruct (Commands.get (command_name command)); reflexivity.
  - destruct (Commands.get (command_name command)); reflexivity.
  - destruct (strict_eq_str (JStr s) ADAPTER_NAME) eqn:E; simpl in E; rewrite E;
      [destruct (Commands.get (command_name command))|]; reflexivity.
  - destruct (includes_str elems ADAPTER_NAME); reflexivity.
Qed.

(** C2. A command whose filter is an array is never applied, whether or not
    the array holds the adapter's name: in particular the commands
    [Adapter.CreateCookie] builds, filtered by [["Fastify"]], leave the reply
    untouched. *)
Theorem applyCommands_array_filter_not_applied :
  forall (elems : list JsVal) (name : string) (payload : JsVal)
         (cookie value : string) (options : JsVal) (response : FastifyReply),
    applyCommandsToResponse
      (OneCommand {| command_name := name; command_adapters := JArr elems;
                     command_payload := payload |}) response
    = (response, Normal tt)
    /\ command_adapters (CreateCookie cookie value options) = JArr [JStr "Fastify"]
    /\ includes_str [JStr "Fastify"] ADAPTER_NAME = true
    /\ applyCommandsToResponse (OneCommand (CreateCookie cookie value options))
         response = (response, Normal tt).
Proof.
  intros. simpl applyCommandsToResponse.
  rewrite !applyCommand_dispatch. simpl. repeat split; reflexivity.
Qed.

(** The same cookie command with the filter left out is applied. *)
Example create_cookie_without_filter_applied :
  applyCommandsToResponse
    (OneCommand {| command_name := "create-cookie";
                   command_adapters := JUndefined;
                   command_payload :=
                     JObj [("sid", JObj [("value", JStr "abc");
                                         ("path", JStr "/")])] |}) []
  = ([CallSetCookie "sid" (JStr "abc")
        (JObj [("value", JStr "abc"); ("path", JStr "/")])], Normal tt).
Proof. reflexivity. Qed.

Example set_header_applied :
  applyCommandsToResponse
    (CommandArray
       [ OneCommand {| command_name := "set-header";
                       command_adapters := JStr "Fastify";
                       command_payload :=
                         JObj [("X-Total", JStr "3"); ("ETag", JStr "abc")] |};
         OneCommand {| command_name := "set-header";
                       command_adapters := JStr "Express";
                       command_payload := JObj [("X-Other", JStr "1")] |};
         OneCommand {| command_name := "no-such-command";
                       command_adapters := JNull;
                       command_payload := JUndefined |} ]) []
  = ([CallHeader "X-Total" (JStr "3"); CallHeader "ETag" (JStr "abc")],
     Normal tt).
Proof. reflexivity. Qed.

(** A cookie entry that is [null] cannot be read: the calls made before it
    stay, the rest is not reached. *)
Example create_cookie_null_entry :
  applyCommandsToResponse
    (OneCommand {| command_name := "create-cookie";
                   command_adapters := JUndefined;
                   command_payload :=
                     JObj [("a", JObj [("value", JStr "1")]);
                           ("b", JNull);
                           ("c", JObj [("value", JStr "3")])] |}) []
  = ([CallSetCookie "a" (JStr "1") (JObj [("value", JStr "1")])],
     Abrupt (TypeError "Cannot read property 'value' of null or undefined")).
Proof. reflexivity. Qed.

(** A name the command table does not answer for, neither by its own
    properties nor by the inherited ones, is passed over in silence. *)
Lemma applyCommand_unknown_name (command : ICommand) (response : FastifyReply) :
  Commands.get (command_name command) = None ->
  applyCommand command response = (response, Normal tt).
Proof.
  intros H. rewrite applyCommand_dispatch, H.
  destruct (_ || _); reflexivity.
Qed.

(** The inherited methods other than the two definers make no call on the
    reply and complete. *)
Lemma invoke_inherited_method (name : string) (payload : JsVal)
    (response : FastifyReply) :
  name ∉ ["__defineGetter__"; "__defineSetter__"] ->
  Commands.invoke (Commands.InheritedMethod name) payload response
  = (response, Normal tt).
Proof.
  intros H. unfold Commands.invoke.
  rewrite bool_decide_eq_false_2 by exact H. reflexivity.
Qed.

(** C4. A command named ["__proto__"] is neither ['set-header'] nor
    ['create-cookie'], yet with no filter (or the filter ["Fastify"]) it is
    not passed over: the table's lookup answers with the prototype object,
    the call of it throws, and dispatch ends in a TypeError. *)
Theorem applyCommands_proto_name_throws :
  forall (payload : JsVal) (response : FastifyReply),
    "__proto__" <> "set-header" /\ "__proto__" <> "create-cookie"
    /\ applyCommandsToResponse
         (OneCommand {| command_name := "__proto__";
                        command_adapters := JUndefined;
                        command_payload := payload |}) response
       = (response, Abrupt (TypeError "Commands[commands.name] is not a function"))
    /\ applyCommandsToResponse
         (OneCommand {| command_name := "__proto__";
                        command_adapters := JStr "Fastify";
                        command_payload := payload |}) response
       = (response, Abrupt (TypeError "Commands[commands.name] is not a function")).
Proof.
  intros. repeat split; try discriminate; reflexivity.
Qed.

(** ** Sending a response *)

(** The value the promise is resolved with is never [null]/[undefined]. *)
Lemma coalesce_object_not_nullish (v : JsVal) :
  is_nullish (coalesce v (JObj [])) = false.
Proof. destruct v; reflexivity. Qed.

Lemma reply_header_snoc (r : FastifyReply) (name : string) (v : JsVal) :
  reply_header name (r ++ [CallHeader name v]) = Some v.
Proof.
  induction r as [|c r IH]; simpl.
  - now rewrite decide_True.
  - now rewrite IH.
Qed.

Lemma reply_header_snoc_status (r : FastifyReply) (name : string) (code : JsVal) :
  reply_header name (r ++ [CallStatus code]) = reply_header name r.
Proof.
  induction r as [|c r IH]; simpl; [reflexivity|]. now rewrite IH.
Qed.

Example SendResponse_null_payload :
  SendResponse
    {| response_payload := JNull;
       response_commands :=
         Some (OneCommand {| command_name := "set-header";
                             command_adapters := JUndefined;
                             command_payload := JObj [("ETag", JStr "abc")] |});
       response_exitCode := JStr "OK";
       response_status := JNum 201 |} []
  = ([CallHeader "ETag" (JStr "abc"); CallHeader "X-Exit-Code" (JStr "OK");
      CallStatus (JNum 201)],
     Normal (JObj [])).
Proof. reflexivity. Qed.

(** C8. A response carrying the command named ["__proto__"] is not sent:
    applying the command throws before the header and the status are set,
    and [resolve] is never called. *)
Theorem SendResponse_proto_command_throws :
  forall (payload exitCode status commandPayload : JsVal) (response : FastifyReply),
    let routeResp :=
      {| response_payload := payload;
         response_commands :=
           Some (OneCommand {| command_name := "__proto__";
                               command_adapters := JUndefined;
                               command_payload := commandPayload |});
         response_exitCode := exitCode;
         response_status := status |} in
    SendResponse routeResp response
    = (response, Abrupt (TypeError "Commands[commands.name] is not a function"))
    /\ reply_header "X-Exit-Code" (SendResponse routeResp response).1
       = reply_header "X-Exit-Code" response
    /\ reply_status (SendResponse routeResp response).1 = reply_status response.
Proof.
  intros. subst routeResp. repeat split; reflexivity.
Qed.

(** ** Normalizing a request *)

Lemma parameters_add (name : string) (value : JsVal) (origin : string)
    (req : RouteRequest) :
  parameters (add name value origin req) =
    <[name := {| parameter_value := value; parameter_origin := origin |}]>
      (parameters req).
Proof.
  unfold parameters, add. cbn [added]. now rewrite fold_left_app.
Qed.

(** The calls [add_all] makes: one for each key, with the value the source
    has for it. *)
Lemma add_all_added (origin : string) (source : JsVal) (req : RouteRequest) :
  added (add_all origin source req) =
    added req
    ++ ((fun name => (name, copied origin source name)) <$> for_in_keys source).
Proof.
  unfold add_all. generalize (for_in_keys source) as keys.
  intros keys. revert req.
  induction keys as [|k keys IH]; intros req; cbn [fold_left fmap list_fmap].
  - now rewrite app_nil_r.
  - rewrite IH. cbn [add added]. now rewrite <- app_assoc.
Qed.

Lemma add_all_lookup (origin : string) (source : JsVal) (req : RouteRequest)
    (name : string) :
  parameters (add_all origin source req) !! name =
    if decide (name ∈ for_in_keys source)
    then Some (copied origin source name)
    else parameters req !! name.
Proof.
  unfold add_all. generalize (for_in_keys source) as keys.
  intros keys. revert req.
  induction keys as [|k keys IH]; intros req; cbn [fold_left].
  - destruct (decide (name ∈ [])) as [Hin|_]; [|reflexivity].
    now apply elem_of_nil in Hin.
  - rewrite IH. destruct (decide (name ∈ keys)) as [Hin|Hnin].
    + destruct (decide (name ∈ k :: keys)) as [_|Hn]; [reflexivity|].
      exfalso. apply Hn. apply elem_of_cons. now right.
    + rewrite parameters_add. destruct (decide (k = name)) as [->|Hne].
      * rewrite lookup_insert_eq.
        destruct (decide (name ∈ name :: keys)) as [_|Hn]; [reflexivity|].
        exfalso. apply Hn. apply elem_of_cons. now left.
      * rewrite lookup_insert_ne by exact Hne.
        destruct (decide (name ∈ k :: keys)) as [Hin|_]; [|reflexivity].
        apply elem_of_cons in Hin as [?|?]; congruence.
Qed.

Lemma TransformRequest_copies (request : FastifyRequest) :
  parameters (TransformRequest request) =
  parameters
    (fold_left (fun req p => add_all p.1 p.2 req) (copied_sources request)
               (new_RouteRequest ADAPTER_NAME (request_url request))).
Proof.
  unfold TransformRequest, copied_sources. cbn [fold_left fst snd].
  assert (Hp : forall o s req req',
             parameters req = parameters req' ->
             parameters (add_all o s req) = parameters (add_all o s req')).
  { intros o s req req' E. apply map_eq. intros k.
    now rewrite !add_all_lookup, E. }
  repeat apply Hp. reflexivity.
Qed.

(** The binding a list of sources, copied in order, leaves for a name. *)
Lemma copy_sources_lookup (sources : list (string * JsVal)) (req : RouteRequest)
    (name : string) :
  parameters (fold_left (fun req p => add_all p.1 p.2 req) sources req) !! name =
    fold_left
      (fun found p =>
         if decide (name ∈ for_in_keys p.2)
         then Some (copied p.1 p.2 name) else found)
      sources (parameters req !! name).
Proof.
  revert req. induction sources as [|[o s] sources IH]; intros req; simpl.
  - reflexivity.
  - now rewrite IH, add_all_lookup.
Qed.

Lemma for_in_keys_coalesce (v : JsVal) :
  for_in_keys (coalesce v (JObj [])) = for_in_keys v.
Proof. destruct v; reflexivity. Qed.

Lemma prop_coalesce (v : JsVal) (name : string) :
  prop (coalesce v (JObj [])) name = prop v name.
Proof. destruct v; reflexivity. Qed.

Example TransformRequest_colliding_request :
  let req := TransformRequest colliding_request in
  (adapter req, url req, identification req)
    = ("Fastify", "/users/7", JStr "127.0.0.1 | undefined")
  /\ added req
     = [ ("id", {| parameter_value := JStr "from-header";
                   parameter_origin := "header" |});
         ("id", {| parameter_value := JStr "7"; parameter_origin := "url" |}) ]
  /\ parameters req !! "id"
     = Some {| parameter_value := JStr "7"; parameter_origin := "url" |}
  /\ parameters req !! "user-agent" = None.
Proof. vm_compute. repeat split. Qed.

(** The binding of a name after [TransformRequest], source by source. *)
Lemma TransformRequest_binding (request : FastifyRequest)
    (name : string) :
  parameters (TransformRequest request) !! name =
    if decide (name ∈ for_in_keys (request_params request))
    then Some (copied "url" (request_params request) name)
    else if decide (name ∈ for_in_keys (request_query request))
    then Some (copied "query" (request_query request) name)
    else if decide (name ∈ for_in_keys (request_body request))
    then Some (copied "body" (request_body request) name)
    else if decide (name ∈ for_in_keys (request_cookies request))
    then Some (copied "cookie" (request_cookies request) name)
    else if decide (name ∈ for_in_keys (JObj (request_headers request)))
    then Some (copied "header" (JObj (request_headers request)) name)
    else None.
Proof.
  rewrite TransformRequest_copies, copy_sources_lookup.
  unfold copied_sources, copied. simpl fold_left. simpl fst. simpl snd.
  rewrite !for_in_keys_coalesce, !prop_coalesce.
  repeat (destruct (decide _); try reflexivity).
Qed.

(** The calls of [add] that [TransformRequest] makes, source by source. *)
Lemma TransformRequest_added (request : FastifyRequest) :
  added (TransformRequest request) =
    copied_sources request ≫=
      (fun p => (fun name => (name, copied p.1 p.2 name)) <$> for_in_keys p.2).
Proof.
  unfold TransformRequest. rewrite !add_all_added.
  unfold copied_sources. cbn [mbind list_bind fst snd added set_identification
                              new_RouteRequest].
  rewrite app_nil_r, <- !app_assoc. reflexivity.
Qed.

Lemma adds_coalesce (origin : string) (v : JsVal) :
  (fun k => (k, copied origin (coalesce v (JObj [])) k))
    <$> for_in_keys (coalesce v (JObj []))
  = (fun k => (k, copied origin v k)) <$> for_in_keys v.
Proof. destruct v; reflexivity. Qed.

(** C6. The sources are copied in the order header, cookie, body, query,
    url, and the last write wins: the normalized mapping binds a name to the
    value (and origin) of the last of these sources that has it, and to
    nothing when none has it. *)
Theorem TransformRequest_last_write_wins :
  forall (request : FastifyRequest) (name : string),
    added (TransformRequest request) =
      ((fun k => (k, copied "header" (JObj (request_headers request)) k))
         <$> for_in_keys (JObj (request_headers request)))
      ++ ((fun k => (k, copied "cookie" (request_cookies request) k))
            <$> for_in_keys (request_cookies request))
      ++ ((fun k => (k, copied "body" (request_body request) k))
            <$> for_in_keys (request_body request))
      ++ ((fun k => (k, copied "query" (request_query request) k))
            <$> for_in_keys (request_query request))
      ++ ((fun k => (k, copied "url" (request_params request) k))
            <$> for_in_keys (request_params request))
    /\ parameters (TransformRequest request) !! name =
         if decide (name ∈ for_in_keys (request_params request))
         then Some (copied "url" (request_params request) name)
         else if decide (name ∈ for_in_keys (request_query request))
         then Some (copied "query" (request_query request) name)
         else if decide (name ∈ for_in_keys (request_body request))
         then Some (copied "body" (request_body request) name)
         else if decide (name ∈ for_in_keys (request_cookies request))
         then Some (copied "cookie" (request_cookies request) name)
         else if decide (name ∈ for_in_keys (JObj (request_headers request)))
         then Some (copied "header" (JObj (request_headers request)) name)
         else None.
Proof.
  intros request name. split; [|apply TransformRequest_binding].
  rewrite TransformRequest_added. unfold copied_sources.
  cbn [mbind list_bind fst snd]. rewrite app_nil_r.
  now rewrite !adds_coalesce.
Qed.

(** The fold of [copy_sources_lookup], once a binding is found, keeps one. *)
Lemma found_is_Some (name : string) (sources : list (string * JsVal))
    (found : option RequestParameter) :
  is_Some found ->
  is_Some (fold_left
             (fun found p =>
                if decide (name ∈ for_in_keys p.2)
                then Some (copied p.1 p.2 name) else found)
             sources found).
Proof.
  revert found. induction sources as [|[o s] sources IH]; intros found H;
    cbn [fold_left]; [exact H|].
  apply IH. destruct (decide _); [eexists; reflexivity | exact H].
Qed.

(** Sources that do not have the name leave the binding as it is. *)
Lemma found_unchanged (name : string) (sources : list (string * JsVal))
    (found : option RequestParameter) :
  (forall p, p ∈ sources -> name ∉ for_in_keys p.2) ->
  fold_left
    (fun found p =>
       if decide (name ∈ for_in_keys p.2)
       then Some (copied p.1 p.2 name) else found)
    sources found = found.
Proof.
  revert found. induction sources as [|[o s] sources IH]; intros found H;
    cbn [fold_left]; [reflexivity|].
  rewrite IH.
  - destruct (decide _) as [Hin|_]; [|reflexivity].
    exfalso. apply (H (o, s)); [apply elem_of_cons; now left | exact Hin].
  - intros p Hp. apply H. apply elem_of_cons. now right.
Qed.

(** C3 (as the code has it). Every key of every source is given to the
    normalized request with the value it has on that source, and is bound in
    the normalized mapping; the mapping holds that value for it when no source
    copied later has the same key. *)
Theorem TransformRequest_keeps_keys :
  forall (request : FastifyRequest) (before after : list (string * JsVal))
         (origin : string) (source : JsVal) (name : string),
    copied_sources request = before ++ (origin, source) :: after ->
    name ∈ for_in_keys source ->
    (name, copied origin source name) ∈ added (TransformRequest request)
    /\ is_Some (get_parameter name (TransformRequest request))
    /\ ((forall p, p ∈ after -> name ∉ for_in_keys p.2) ->
        parameters (TransformRequest request) !! name
        = Some (copied origin source name)
        /\ get_parameter name (TransformRequest request)
          = Some (prop source name)).
Proof.
  intros request before after origin source name Hsplit Hin. split.
  { rewrite TransformRequest_added, Hsplit. apply list_elem_of_bind.
    exists (origin, source). split.
    - apply list_elem_of_fmap. exists name. split; [reflexivity | exact Hin].
    - apply elem_of_app. right. apply list_elem_of_here. }
  unfold get_parameter.
  rewrite TransformRequest_copies, copy_sources_lookup, Hsplit.
  rewrite fold_left_app. cbn [fold_left fst snd].
  rewrite (decide_True _ _ Hin). split.
  - apply fmap_is_Some, found_is_Some. eexists; reflexivity.
  - intros Hlater. rewrite (found_unchanged _ _ _ Hlater).
    split; reflexivity.
Qed.

Lemma TransformRequest_keeps_keys_witness :
  is_Some (get_parameter "id" (TransformRequest colliding_request))
  /\ get_parameter "id" (TransformRequest colliding_request) = Some (JStr "7").
Proof.
  destruct (TransformRequest_keeps_keys colliding_request
              [ ("header", JObj [("id", JStr "from-header")]);
                ("cookie", JUndefined);
                ("body", JObj []);
                ("query", JObj []) ]
              [] "url" (JObj [("id", JStr "7")]) "id" eq_refl)
    as (_ & Hsome & Hvalue).
  - apply list_elem_of_here.
  - split; [exact Hsome|].
    apply Hvalue. intros p Hp. now apply elem_of_nil in Hp.
Defined.

(** C3 does not hold as stated: the header [id] of [colliding_request] is on
    the native request with the value ["from-header"], and the normalized
    request holds ["7"], the url parameter's value, for it. *)
Lemma TransformRequest_header_value_replaced :
  "id" ∈ for_in_keys (JObj (request_headers colliding_request))
  /\ prop (JObj (request_headers colliding_request)) "id" = JStr "from-header"
  /\ get_parameter "id" (TransformRequest colliding_request) = Some (JStr "7")
  /\ get_parameter "id" (TransformRequest colliding_request)
     <> Some (prop (JObj (request_headers colliding_request)) "id").
Proof.
  assert (E : get_parameter "id" (TransformRequest colliding_request)
              = Some (JStr "7")).
  { unfold get_parameter. rewrite TransformRequest_binding.
    reflexivity. }
  split; [apply list_elem_of_here|].
  split; [reflexivity|].
  split; [exact E|].
  rewrite E. discriminate.
Qed.

(** ** Registering routes *)

Lemma same_registry_refl (this : Adapter) : same_registry this this.
Proof. repeat split. Qed.

Lemma same_registry_trans (a b c : Adapter) :
  same_registry a b -> same_registry b c -> same_registry a c.
Proof.
  intros (H1 & H2 & H3 & H4) (K1 & K2 & K3 & K4).
  repeat split; congruence.
Qed.

Lemma addRouteToHttpMethod_frame (method : HTTPMethod) (route : IProxiedRoute)
    (this : Adapter) :
  same_registry this (addRouteToHttpMethod method route this).
Proof. destruct method; repeat split. Qed.

Lemma addRoutes_frame (route : IProxiedRoute) (methods : list HTTPMethod)
    (this : Adapter) :
  same_registry this
    (fold_left (fun this method => addRouteToHttpMethod method route this)
               methods this).
Proof.
  revert this. induction methods as [|m ms IH]; intros this; cbn [fold_left].
  - apply same_registry_refl.
  - eapply same_registry_trans; [apply addRouteToHttpMethod_frame | apply IH].
Qed.

Lemma loadRoute_loaded (this : Adapter) (route : IProxiedRoute) :
  _loadedRoutes (loadRoute this route) =
    if bool_decide (route ∈ _loadedRoutes this)
    then _loadedRoutes this
    else _loadedRoutes this ++ [route].
Proof.
  unfold loadRoute. destruct (bool_decide _); [reflexivity|].
  cbn [_loadedRoutes]. f_equal.
  destruct (addRoutes_frame route
              match route_methods route with
              | SingleMethod m => [m]
              | MethodArray ms => ms
              end
              (describeRoute route
                 match route_methods route with
                 | SingleMethod m => [m]
                 | MethodArray ms => ms
                 end this)) as [H _].
  exact H.
Qed.

Lemma loadRoute_frame (this : Adapter) (route : IProxiedRoute) :
  _booted (loadRoute this route) = _booted this
  /\ containers (loadRoute this route) = containers this
  /\ _apiHandler (loadRoute this route) = _apiHandler this.
Proof.
  unfold loadRoute. destruct (bool_decide _); [repeat split|].
  cbn [_booted containers _apiHandler].
  destruct (addRoutes_frame route
              match route_methods route with
              | SingleMethod m => [m]
              | MethodArray ms => ms
              end
              (describeRoute route
                 match route_methods route with
                 | SingleMethod m => [m]
                 | MethodArray ms => ms
                 end this)) as (_ & H2 & H3 & H4).
  repeat split; assumption.
Qed.

(** A route already loaded is skipped: nothing at all changes. *)
Lemma loadRoute_already_loaded (this : Adapter) (route : IProxiedRoute) :
  route ∈ _loadedRoutes this -> loadRoute this route = this.
Proof.
  intros H. unfold loadRoute. now rewrite bool_decide_eq_true_2.
Qed.

Lemma grows_refl (this : Adapter) : grows this this.
Proof. split; [reflexivity|]. split; tauto. Qed.

Lemma grows_trans (a b c : Adapter) : grows a b -> grows b c -> grows a c.
Proof.
  intros (P1 & N1 & B1) (P2 & N2 & B2).
  split; [now transitivity (_loadedRoutes b)|]. split; tauto.
Qed.

Lemma loadRoute_grows (this : Adapter) (route : IProxiedRoute) :
  grows this (loadRoute this route).
Proof.
  destruct (loadRoute_frame this route) as (Hb & _ & _).
  unfold grows. rewrite loadRoute_loaded, Hb.
  destruct (bool_decide (route ∈ _loadedRoutes this)) eqn:E.
  - split; [reflexivity|]. split; tauto.
  - apply bool_decide_eq_false in E. split; [now apply prefix_app_r|].
    split; [|tauto].
    intros Hnd. apply NoDup_app. split; [exact Hnd|]. split.
    + intros x Hx Hx'. apply list_elem_of_singleton in Hx'. congruence.
    + apply NoDup_singleton.
Qed.

Lemma loadRoutes_grows (routes : list IProxiedRoute) (this : Adapter) :
  grows this (fold_left loadRoute routes this).
Proof.
  revert this. induction routes as [|r rs IH]; intros this; cbn [fold_left].
  - apply grows_refl.
  - eapply grows_trans; [apply loadRoute_grows | apply IH].
Qed.

Lemma loadRoutesFromContainers_grows (cs : list Container) (this : Adapter) :
  grows this (loadRoutesFromContainers cs this).
Proof.
  unfold loadRoutesFromContainers. revert this.
  induction cs as [|c cs IH]; intros this; cbn [fold_left].
  - apply grows_refl.
  - eapply grows_trans; [apply loadRoutes_grows | apply IH].
Qed.

Lemma boot_booted (this : Adapter) : _booted (boot this) = true.
Proof.
  unfold boot. destruct (_booted this) eqn:E; [exact E | reflexivity].
Qed.




(** Loading a list of routes leaves each of them loaded. *)
Lemma loadRoutes_covers (routes : list IProxiedRoute) (this : Adapter)
    (route : IProxiedRoute) :
  route ∈ routes -> route ∈ _loadedRoutes (fold_left loadRoute routes this).
Proof.
  revert this. induction routes as [|r rs IH]; intros this Hin;
    cbn [fold_left].
  - now apply elem_of_nil in Hin.
  - apply elem_of_cons in Hin as [->|Hin]; [|now apply IH].
    destruct (loadRoutes_grows rs (loadRoute this r)) as ([k Hk] & _).
    rewrite Hk. apply elem_of_app. left. rewrite loadRoute_loaded.
    destruct (bool_decide (r ∈ _loadedRoutes this)) eqn:E.
    + now apply bool_decide_eq_true in E.
    + apply elem_of_app. right. apply list_elem_of_here.
Qed.

Lemma loadRoutesFromContainers_covers (cs : list Container) (this : Adapter) :
  all_loaded cs (loadRoutesFromContainers cs this).
Proof.
  unfold loadRoutesFromContainers, all_loaded. revert this.
  induction cs as [|c cs IH]; intros this c' r Hc Hr; cbn [fold_left].
  - now apply elem_of_nil in Hc.
  - apply elem_of_cons in Hc as [->|Hc]; [|now apply (IH _ c')].
    destruct (loadRoutesFromContainers_grows cs
                (fold_left loadRoute (allRoutes c) this)) as ([k Hk] & _).
    unfold loadRoutesFromContainers in Hk. rewrite Hk.
    apply elem_of_app. left. now apply loadRoutes_covers.
Qed.





(** Two containers sharing a route object: it is loaded once, in the order
    met, and a second load adds nothing. *)
Example load_shared_route :
  let users := {| route_ref := 1; route_url := "users";
                  route_methods := MethodArray [get; search] |} in
  let posts := {| route_ref := 2; route_url := "/posts";
                  route_methods := SingleMethod post |} in
  let c1 := {| container_ref := 1; allRoutes := [users; posts] |} in
  let c2 := {| container_ref := 2; allRoutes := [posts; users] |} in
  let this := loadRoutesFromContainers [c1; c2] new_Adapter in
  _loadedRoutes this = [users; posts]
  /\ (options_method <$> routes (fastify this)) = ["GET"; "POST"; "POST"]
  /\ (options_url <$> routes (fastify this)) = ["/users"; "/users"; "/posts"]
  /\ _loadedRoutes (loadRoutesFromContainers [c2; c1] this) = [users; posts].
Proof. vm_compute. repeat split. Qed.


(** What one call of [addRouteToHttpMethod] adds, in the run in which
    Fastify accepts the declaration. *)
Lemma addRouteToHttpMethod_effect (method : HTTPMethod) (route : IProxiedRoute)
    (this : Adapter) :
  let this' := addRouteToHttpMethod method route this in
  routes (fastify this') = routes (fastify this) ++ [declared route method]
  /\ emitted this' = emitted this ++ announced route method
  /\ plugins (fastify this') = plugins (fastify this).
Proof.
  cbn zeta. split; [destruct method; reflexivity|].
  split; [|destruct method; reflexivity].
  unfold announced. rewrite app_assoc. destruct method; reflexivity.
Qed.

(** ** Registration when Fastify may refuse a declaration *)

Ltac solve_prefix :=
  rewrite <- ?app_assoc; eexists; reflexivity.

Section Refusals.

Variable accepts_route : FastifyInstance -> RouteOptions -> bool.

(** A loop all of whose turns return is the loop of the run in which
    Fastify accepts every call. *)
Lemma each_checked_returned {A}
    (body : A -> Adapter -> Adapter * Completion unit)
    (f : Adapter -> A -> Adapter) (l : list A) :
  (forall x this this', body x this = (this', Normal tt) -> this' = f this x) ->
  forall this this',
    each_checked body l this = (this', Normal tt) ->
    this' = fold_left f l this.
Proof.
  intros Hbody. induction l as [|x l IH]; intros this this'; cbn.
  - now intros [= <-].
  - destruct (body x this) as [mid [[]|e]] eqn:E; [|discriminate].
    intros H. rewrite <- (Hbody _ _ _ E). now apply IH.
Qed.

(** A loop keeps what each of its turns keeps, whether it returns or
    throws. *)
Lemma each_checked_keeps {A}
    (body : A -> Adapter -> Adapter * Completion unit)
    (P : Adapter -> Prop) (l : list A) :
  (forall x this, P this -> P (body x this).1) ->
  forall this, P this -> P (each_checked body l this).1.
Proof.
  intros Hbody. induction l as [|x l IH]; intros this H; cbn; [exact H|].
  specialize (Hbody x this H).
  destruct (body x this) as [mid [[]|e]]; cbn in *; [now apply IH | exact Hbody].
Qed.

(** A loop that throws has a turn that throws, after the turns before it
    returned. *)
Lemma each_checked_thrown {A}
    (body : A -> Adapter -> Adapter * Completion unit) (l : list A) :
  forall this this' e,
    each_checked body l this = (this', Abrupt e) ->
    exists l1 x l2 mid,
      l = l1 ++ x :: l2
      /\ each_checked body l1 this = (mid, Normal tt)
      /\ body x mid = (this', Abrupt e).
Proof.
  induction l as [|x l IH]; intros this this' e; cbn; [discriminate|].
  destruct (body x this) as [mid [[]|e']] eqn:E.
  - intros H. destruct (IH _ _ _ H) as (l1 & y & l2 & mid' & -> & H1 & H2).
    exists (x :: l1), y, l2, mid'. cbn. rewrite E. now repeat split.
  - intros [= <- <-]. exists [], x, l, this. now repeat split.
Qed.

Lemma unsupported_cases (method : HTTPMethod) :
  bool_decide (method ∈ [search; all]) =
    match method with search | all => true | _ => false end.
Proof. destruct method; reflexivity. Qed.

(** What [addRouteToHttpMethod] does: the warning first; then, when Fastify
    accepts the declaration, all that the accepted run does; otherwise a
    throw that leaves the warning alone. *)
Lemma addRouteToHttpMethod_checked_run (method : HTTPMethod)
    (route : IProxiedRoute) (this : Adapter) :
  addRouteToHttpMethod_checked accepts_route method route this =
    if accepts_route (fastify this) (declared route method)
    then (addRouteToHttpMethod method route this, Normal tt)
    else (warned method this, Abrupt (Refused "fastify.route")).
Proof.
  unfold addRouteToHttpMethod_checked, fastify_route_checked,
    addRouteToHttpMethod, warned, declared, served_method, served_url.
  rewrite unsupported_cases.
  destruct method; cbn;
    match goal with |- context [accepts_route ?i ?o] =>
      destruct (accepts_route i o) end; reflexivity.
Qed.

Lemma addRouteToHttpMethod_checked_returned (method : HTTPMethod)
    (route : IProxiedRoute) (this this' : Adapter) :
  addRouteToHttpMethod_checked accepts_route method route this
    = (this', Normal tt) ->
  this' = addRouteToHttpMethod method route this.
Proof.
  rewrite addRouteToHttpMethod_checked_run.
  destruct (accepts_route _ _); [|discriminate]. now intros [= <-].
Qed.

Lemma declares_nil (route : IProxiedRoute) (this this' : Adapter) :
  routes (fastify this') = routes (fastify this) ->
  emitted this' = emitted this ->
  plugins (fastify this') = plugins (fastify this) ->
  same_registry this this' ->
  declares route [] this this'.
Proof.
  intros R E P S. unfold declares. cbn. rewrite !app_nil_r.
  split; [exact R|]. split; [exact E|]. split; [exact P | exact S].
Qed.

Lemma declares_cons (route : IProxiedRoute) (method : HTTPMethod)
    (methods : list HTTPMethod) (a b c : Adapter) :
  declares route [method] a b -> declares route methods b c ->
  declares route (method :: methods) a c.
Proof.
  intros (R1 & E1 & P1 & S1) (R2 & E2 & P2 & S2). unfold declares.
  rewrite R2, R1, E2, E1, P2, P1. cbn. rewrite !app_nil_r, <- !app_assoc.
  split; [reflexivity|]. split; [reflexivity|]. split; [reflexivity|].
  eapply same_registry_trans; eassumption.
Qed.

Lemma warned_declares (route : IProxiedRoute) (method : HTTPMethod)
    (this : Adapter) :
  declares route [] this (warned method this).
Proof.
  apply declares_nil; unfold warned; destruct (bool_decide _);
    repeat split.
Qed.

Lemma addRouteToHttpMethod_declares (method : HTTPMethod)
    (route : IProxiedRoute) (this : Adapter) :
  declares route [method] this (addRouteToHttpMethod method route this).
Proof.
  destruct (addRouteToHttpMethod_effect method route this) as (R & E & P).
  unfold declares. cbn. rewrite app_nil_r.
  repeat split; try assumption; apply addRouteToHttpMethod_frame.
Qed.

(** The loop over the methods of a route declares a prefix of them: all of
    them exactly when it returns. *)
Lemma addRoutes_checked_declares (route : IProxiedRoute)
    (methods : list HTTPMethod) (this : Adapter) :
  let run :=
    each_checked
      (fun method => addRouteToHttpMethod_checked accepts_route method route)
      methods this in
  exists declared_methods,
    declared_methods `prefix_of` methods
    /\ declares route declared_methods this run.1
    /\ (returned run.2 = true <-> declared_methods = methods).
Proof.
  cbn zeta. revert this.
  induction methods as [|m ms IH]; intros this; cbn [each_checked].
  - exists []. split; [reflexivity|]. split; [|now split].
    apply declares_nil; repeat split.
  - rewrite addRouteToHttpMethod_checked_run.
    destruct (accepts_route _ _).
    + destruct (IH (addRouteToHttpMethod m route this))
        as (ds & Hpre & Hdecl & Hret).
      exists (m :: ds). split; [now apply prefix_cons|]. split.
      * eapply declares_cons; [apply addRouteToHttpMethod_declares|exact Hdecl].
      * rewrite Hret. split; [now intros ->|now intros [= ->]].
    + exists []. split; [apply prefix_nil|]. split.
      * apply warned_declares.
      * cbn. split; discriminate.
Qed.

Lemma declaration_events_declared (route : IProxiedRoute)
    (method : HTTPMethod) :
  declaration_events (declared route method) = announced route method.
Proof. destruct method; reflexivity. Qed.

Lemma declaration_events_of_methods (route : IProxiedRoute)
    (methods : list HTTPMethod) :
  (declared route <$> methods) ≫= declaration_events
    = methods ≫= announced route.
Proof.
  induction methods as [|m ms IH]; [reflexivity|].
  cbn [fmap list_fmap mbind list_bind].
  now rewrite IH, declaration_events_declared.
Qed.

Lemma loads_only_refl (this : Adapter) : loads_only this this.
Proof. repeat split; reflexivity. Qed.

Lemma loads_only_trans (a b c : Adapter) :
  loads_only a b -> loads_only b c -> loads_only a c.
Proof.
  intros (B1 & C1 & H1 & P1 & R1 & L1) (B2 & C2 & H2 & P2 & R2 & L2).
  unfold loads_only. rewrite B2, C2, H2, P2.
  split; [exact B1|]. split; [exact C1|]. split; [exact H1|].
  split; [exact P1|]. split; etransitivity; eassumption.
Qed.

(** Declaring methods of a route keeps the invariant of the declarations,
    and so does pushing the route once all its methods are declared. *)
Lemma declares_ok (route : IProxiedRoute) (methods : list HTTPMethod)
    (this this' : Adapter) :
  declares route methods this this' ->
  declarations_ok this ->
  declarations_ok this'
  /\ loads_only this this'
  /\ _loadedRoutes this' = _loadedRoutes this
  /\ (forall m, m ∈ methods -> declared route m ∈ routes (fastify this')).
Proof.
  intros (R & E & P & L & B & C & H) (I1 & I2 & I3).
  split; [|split; [|split]].
  - unfold declarations_ok. rewrite R, E, L, bind_app, I1.
    rewrite declaration_events_of_methods. split; [reflexivity|]. split.
    + apply Forall_app. split; [exact I2|]. apply Forall_fmap.
      apply Forall_forall. intros m _. now exists route, m.
    + intros r m Hr Hm. apply elem_of_app. left. now apply I3.
  - unfold loads_only. rewrite B, C, H, P, R, L.
    repeat split; try reflexivity; solve_prefix.
  - exact L.
  - intros m Hm. rewrite R. apply elem_of_app. right.
    apply list_elem_of_fmap. now exists m.
Qed.

Lemma describeRoute_declares (route : IProxiedRoute)
    (methods : list HTTPMethod) (this : Adapter) :
  declares route [] this (describeRoute route methods this).
Proof. apply declares_nil; repeat split. Qed.

(** Loading a route: it is loaded afterwards exactly when the call returns;
    a call that throws pushes nothing. *)
Lemma loadRoute_checked_step (this : Adapter) (route : IProxiedRoute) :
  let run := loadRoute_checked accepts_route this route in
  loads_only this run.1
  /\ (declarations_ok this -> declarations_ok run.1)
  /\ (returned run.2 = true -> route ∈ _loadedRoutes run.1)
  /\ (returned run.2 = false ->
        (route ∉ _loadedRoutes run.1)
        /\ _loadedRoutes run.1 = _loadedRoutes this).
Proof.
  cbn zeta. unfold loadRoute_checked.
  destruct (bool_decide (route ∈ _loadedRoutes this)) eqn:Hin.
  { apply bool_decide_eq_true in Hin. cbn.
    split; [apply loads_only_refl|]. split; [tauto|]. split; [tauto|].
    discriminate. }
  apply bool_decide_eq_false in Hin.
  change (match route_methods route with
          | SingleMethod m => [m]
          | MethodArray ms => ms
          end) with (methods_of route).
  pose proof (describeRoute_declares route (methods_of route) this) as Hd.
  destruct (addRoutes_checked_declares route (methods_of route)
              (describeRoute route (methods_of route) this))
    as (ds & Hpre & Hdecl & Hret).
  destruct (each_checked _ (methods_of route) _) as [mid [[]|e]];
    cbn [fst snd returned] in *.
  - assert (ds = methods_of route) as -> by now apply Hret.
    split.
    { destruct Hd as (R0 & _ & P0 & L0 & B0 & C0 & H0).
      destruct Hdecl as (R & _ & P & L & B & C & H).
      unfold loads_only.
      cbn [_booted containers _apiHandler fastify _loadedRoutes].
      rewrite B, B0, C, C0, H, H0, P, P0, R, R0, L, L0.
      repeat split; try reflexivity; solve_prefix. }
    split.
    { intros I.
      destruct (declares_ok _ _ _ _ Hd I) as (I' & _ & L0 & _).
      destruct (declares_ok _ _ _ _ Hdecl I') as ((J1 & J2 & J3) & _ & L & K).
      unfold declarations_ok.
      cbn [_booted containers _apiHandler fastify _loadedRoutes emitted].
      split; [exact J1|]. split; [exact J2|].
      intros r m Hr Hm. apply elem_of_app in Hr as [Hr|Hr].
      - now apply J3.
      - apply list_elem_of_singleton in Hr as ->. now apply K. }
    split; [|discriminate].
    intros _. cbn [_loadedRoutes]. apply elem_of_app. right.
    apply list_elem_of_here.
  - assert (Hstep : declares route ds this mid).
    { destruct Hd as (R0 & E0 & P0 & L0 & B0 & C0 & H0).
      destruct Hdecl as (R & E & P & L & B & C & H).
      unfold declares, same_registry.
      rewrite R, R0, E, E0, P, P0, L, L0, B, B0, C, C0, H, H0.
      cbn. rewrite !app_nil_r. repeat split; reflexivity. }
    split.
    { destruct Hstep as (R & _ & P & L & B & C & H). unfold loads_only.
      rewrite B, C, H, P, R, L.
      repeat split; try reflexivity; solve_prefix. }
    split.
    { intros I. now destruct (declares_ok _ _ _ _ Hstep I). }
    split; [discriminate|].
    intros _. destruct Hstep as (_ & _ & _ & L & _). rewrite L. now split.
Qed.

Lemma loadRoute_checked_returned (this this' : Adapter)
    (route : IProxiedRoute) :
  loadRoute_checked accepts_route this route = (this', Normal tt) ->
  this' = loadRoute this route.
Proof.
  unfold loadRoute_checked, loadRoute.
  destruct (bool_decide (route ∈ _loadedRoutes this)); [now intros [= <-]|].
  destruct (each_checked _ _ _) as [mid [[]|e]] eqn:E; [|discriminate].
  apply (each_checked_returned _
           (fun this method => addRouteToHttpMethod method route this)) in E.
  - intros [= <-]. now rewrite E.
  - intros m a b. apply addRouteToHttpMethod_checked_returned.
Qed.

Lemma loadRoutes_checked_returned (routes : list IProxiedRoute)
    (this this' : Adapter) :
  each_checked (fun route this => loadRoute_checked accepts_route this route)
               routes this = (this', Normal tt) ->
  this' = fold_left loadRoute routes this.
Proof.
  apply each_checked_returned. intros r a b. apply loadRoute_checked_returned.
Qed.

(** A load that returns has done what the load of the accepting run does. *)
Lemma loadRoutesFromContainers_checked_returned (cs : list Container)
    (this this' : Adapter) :
  loadRoutesFromContainers_checked accepts_route cs this = (this', Normal tt) ->
  this' = loadRoutesFromContainers cs this.
Proof.
  unfold loadRoutesFromContainers_checked, loadRoutesFromContainers.
  apply (each_checked_returned _
           (fun this container => fold_left loadRoute (allRoutes container) this)).
  intros c a b. apply loadRoutes_checked_returned.
Qed.

(** Whether it returns or throws, a load keeps the flag, the containers,
    the handler and the plugins, and the invariant of the declarations. *)
Lemma loadRoutesFromContainers_checked_keeps (cs : list Container)
    (this : Adapter) :
  let run := loadRoutesFromContainers_checked accepts_route cs this in
  loads_only this run.1
  /\ (declarations_ok this -> declarations_ok run.1).
Proof.
  cbn zeta. unfold loadRoutesFromContainers_checked.
  apply (each_checked_keeps _
           (fun s => loads_only this s
                     /\ (declarations_ok this -> declarations_ok s)));
    [|split; [apply loads_only_refl | tauto]].
  intros c a Ha.
  apply (each_checked_keeps _
           (fun s => loads_only this s
                     /\ (declarations_ok this -> declarations_ok s)));
    [|exact Ha].
  intros r b (Hb & Ib).
  destruct (loadRoute_checked_step b r) as (H1 & H2 & _).
  split; [eapply loads_only_trans; eassumption | tauto].
Qed.

(** The only throw of loading a route is that of [fastify.route]. *)
Lemma loadRoute_checked_thrown (this this' : Adapter) (route : IProxiedRoute)
    (e : JsError) :
  loadRoute_checked accepts_route this route = (this', Abrupt e) ->
  e = Refused "fastify.route".
Proof.
  unfold loadRoute_checked. destruct (bool_decide _); [discriminate|].
  destruct (each_checked _ _ _) as [mid [[]|e']] eqn:E; [discriminate|].
  intros [= _ <-].
  apply each_checked_thrown in E as (ms1 & m & ms2 & mid' & _ & _ & E).
  rewrite addRouteToHttpMethod_checked_run in E.
  destruct (accepts_route _ _); [discriminate|]. now injection E as _ <-.
Qed.

(** A load that throws leaves a route of one of the containers not
    loaded: the one whose declaration was refused. *)
Lemma loadRoutesFromContainers_checked_thrown (cs : list Container)
    (this this' : Adapter) (e : JsError) :
  loadRoutesFromContainers_checked accepts_route cs this = (this', Abrupt e) ->
  e = Refused "fastify.route"
  /\ exists c r, c ∈ cs /\ r ∈ allRoutes c /\ r ∉ _loadedRoutes this'.
Proof.
  unfold loadRoutesFromContainers_checked. intros H.
  apply each_checked_thrown in H as (cs1 & c & cs2 & mid & -> & _ & H).
  apply each_checked_thrown in H as (rs1 & r & rs2 & mid' & Hrs & _ & H).
  split; [now apply loadRoute_checked_thrown in H|].
  exists c, r. split; [apply elem_of_app; right; apply list_elem_of_here|].
  split; [rewrite Hrs; apply elem_of_app; right; apply list_elem_of_here|].
  destruct (loadRoute_checked_step mid' r) as (_ & _ & _ & Hthrown).
  rewrite H in Hthrown. now apply Hthrown.
Qed.

(** ** [boot] when Fastify may refuse a declaration *)

Lemma boot_checked_when_booted (this : Adapter) :
  _booted this = true -> boot_checked accepts_route this = (this, Normal tt).
Proof. intros H. unfold boot_checked. now rewrite H. Qed.

(** A [boot] that returns has done what the [boot] of the accepting run
    does. *)
Lemma boot_checked_returned (this this' : Adapter) :
  boot_checked accepts_route this = (this', Normal tt) -> this' = boot this.
Proof.
  unfold boot_checked, boot. destruct (_booted this); [now intros [= <-]|].
  destruct (loadRoutesFromContainers_checked _ _ _) as [mid [[]|e]] eqn:E;
    [|discriminate].
  apply loadRoutesFromContainers_checked_returned in E.
  intros [= <-]. now rewrite E.
Qed.

(** A [boot] of an adapter that is not booted: the three plugins are
    registered, whether it returns or throws, and the flag is set exactly
    when it returns. *)
Lemma boot_checked_step (this : Adapter) :
  _booted this = false ->
  let run := boot_checked accepts_route this in
  plugins (fastify run.1)
    = plugins (fastify this)
      ++ [fastifyCookie ""; fastifyHelmet; fastifyMultipart]
  /\ _booted run.1 = returned run.2
  /\ containers run.1 = containers this
  /\ _apiHandler run.1 = _apiHandler this
  /\ routes (fastify this) `prefix_of` routes (fastify run.1)
  /\ _loadedRoutes this `prefix_of` _loadedRoutes run.1
  /\ (declarations_ok this -> declarations_ok run.1).
Proof.
  intros B. cbn zeta. unfold boot_checked. rewrite B.
  set (prepared := console_write _ (fastify_register fastifyMultipart _)).
  destruct (loadRoutesFromContainers_checked_keeps (containers prepared)
              prepared) as ((B' & C' & H' & P' & R' & L') & I').
  assert (Hplugins : plugins (fastify prepared)
                     = plugins (fastify this)
                       ++ [fastifyCookie ""; fastifyHelmet; fastifyMultipart]).
  { subst prepared.
    cbn [console_write fastify_register with_fastify fastify plugins].
    now rewrite <- !app_assoc. }
  destruct (loadRoutesFromContainers_checked _ _ _) as [mid [[]|e]];
    cbn [fst snd returned console_write fastify _booted containers
         _apiHandler _loadedRoutes emitted] in *.
  - rewrite P', Hplugins, C', H'.
    split; [reflexivity|]. split; [reflexivity|]. split; [reflexivity|].
    split; [reflexivity|]. split; [exact R'|]. split; [exact L'|].
    intros I. now apply I'.
  - rewrite P', Hplugins, C', H', B'.
    split; [reflexivity|]. split; [exact B|]. split; [reflexivity|].
    split; [reflexivity|]. split; [exact R'|]. split; [exact L'|].
    intros I. now apply I'.
Qed.

(** ** Any registration call *)

(** A call that returns has done what the call of the accepting run
    does. *)
Lemma perform_checked_returned (this this' : Adapter) (op : Operation) :
  perform_checked accepts_route this op = (this', Normal tt) ->
  this' = perform this op.
Proof.
  destruct op as [c|cs| |h]; cbn [perform_checked perform].
  - now intros [= <-].
  - apply loadRoutesFromContainers_checked_returned.
  - apply boot_checked_returned.
  - now intros [= <-].
Qed.

Lemma perform_each_returned (ops : list Operation) (this : Adapter) :
  forallb returned (perform_each accepts_route ops this).2 = true ->
  (perform_each accepts_route ops this).1 = perform_all ops this.
Proof.
  unfold perform_all. revert this.
  induction ops as [|op ops IH]; intros this; cbn [perform_each fold_left];
    [reflexivity|].
  destruct (perform_checked accepts_route this op) as [mid done] eqn:E.
  specialize (IH mid).
  destruct (perform_each accepts_route ops mid) as [final rest].
  cbn [fst snd forallb] in *. intros H. apply andb_prop in H as (Hd & Hr).
  destruct done as [[]|e]; [|discriminate].
  apply perform_checked_returned in E. rewrite <- E. now apply IH.
Qed.

(** What a registration call keeps, whether it returns or throws. *)
Lemma perform_checked_step (this : Adapter) (op : Operation) :
  let run := perform_checked accepts_route this op in
  (declarations_ok this -> declarations_ok run.1)
  /\ (_booted this = true -> _booted run.1 = true)
  /\ routes (fastify this) `prefix_of` routes (fastify run.1)
  /\ _loadedRoutes this `prefix_of` _loadedRoutes run.1
  /\ plugins (fastify run.1)
     = plugins (fastify this)
       ++ match op with
          | OpBoot =>
              if _booted this then []
              else [fastifyCookie ""; fastifyHelmet; fastifyMultipart]
          | _ => []
          end
  /\ _booted run.1
     = match op with
       | OpBoot => _booted this || returned run.2
       | _ => _booted this
       end.
Proof.
  cbn zeta. destruct op as [c|cs| |h]; cbn [perform_checked].
  - unfold addContainer. destruct (bool_decide _);
      cbn; rewrite app_nil_r; (split; [tauto|]); (split; [tauto|]);
      repeat split; reflexivity.
  - destruct (loadRoutesFromContainers_checked_keeps cs this)
      as ((B & C & H & P & R & L) & I).
    rewrite P, B, app_nil_r. split; [exact I|]. split; [tauto|].
    split; [exact R|]. split; [exact L|]. split; reflexivity.
  - destruct (_booted this) eqn:B.
    + rewrite boot_checked_when_booted by exact B. cbn.
      rewrite app_nil_r, B. split; [tauto|]. split; [tauto|].
      repeat split; reflexivity.
    + destruct (boot_checked_step this B) as (P & F & _ & _ & R & L & I).
      rewrite P, F. split; [exact I|]. split; [discriminate|].
      split; [exact R|]. split; [exact L|]. split; reflexivity.
  - cbn. rewrite app_nil_r. split; [tauto|]. split; [tauto|].
    repeat split; reflexivity.
Qed.

(** The only throw of a registration call is that of [fastify.route]. *)
Lemma perform_checked_thrown (this this' : Adapter) (op : Operation)
    (e : JsError) :
  perform_checked accepts_route this op = (this', Abrupt e) ->
  e = Refused "fastify.route".
Proof.
  destruct op as [c|cs| |h]; cbn [perform_checked]; try discriminate.
  - intros H. now apply loadRoutesFromContainers_checked_thrown in H.
  - unfold boot_checked. destruct (_booted this); [discriminate|].
    destruct (loadRoutesFromContainers_checked _ _ _) as [mid [[]|e']] eqn:E;
      [discriminate|].
    intros [= _ <-]. now apply loadRoutesFromContainers_checked_thrown in E.
Qed.

Lemma perform_each_keeps (P : Adapter -> Prop) (ops : list Operation) :
  (forall this op, P this -> P (perform_checked accepts_route this op).1) ->
  forall this, P this -> P (perform_each accepts_route ops this).1.
Proof.
  intros Hstep. induction ops as [|op ops IH]; intros this H;
    cbn [perform_each]; [exact H|].
  specialize (Hstep this op H).
  destruct (perform_checked accepts_route this op) as [mid done].
  specialize (IH mid Hstep).
  now destruct (perform_each accepts_route ops mid) as [final rest].
Qed.

Lemma perform_each_ok (ops : list Operation) (this : Adapter) :
  declarations_ok this ->
  declarations_ok (perform_each accepts_route ops this).1.
Proof.
  apply perform_each_keeps. intros a op. apply perform_checked_step.
Qed.

Lemma perform_each_booted (ops : list Operation) (this : Adapter) :
  _booted this = true ->
  _booted (perform_each accepts_route ops this).1 = true.
Proof.
  apply (perform_each_keeps (fun s => _booted s = true)).
  intros a op. apply perform_checked_step.
Qed.

Lemma plugins_of_boots_S (n : nat) :
  plugins_of_boots (S n)
    = plugins_of_boots n
      ++ [fastifyCookie ""; fastifyHelmet; fastifyMultipart].
Proof.
  unfold plugins_of_boots.
  set (x := [fastifyCookie ""; fastifyHelmet; fastifyMultipart]).
  change (mjoin (replicate (S n) x)) with (x ++ mjoin (replicate n x)).
  induction n as [|n IH]; [reflexivity|].
  change (mjoin (replicate (S n) x)) with (x ++ mjoin (replicate n x)).
  now rewrite <- app_assoc, <- IH.
Qed.

(** The plugins after a sequence of calls: three for each [boot] that threw
    and three for the one that returned, if any. *)
Lemma perform_each_plugins (ops : list Operation) :
  forall (this : Adapter) (n : nat),
    plugins (fastify this)
      = plugins_of_boots (n + if _booted this then 1 else 0) ->
    let run := perform_each accepts_route ops this in
    plugins (fastify run.1)
      = plugins_of_boots
          (n + boots_thrown ops run.2 + if _booted run.1 then 1 else 0).
Proof.
  cbn zeta. induction ops as [|op ops IH]; intros this n H;
    cbn [perform_each].
  { cbn. now rewrite Nat.add_0_r. }
  destruct (perform_checked_step this op) as (_ & _ & _ & _ & P & B).
  destruct (perform_checked accepts_route this op) as [mid done] eqn:E.
  cbn [fst snd] in P, B.
  assert (Hmid : exists k,
             plugins (fastify mid)
               = plugins_of_boots (k + if _booted mid then 1 else 0)
             /\ forall rest,
                  k + boots_thrown ops rest
                  = n + boots_thrown (op :: ops) (done :: rest)).
  { destruct op as [c|cs| |h];
      try (exists n; rewrite P, B, app_nil_r; split; [exact H|];
           intros rest; now destruct done).
    destruct (_booted this) eqn:Hb.
    - exists n. rewrite P, B, app_nil_r. split; [exact H|].
      intros rest. cbn [perform_checked] in E.
      rewrite boot_checked_when_booted in E by exact Hb.
      now injection E as _ <-.
    - rewrite Nat.add_0_r in H. rewrite P, B, H, <- plugins_of_boots_S.
      destruct done as [[]|e]; cbn [orb returned].
      + exists n. split; [f_equal; lia | reflexivity].
      + exists (S n). split; [f_equal; lia|]. intros rest. cbn. lia. }
  destruct Hmid as (k & Hk & Hcount).
  specialize (IH mid k Hk).
  destruct (perform_each accepts_route ops mid) as [final rest].
  cbn [fst snd] in *. now rewrite IH, Hcount.
Qed.

End Refusals.

(** On an instance that accepts every declaration, [boot_checked] is
    [boot]. *)
Lemma boot_when_every_route_accepted (this : Adapter) :
  boot_checked route_any this = (boot this, Normal tt).
Proof.
  assert (Hroute : forall m r a,
            addRouteToHttpMethod_checked route_any m r a
            = (addRouteToHttpMethod m r a, Normal tt)).
  { intros m r a. now rewrite addRouteToHttpMethod_checked_run. }
  assert (Hloop : forall A (body : A -> Adapter -> Adapter * Completion unit)
                         (f : Adapter -> A -> Adapter),
            (forall x a, body x a = (f a x, Normal tt)) ->
            forall l a, each_checked body l a = (fold_left f l a, Normal tt)).
  { intros A body f Hbody l. induction l as [|x l IH]; intros a; cbn;
      [reflexivity|]. now rewrite Hbody, IH. }
  assert (Hload : forall a r,
            loadRoute_checked route_any a r = (loadRoute a r, Normal tt)).
  { intros a r. unfold loadRoute_checked, loadRoute.
    destruct (bool_decide _); [reflexivity|].
    now rewrite (Hloop _ _ (fun this method =>
                              addRouteToHttpMethod method r this))
      by (intros; apply Hroute). }
  unfold boot_checked, boot. destruct (_booted this); [reflexivity|].
  unfold loadRoutesFromContainers_checked, loadRoutesFromContainers.
  now rewrite (Hloop _ _ (fun this container =>
                            fold_left loadRoute (allRoutes container) this))
    by (intros; apply Hloop; intros; apply Hload).
Qed.

(** A first [boot] that throws, on Fastify's refusal of [CONNECT]: the
    plugins are registered, the route before the refused one is loaded, the
    flag is not set; a second [boot] registers the plugins again and declares
    [PUT /b] again. *)
Lemma boot_refused_registers_again :
  let this := addContainer refused_container new_Adapter in
  let first := boot_checked route_supported this in
  let second := boot_checked route_supported first.1 in
  first.2 = Abrupt (Refused "fastify.route")
  /\ _booted first.1 = false
  /\ plugins (fastify first.1)
     = [fastifyCookie ""; fastifyHelmet; fastifyMultipart]
  /\ (options_method <$> routes (fastify first.1)) = ["GET"; "PUT"]
  /\ (route_url <$> _loadedRoutes first.1) = ["a"]
  /\ second <> (first.1, Normal tt)
  /\ plugins (fastify second.1)
     = [fastifyCookie ""; fastifyHelmet; fastifyMultipart;
        fastifyCookie ""; fastifyHelmet; fastifyMultipart]
  /\ (options_method <$> routes (fastify second.1)) = ["GET"; "PUT"; "PUT"].
Proof.
  vm_compute.
  split; [reflexivity|]. split; [reflexivity|]. split; [reflexivity|].
  split; [reflexivity|]. split; [reflexivity|]. split; [discriminate|].
  split; reflexivity.
Qed.

(** C9. A [boot] that returns leaves the adapter booted, and every later
    [boot], whatever registration calls come in between and whether they
    return or throw, returns at once and gives the adapter back as it was:
    no plugin is registered again and no route is loaded again.  A [boot]
    that throws, Fastify refusing a declaration, leaves the adapter not
    booted with the three plugins registered, and the next [boot] registers
    them again. *)
Theorem boot_idempotent_once_returned :
  forall (accepts_route accepts_later :
            FastifyInstance -> RouteOptions -> bool)
         (this : Adapter) (ops : list Operation),
    let first := boot_checked accepts_route this in
    let later := (perform_each accepts_later ops first.1).1 in
    if returned first.2
    then _booted first.1 = true
         /\ boot_checked accepts_later first.1 = (first.1, Normal tt)
         /\ boot_checked accepts_later later = (later, Normal tt)
    else _booted first.1 = false
         /\ plugins (fastify first.1)
            = plugins (fastify this)
              ++ [fastifyCookie ""; fastifyHelmet; fastifyMultipart]
         /\ plugins (fastify (boot_checked accepts_later first.1).1)
            = plugins (fastify this)
              ++ [fastifyCookie ""; fastifyHelmet; fastifyMultipart;
                  fastifyCookie ""; fastifyHelmet; fastifyMultipart].
Proof.
  intros accepts_route accepts_later this ops first later.
  destruct (_booted this) eqn:B.
  - subst later first.
    rewrite (boot_checked_when_booted accepts_route this B).
    cbn [fst snd returned]. split; [exact B|].
    split; [now apply boot_checked_when_booted|].
    now apply boot_checked_when_booted, perform_each_booted.
  - destruct (boot_checked_step accepts_route this B) as (P & F & _).
    fold first in P, F. destruct (returned first.2) eqn:R.
    + split; [exact F|].
      split; [now apply boot_checked_when_booted|].
      now apply boot_checked_when_booted, perform_each_booted.
    + split; [exact F|]. split; [exact P|].
      destruct (boot_checked_step accepts_later first.1 F) as (P' & _).
      rewrite P', P. now rewrite <- app_assoc.
Qed.

(** The first boot does register the plugins and load the routes. *)
Example boot_checked_registers_once :
  let route := {| route_ref := 1; route_url := "users";
                  route_methods := SingleMethod get |} in
  let this :=
    addContainer {| container_ref := 1; allRoutes := [route] |} new_Adapter in
  let first := boot_checked route_supported this in
  first.2 = Normal tt
  /\ plugins (fastify first.1)
     = [fastifyCookie ""; fastifyHelmet; fastifyMultipart]
  /\ _loadedRoutes first.1 = [route]
  /\ boot_checked route_supported first.1 = first.
Proof. vm_compute. repeat split. Qed.

(** C10. [addRouteToHttpMethod] passes Fastify a declaration under [POST]
    for a route registered with [search] or [all], after writing a warning,
    and under the method itself, in upper case and with no warning, for
    every other method.  When Fastify accepts the declaration the call
    returns and the route is bound under that method, its handler running
    with [post] in the first case and with the method itself in the second;
    when Fastify refuses it, the call throws and the route is not bound.
    Of the declarations passed, those for [connect] and [trace] alone are
    under a method Fastify does not support. *)
Theorem addRouteToHttpMethod_binds_served_method :
  forall (accepts_route : FastifyInstance -> RouteOptions -> bool)
         (method : HTTPMethod) (route : IProxiedRoute) (this : Adapter),
    let run := addRouteToHttpMethod_checked accepts_route method route this in
    let url :=
      if bool_decide (charAt0 (trim (route_url route)) ≠ "/")
      then ("/" ++ trim (route_url route))%string
      else trim (route_url route) in
    let options :=
      {| options_method :=
           match method with
           | search | all | post => "POST"
           | get => "GET" | put => "PUT" | patch => "PATCH"
           | delete => "DELETE" | head => "HEAD"
           | options => "OPTIONS" | connect => "CONNECT"
           | trace => "TRACE"
           end;
         options_url := url;
         handler_route := route;
         handler_method :=
           match method with search | all => post | m => m end |} in
    console run.1 =
      console this
      ++ match method with
         | search | all =>
             [ConsoleWarn
                ("Fastify adapter does not support " ++ double_quote
                 ++ toLocaleUpperCase (method_string method) ++ double_quote
                 ++ " HTTP verb, serving route as POST instead")]
         | _ => []
         end
    /\ (if accepts_route (fastify this) options
        then run.2 = Normal tt
             /\ routes (fastify run.1) = routes (fastify this) ++ [options]
        else run.2 = Abrupt (Refused "fastify.route")
             /\ routes (fastify run.1) = routes (fastify this)
             /\ emitted run.1 = emitted this)
    /\ route_supported (fastify this) options
       = match method with connect | trace => false | _ => true end.
Proof.
  intros accepts_route method route this run url options.
  subst run url options.
  rewrite addRouteToHttpMethod_checked_run.
  replace (declared route method) with
    {| options_method :=
         match method with
         | search | all | post => "POST"
         | get => "GET" | put => "PUT" | patch => "PATCH"
         | delete => "DELETE" | head => "HEAD"
         | options => "OPTIONS" | connect => "CONNECT"
         | trace => "TRACE"
         end;
       options_url :=
         if bool_decide (charAt0 (trim (route_url route)) ≠ "/")
         then ("/" ++ trim (route_url route))%string
         else trim (route_url route);
       handler_route := route;
       handler_method :=
         match method with search | all => post | m => m end |}
    by (destruct method; reflexivity).
  split; [|split; [|destruct method; reflexivity]].
  - destruct (accepts_route _ _); cbn [fst snd].
    + destruct method; cbn; now rewrite ?app_nil_r.
    + unfold warned. rewrite unsupported_cases.
      destruct method; cbn; now rewrite ?app_nil_r.
  - destruct (accepts_route _ _); cbn [fst snd].
    + split; [reflexivity|]. destruct method; reflexivity.
    + unfold warned. rewrite unsupported_cases.
      split; [reflexivity|]. destruct method; split; reflexivity.
Qed.

(** A route registered with [search] is bound under [POST]; one registered
    with [connect] is not bound, Fastify refusing the method. *)
Example addRouteToHttpMethod_checked_search :
  let route := {| route_ref := 1; route_url := " users ";
                  route_methods := SingleMethod search |} in
  let run := addRouteToHttpMethod_checked route_supported search route
               new_Adapter in
  run.2 = Normal tt
  /\ routes (fastify run.1)
     = [ {| options_method := "POST"; options_url := "/users";
            handler_route := route; handler_method := post |} ]
  /\ emitted run.1
     = [ (POST_REQUEST, ArgsRoute route); (REQUEST, ArgsRouteMethod route post) ]
  /\ length (console run.1) = 1.
Proof. vm_compute. repeat split. Qed.

Example addRouteToHttpMethod_checked_connect :
  let route := {| route_ref := 1; route_url := "tunnel";
                  route_methods := SingleMethod connect |} in
  let run := addRouteToHttpMethod_checked route_supported connect route
               new_Adapter in
  run.2 = Abrupt (Refused "fastify.route")
  /\ routes (fastify run.1) = []
  /\ emitted run.1 = [].
Proof. vm_compute. repeat split. Qed.

(** ** Handling a request *)

(** C5. With no api request handler set, the error is reported through
    [ErrorHandler] and [REQUEST_ERROR] is emitted, but the run does not stop
    there: the request is still normalized, and the call of the missing
    handler throws inside the promise's executor. *)
Theorem requestHandler_without_handler_goes_on :
  forall (flow_exitCode flow_httpStatus : JsVal) (flow_isApiError : bool)
         (this : Adapter) (route : IProxiedRoute) (method : HTTPMethod)
         (request : FastifyRequest) (matchedPattern : string)
         (response : FastifyReply),
    _apiHandler this = None ->
    let error :=
      RequestFlowNotDefined flow_exitCode flow_httpStatus flow_isApiError
        "Fastify adapter does not have an associated api request handler" in
    let run :=
      _requestHandler flow_exitCode flow_httpStatus flow_isApiError
        this route method request matchedPattern response in
    run_reply run = (ErrorHandler response error).1
    /\ run_settled run = [(ErrorHandler response error).2]
    /\ run_emitted run = [(REQUEST_ERROR, ArgsError error route request)]
    /\ run_apiRequest run = Some (set_method method (TransformRequest request))
    /\ run_uncaught run
       = Some (TypeError "this._apiHandler is not a function").
Proof.
  intros fe fs fa this route method request pattern response H error run.
  subst run error. unfold _requestHandler. rewrite H.
  destruct (ErrorHandler response _) as [r st]. repeat split.
Qed.

Lemma requestHandler_without_handler_goes_on_witness :
  let run :=
    _requestHandler JUndefined (JNum 501) true new_Adapter
      {| route_ref := 1; route_url := "users"; route_methods := SingleMethod get |}
      get colliding_request "/users" [] in
  run_reply run = [CallStatus (JNum 501)]
  /\ run_apiRequest run = Some (set_method get (TransformRequest colliding_request))
  /\ run_uncaught run = Some (TypeError "this._apiHandler is not a function").
Proof.
  destruct (requestHandler_without_handler_goes_on JUndefined (JNum 501) true
              new_Adapter
              {| route_ref := 1; route_url := "users";
                 route_methods := SingleMethod get |}
              get colliding_request "/users" [] eq_refl)
    as (Hreply & _ & _ & Hrequest & Huncaught).
  split; [exact Hreply|]. split; [exact Hrequest | exact Huncaught].
Defined.

(** With a handler set that answers, the response is sent and nothing is
    left uncaught. *)
Example requestHandler_with_handler :
  let handler : ApiHandler :=
    fun _ _ =>
      CallsSuccess {| response_payload := JNull; response_commands := None;
                      response_exitCode := JStr "OK";
                      response_status := JNum 200 |} in
  let run :=
    _requestHandler JUndefined (JNum 501) true
      (setRequestHandler handler new_Adapter)
      {| route_ref := 1; route_url := "users"; route_methods := SingleMethod get |}
      get colliding_request "/users" [] in
  run_reply run = [CallHeader "X-Exit-Code" (JStr "OK"); CallStatus (JNum 200)]
  /\ run_settled run = [Resolve (JObj [])]
  /\ run_uncaught run = None.
Proof. vm_compute. repeat split. Qed.


(** * Further properties of the code *)

(** ** Commands *)

Lemma CommandArg_nested_ind (P : CommandArg -> Prop) :
  (forall command, P (OneCommand command)) ->
  (forall l, Forall P l -> P (CommandArray l)) ->
  forall commands, P commands.
Proof.
  intros Hone Harr. fix IH 1. intros [command|l]; [apply Hone|].
  apply Harr. induction l as [|c l IHl]; constructor; [apply IH | exact IHl].
Qed.

Lemma for_each_calls {A} (body : A -> Eff unit) (f : A -> ReplyCall)
    (l : list A) (r : FastifyReply) :
  (forall x r, body x r = (r ++ [f x], Normal tt)) ->
  for_each body l r = (r ++ (f <$> l), Normal tt).
Proof.
  intros H. revert r. induction l as [|x l IH]; intros r; cbn [for_each].
  - unfold ret. now rewrite app_nil_r.
  - unfold bind. rewrite H, IH. cbn [fmap list_fmap].
    now rewrite <- app_assoc.
Qed.

Lemma set_header_run (headers : JsVal) (r : FastifyReply) :
  Commands.set_header headers r =
    (r ++ ((fun k => CallHeader k (prop headers k)) <$> for_in_keys headers),
     Normal tt).
Proof. unfold Commands.set_header. now apply for_each_calls. Qed.

(** X1. ['set-header'] never throws: whatever the payload, it makes one
    [header] call for each own key of the payload, in the order of the keys,
    with the payload's value for it; a payload that is [null], [undefined], a
    number or a boolean gives no call. *)
Theorem set_header_one_call_per_key :
  forall (headers : JsVal) (r : FastifyReply),
    Commands.set_header headers r =
      (r ++ ((fun k => CallHeader k (prop headers k)) <$> for_in_keys headers),
       Normal tt)
    /\ (for_in_keys headers = [] ->
        Commands.set_header headers r = (r, Normal tt))
    /\ for_in_keys JUndefined = [] /\ for_in_keys JNull = []
    /\ (forall n, for_in_keys (JNum n) = [])
    /\ (forall b, for_in_keys (JBool b) = []).
Proof.
  intros headers r. split; [apply set_header_run|]. split.
  - intros H. rewrite set_header_run, H. cbn. now rewrite app_nil_r.
  - repeat split.
Qed.

Lemma create_cookie_run (cookies : JsVal) (keys : list string)
    (r : FastifyReply) :
  for_each
    (fun cookieName =>
       let* value := lift (member (prop cookies cookieName) "value") in
       call (CallSetCookie cookieName value (prop cookies cookieName)))
    keys r =
  (r ++ ((fun k => CallSetCookie k (prop (prop cookies k) "value")
                     (prop cookies k))
           <$> leading (fun k => negb (is_nullish (prop cookies k))) keys),
   if forallb (fun k => negb (is_nullish (prop cookies k))) keys
   then Normal tt
   else Abrupt (TypeError "Cannot read property 'value' of null or undefined")).
Proof.
  revert r. induction keys as [|k keys IH]; intros r;
    cbn [for_each leading forallb].
  - unfold ret. cbn. now rewrite app_nil_r.
  - unfold bind at 1. unfold bind at 1. unfold lift, member.
    destruct (is_nullish (prop cookies k)) eqn:E; cbn [negb andb].
    + cbn. now rewrite app_nil_r.
    + unfold call. rewrite IH. cbn [fmap list_fmap].
      now rewrite <- app_assoc.
Qed.



Lemma forallb_header_calls (f : string -> ReplyCall) (keys : list string) :
  (forall k, is_header_or_cookie (f k) = true) ->
  forallb is_header_or_cookie (f <$> keys) = true.
Proof.
  intros H. induction keys as [|k keys IH]; [reflexivity|].
  cbn. now rewrite H, IH.
Qed.

Lemma invoke_only_adds (m : Commands.Member) (payload : JsVal) :
  only_adds (Commands.invoke m payload).
Proof.
  intros r. destruct m as [[|]|name|]; cbn [Commands.invoke].
  - rewrite set_header_run. eexists. split; [reflexivity|].
    now apply forallb_header_calls.
  - unfold Commands.create_cookie. rewrite create_cookie_run.
    eexists. split; [reflexivity|]. now apply forallb_header_calls.
  - exists []. destruct (bool_decide _); cbn; now rewrite app_nil_r.
  - exists []. cbn. now rewrite app_nil_r.
Qed.

Lemma applyCommand_only_adds (command : ICommand) :
  only_adds (applyCommand command).
Proof.
  intros r. rewrite applyCommand_dispatch.
  destruct (_ || _); [|exists []; cbn; now rewrite app_nil_r].
  destruct (Commands.get (command_name command)) as [m|].
  - apply invoke_only_adds.
  - exists []. cbn. now rewrite app_nil_r.
Qed.

Lemma bind_only_adds (m k : Eff unit) :
  only_adds m -> only_adds k -> only_adds (m ;;; k).
Proof.
  intros Hm Hk r. unfold bind. destruct (Hm r) as (c1 & E1 & F1).
  destruct (m r) as [r' [u|e]]; cbn [fst] in E1; subst r'.
  - destruct (Hk (r ++ c1)) as (c2 & E2 & F2).
    exists (c1 ++ c2). rewrite E2, app_assoc. split; [reflexivity|].
    rewrite forallb_app. now rewrite F1, F2.
  - exists c1. now split.
Qed.

(** X3. Whatever the commands of a response are, and whether applying them
    completes or throws, the calls already made on the reply are kept and
    only [header] and [setCookie] calls are added after them: commands never
    set the status and never send. *)
Theorem applyCommands_only_adds_headers_and_cookies :
  forall (commands : CommandArg) (r : FastifyReply),
    exists calls,
      (applyCommandsToResponse commands r).1 = r ++ calls
      /\ forallb is_header_or_cookie calls = true.
Proof.
  intros commands. change (only_adds (applyCommandsToResponse commands)).
  induction commands as [command|l IH] using CommandArg_nested_ind.
  - apply applyCommand_only_adds.
  - induction IH as [|c l Hc _ IHl].
    + intros r. exists []. cbn. now rewrite app_nil_r.
    + change (applyCommandsToResponse (CommandArray (c :: l)))
        with (applyCommandsToResponse c ;;; applyCommandsToResponse (CommandArray l)).
      now apply bind_only_adds.
Qed.

Lemma get_inversion (name : string) (m : Commands.Member) :
  Commands.get name = Some m ->
  (name = "set-header" /\ m = Commands.Own Commands.SetHeader)
  \/ (name = "create-cookie" /\ m = Commands.Own Commands.CreateCookie)
  \/ (name = "__proto__" /\ m = Commands.InheritedProto)
  \/ (m = Commands.InheritedMethod name).
Proof.
  unfold Commands.get. repeat case_decide; try case_bool_decide;
    intros [= <-]; auto.
Qed.

Lemma applyCommand_completes (command : ICommand) :
  command_name command ∉ throwing_names ->
  adds_and_completes (applyCommand command).
Proof.
  intros Hname r. rewrite applyCommand_dispatch.
  destruct (_ || _); [|exists []; cbn; now rewrite app_nil_r].
  destruct (Commands.get (command_name command)) as [m|] eqn:G;
    [|exists []; cbn; now rewrite app_nil_r].
  apply get_inversion in G as [[_ ->] | [[E _] | [[E _] | ->]]].
  - cbn [Commands.invoke]. rewrite set_header_run.
    eexists. split; [reflexivity|]. now apply forallb_header_calls.
  - exfalso. apply Hname. rewrite E. unfold throwing_names.
    apply list_elem_of_here.
  - exfalso. apply Hname. rewrite E. unfold throwing_names.
    apply elem_of_cons. right. apply list_elem_of_here.
  - cbn [Commands.invoke]. rewrite bool_decide_eq_false_2.
    + exists []. cbn. now rewrite app_nil_r.
    + intros Hin. apply Hname. unfold throwing_names.
      apply elem_of_cons. right. apply elem_of_cons. right. exact Hin.
Qed.

Lemma bind_adds_and_completes (m k : Eff unit) :
  adds_and_completes m -> adds_and_completes k -> adds_and_completes (m ;;; k).
Proof.
  intros Hm Hk r. unfold bind. destruct (Hm r) as (c1 & -> & F1).
  destruct (Hk (r ++ c1)) as (c2 & -> & F2).
  exists (c1 ++ c2). rewrite app_assoc. split; [reflexivity|].
  rewrite forallb_app. now rewrite F1, F2.
Qed.

Lemma applyCommands_complete (commands : CommandArg) :
  (forall name, name ∈ command_names commands -> name ∉ throwing_names) ->
  adds_and_completes (applyCommandsToResponse commands).
Proof.
  induction commands as [command|l IH] using CommandArg_nested_ind;
    intros Hnames.
  - apply applyCommand_completes. apply Hnames. apply list_elem_of_here.
  - induction IH as [|c l Hc _ IHl].
    + intros r. exists []. cbn. now rewrite app_nil_r.
    + change (applyCommandsToResponse (CommandArray (c :: l)))
        with (applyCommandsToResponse c ;;; applyCommandsToResponse (CommandArray l)).
      change (command_names (CommandArray (c :: l)))
        with (command_names c ++ command_names (CommandArray l)) in Hnames.
      apply bind_adds_and_completes.
      * apply Hc. intros name Hin. apply Hnames, elem_of_app. now left.
      * apply IHl. intros name Hin. apply Hnames, elem_of_app. now right.
Qed.

(** ** Sending a response on a reply that may refuse the status *)

(** [SendResponse] once the commands are applied: the header, then the
    status, which the reply may refuse. *)
Lemma SendResponse_checked_run (accepts_status : JsVal -> bool)
    (routeResp : IApiRouteResponse) (response : FastifyReply) :
  SendResponse_checked accepts_status routeResp response =
    match
      match response_commands routeResp with
      | Some commands => applyCommandsToResponse commands response
      | None => (response, Normal tt)
      end
    with
    | (applied, Normal _) =>
        if accepts_status (response_status routeResp)
        then (applied
                ++ [CallHeader "X-Exit-Code" (response_exitCode routeResp);
                    CallStatus (response_status routeResp)],
              Normal (if is_nullish (response_payload routeResp)
                      then JObj [] else response_payload routeResp))
        else (applied
                ++ [CallHeader "X-Exit-Code" (response_exitCode routeResp)],
              Abrupt (Refused "reply.status"))
    | (applied, Abrupt e) => (applied, Abrupt e)
    end.
Proof.
  unfold SendResponse_checked, bind, ret, call.
  destruct (response_commands routeResp) as [commands|].
  - destruct (applyCommandsToResponse commands response) as [applied [[]|e]];
      [|reflexivity].
    rewrite status_checked_run.
    destruct (accepts_status _); [|reflexivity].
    unfold coalesce. now rewrite <- app_assoc.
  - rewrite status_checked_run.
    destruct (accepts_status _); [|reflexivity].
    unfold coalesce. now rewrite <- app_assoc.
Qed.

(** On a reply that accepts the status, [SendResponse_checked] is
    [SendResponse]. *)
Lemma SendResponse_checked_accepted (accepts_status : JsVal -> bool)
    (routeResp : IApiRouteResponse) (response : FastifyReply) :
  accepts_status (response_status routeResp) = true ->
  SendResponse_checked accepts_status routeResp response
    = SendResponse routeResp response.
Proof.
  intros H. unfold SendResponse_checked, SendResponse, bind.
  destruct (match response_commands routeResp with
            | Some commands => applyCommandsToResponse commands
            | None => ret tt
            end response) as [applied [[]|e]]; [|reflexivity].
  unfold call. rewrite status_checked_run, H. reflexivity.
Qed.

Lemma SendResponse_checked_safe :
  forall (accepts_status : JsVal -> bool) (routeResp : IApiRouteResponse)
         (r : FastifyReply),
    (forall commands name,
        response_commands routeResp = Some commands ->
        name ∈ command_names commands -> name ∉ throwing_names) ->
    exists calls,
      forallb is_header_or_cookie calls = true
      /\ SendResponse_checked accepts_status routeResp r =
           (if accepts_status (response_status routeResp)
            then (r ++ calls
                    ++ [CallHeader "X-Exit-Code" (response_exitCode routeResp);
                        CallStatus (response_status routeResp)],
                  Normal (if is_nullish (response_payload routeResp)
                          then JObj [] else response_payload routeResp))
            else (r ++ calls
                    ++ [CallHeader "X-Exit-Code" (response_exitCode routeResp)],
                  Abrupt (Refused "reply.status")))
      /\ reply_header "X-Exit-Code"
           (SendResponse_checked accepts_status routeResp r).1
         = Some (response_exitCode routeResp)
      /\ reply_status
           (r ++ calls
              ++ [CallHeader "X-Exit-Code" (response_exitCode routeResp);
                  CallStatus (response_status routeResp)])
         = Some (response_status routeResp).
Proof.
  intros accepts_status routeResp r Hnames.
  assert (Hc : exists calls,
             match response_commands routeResp with
             | Some commands => applyCommandsToResponse commands r
             | None => (r, Normal tt)
             end = (r ++ calls, Normal tt)
             /\ forallb is_header_or_cookie calls = true).
  { destruct (response_commands routeResp) as [commands|].
    - apply applyCommands_complete. intros name. now apply Hnames.
    - exists []. now rewrite app_nil_r. }
  destruct Hc as (calls & Hrun & Hcalls). exists calls.
  split; [exact Hcalls|].
  rewrite SendResponse_checked_run, Hrun.
  replace (r ++ calls
             ++ [CallHeader "X-Exit-Code" (response_exitCode routeResp);
                 CallStatus (response_status routeResp)])
    with (((r ++ calls)
             ++ [CallHeader "X-Exit-Code" (response_exitCode routeResp)])
            ++ [CallStatus (response_status routeResp)])
    by now rewrite <- !app_assoc.
  rewrite (app_assoc r calls).
  split; [|split].
  - destruct (accepts_status _); [|reflexivity]. now rewrite <- !app_assoc.
  - destruct (accepts_status _); cbn [fst].
    + replace ((r ++ calls)
                 ++ [CallHeader "X-Exit-Code" (response_exitCode routeResp);
                     CallStatus (response_status routeResp)])
        with (((r ++ calls)
                 ++ [CallHeader "X-Exit-Code" (response_exitCode routeResp)])
                ++ [CallStatus (response_status routeResp)])
        by now rewrite <- !app_assoc.
      now rewrite reply_header_snoc_status, reply_header_snoc.
    + apply reply_header_snoc.
  - apply reply_status_snoc.
Qed.

(** X4. A response none of whose commands is named ['create-cookie'],
    ['__proto__'], ['__defineGetter__'] or ['__defineSetter__']: the commands
    add header and cookie calls only, then the [X-Exit-Code] header is set to
    the exit code (after the commands, so that no command overrides it), then
    the status is passed to the reply.  When the reply accepts the status,
    it is set and [resolve] receives the payload, or [{}] when the payload
    is [null] or [undefined]; when the reply refuses it, as Fastify's does
    for a missing or out-of-range status, [SendResponse] throws after the
    header and [resolve] is not called. *)
Theorem SendResponse_sends_accepted_status :
  forall (accepts_status : JsVal -> bool) (routeResp : IApiRouteResponse)
         (r : FastifyReply),
    (forall commands name,
        response_commands routeResp = Some commands ->
        name ∈ command_names commands -> name ∉ throwing_names) ->
    exists calls,
      forallb is_header_or_cookie calls = true
      /\ SendResponse_checked accepts_status routeResp r =
           (if accepts_status (response_status routeResp)
            then (r ++ calls
                    ++ [CallHeader "X-Exit-Code" (response_exitCode routeResp);
                        CallStatus (response_status routeResp)],
                  Normal (if is_nullish (response_payload routeResp)
                          then JObj [] else response_payload routeResp))
            else (r ++ calls
                    ++ [CallHeader "X-Exit-Code" (response_exitCode routeResp)],
                  Abrupt (Refused "reply.status")))
      /\ reply_header "X-Exit-Code"
           (SendResponse_checked accepts_status routeResp r).1
         = Some (response_exitCode routeResp)
      /\ reply_status
           (r ++ calls
              ++ [CallHeader "X-Exit-Code" (response_exitCode routeResp);
                  CallStatus (response_status routeResp)])
         = Some (response_status routeResp).
Proof. apply SendResponse_checked_safe. Qed.

Lemma SendResponse_sends_accepted_status_witness :
  let routeResp :=
    {| response_payload := JNull;
       response_commands :=
         Some (CommandArray
                 [OneCommand {| command_name := "set-header";
                                command_adapters := JUndefined;
                                command_payload :=
                                  JObj [("X-Exit-Code", JStr "forged")] |}]);
       response_exitCode := JStr "OK";
       response_status := JNum 201 |} in
  let missing :=
    {| response_payload := JNull; response_commands := None;
       response_exitCode := JStr "OK"; response_status := JUndefined |} in
  SendResponse_checked status_100_to_600 routeResp []
    = ([CallHeader "X-Exit-Code" (JStr "forged");
        CallHeader "X-Exit-Code" (JStr "OK");
        CallStatus (JNum 201)],
       Normal (JObj []))
  /\ reply_header "X-Exit-Code"
       (SendResponse_checked status_100_to_600 routeResp []).1
     = Some (JStr "OK")
  /\ SendResponse_checked status_100_to_600 missing []
     = ([CallHeader "X-Exit-Code" (JStr "OK")],
        Abrupt (Refused "reply.status")).
Proof.
  cbn zeta.
  destruct (SendResponse_sends_accepted_status status_100_to_600
              {| response_payload := JNull;
                 response_commands :=
                   Some (CommandArray
                           [OneCommand
                              {| command_name := "set-header";
                                 command_adapters := JUndefined;
                                 command_payload :=
                                   JObj [("X-Exit-Code", JStr "forged")] |}]);
                 response_exitCode := JStr "OK";
                 response_status := JNum 201 |} [])
    as (calls & _ & _ & Hheader & _).
  - intros commands name [= <-] Hin. cbn in Hin.
    apply list_elem_of_singleton in Hin as ->.
    intros Hbad.
    repeat (apply elem_of_cons in Hbad as [Hbad|Hbad]; [discriminate|]).
    now apply elem_of_nil in Hbad.
  - split; [reflexivity|]. split; [exact Hheader | reflexivity].
Defined.

(** X5. The adapter filter is exact: a command whose [adapters] is neither
    [null]/[undefined] nor the very string ["Fastify"] (another adapter's
    name, a different spelling, an array, any other value) makes no call on
    the reply and raises nothing, whatever its name and payload. *)
Theorem applyCommand_other_filter_ignored :
  forall (command : ICommand) (r : FastifyReply),
    is_nullish (command_adapters command) = false ->
    command_adapters command <> JStr "Fastify" ->
    applyCommandsToResponse (OneCommand command) r = (r, Normal tt).
Proof.
  intros command r Hnull Hname. cbn [applyCommandsToResponse].
  rewrite applyCommand_dispatch, Hnull.
  destruct (command_adapters command) as [| |b|n|s|elems|props];
    try reflexivity.
  cbn. rewrite bool_decide_eq_false_2; [reflexivity|].
  intros ->. now apply Hname.
Qed.

Lemma applyCommand_other_filter_ignored_witness :
  applyCommandsToResponse
    (OneCommand {| command_name := "set-header";
                   command_adapters := JStr "fastify";
                   command_payload := JObj [("ETag", JStr "abc")] |}) []
  = ([], Normal tt).
Proof.
  apply (applyCommand_other_filter_ignored
           {| command_name := "set-header";
              command_adapters := JStr "fastify";
              command_payload := JObj [("ETag", JStr "abc")] |} []).
  - reflexivity.
  - discriminate.
Defined.


(** ** More on normalizing a request *)

Lemma add_all_fields (origin : string) (source : JsVal) (req : RouteRequest) :
  adapter (add_all origin source req) = adapter req
  /\ url (add_all origin source req) = url req
  /\ identification (add_all origin source req) = identification req
  /\ method (add_all origin source req) = method req.
Proof.
  unfold add_all. generalize (for_in_keys source) as keys.
  intros keys. revert req.
  induction keys as [|k keys IH]; intros req; cbn [fold_left].
  - repeat split.
  - destruct (IH (add k (prop source k) origin req)) as (H1 & H2 & H3 & H4).
    rewrite H1, H2, H3, H4. repeat split.
Qed.

Lemma mentions_app (c : ascii) (a b : string) :
  mentions c (a ++ b) = mentions c a || mentions c b.
Proof.
  induction a as [|c' a IH]; [reflexivity|].
  change (mentions c (String c' a ++ b))
    with (bool_decide (c' = c) || mentions c (a ++ b)).
  change (mentions c (String c' a))
    with (bool_decide (c' = c) || mentions c a).
  now rewrite IH, orb_assoc.
Qed.

(** X6. The normalized request names the adapter ["Fastify"] and carries
    the request's url; its identification is always the address (the [ips]
    joined by [" - "], or the [ip]), then [" | "], then the [user-agent]
    header converted to a string.  The fallback ["UA-NOT-PROVIDED"] is never
    produced: without a [user-agent] header the identification ends in
    ["undefined"]. *)
Theorem TransformRequest_identification :
  forall (request : FastifyRequest),
    let req := TransformRequest request in
    adapter req = "Fastify"
    /\ url req = request_url request
    /\ method req = None
    /\ identification req =
         JStr (request_address request ++ " | "
               ++ to_string (prop (JObj (request_headers request)) "user-agent"))
    /\ identification req <> JStr "UA-NOT-PROVIDED"
    /\ (assoc "user-agent" (request_headers request) = None ->
        identification req = JStr (request_address request ++ " | undefined")).
Proof.
  intros request req. subst req. unfold TransformRequest.
  repeat match goal with
         | |- context [add_all ?o ?s ?r] =>
             let H := fresh in
             pose proof (add_all_fields o s r) as H;
             destruct H as (-> & -> & -> & ->)
         end.
  cbn [adapter url method identification set_identification new_RouteRequest
       coalesce is_nullish].
  split; [reflexivity|]. split; [reflexivity|]. split; [reflexivity|].
  split; [reflexivity|]. split.
  - intros [= E].
    assert (M : mentions "|" "UA-NOT-PROVIDED" = true).
    { rewrite <- E. unfold request_address.
      rewrite !mentions_app. cbn. now rewrite orb_true_r. }
    vm_compute in M. discriminate.
  - intros Hua. unfold prop. cbn [own_props]. rewrite Hua. reflexivity.
Qed.

Example TransformRequest_identification_forwarded :
  identification
    (TransformRequest
       {| request_url := "/"; request_ip := "10.0.0.1";
          request_ips := Some ["203.0.113.7"; "10.0.0.1"];
          request_headers := [("user-agent", JStr "curl/8.0")];
          request_cookies := JUndefined; request_body := JNull;
          request_query := JObj []; request_params := JObj [] |})
  = JStr "203.0.113.7 - 10.0.0.1 | curl/8.0".
Proof. reflexivity. Qed.

(** X7. The normalized request holds nothing that is not on the native
    request: every parameter given to it, and so every binding of the
    normalized mapping, is a key of one of the five sources, with the value
    that source has for it and that source's origin, one of [header],
    [cookie], [body], [query] and [url]. *)
Theorem TransformRequest_adds_only_request_keys :
  forall (request : FastifyRequest) (name : string) (p : RequestParameter),
    (name, p) ∈ added (TransformRequest request)
    \/ parameters (TransformRequest request) !! name = Some p ->
    exists origin source,
      (origin, source) ∈ copied_sources request
      /\ name ∈ for_in_keys source
      /\ p = copied origin source name
      /\ origin ∈ ["header"; "cookie"; "body"; "query"; "url"].
Proof.
  intros request name p H.
  assert (Hadded : (name, p) ∈ added (TransformRequest request)).
  { destruct H as [H|H]; [exact H|].
    rewrite TransformRequest_copies, copy_sources_lookup in H.
    rewrite TransformRequest_added.
    revert H. generalize (copied_sources request) as sources.
    intros sources.
    change (parameters (new_RouteRequest ADAPTER_NAME (request_url request))
              !! name) with (@None RequestParameter).
    induction sources as [|[o src] sources IH] using rev_ind;
      [discriminate|].
    rewrite fold_left_app, bind_app. cbn [fold_left fst snd]. intros H.
    apply elem_of_app. destruct (decide (name ∈ for_in_keys src)) as [Hin|_].
    - right. injection H as <-. cbn [mbind list_bind]. rewrite app_nil_r.
      apply list_elem_of_fmap. now exists name.
    - left. now apply IH. }
  rewrite TransformRequest_added in Hadded.
  apply list_elem_of_bind in Hadded as ([origin source] & Hin & Hsrc).
  apply list_elem_of_fmap in Hin as (k & [= -> ->] & Hk).
  exists origin, source. repeat split; try assumption.
  unfold copied_sources in Hsrc.
  repeat (apply elem_of_cons in Hsrc as [[= -> _]|Hsrc];
          [repeat constructor|]).
  now apply elem_of_nil in Hsrc.
Qed.

Lemma TransformRequest_adds_only_request_keys_witness :
  exists origin source,
    (origin, source) ∈ copied_sources colliding_request
    /\ "id" ∈ for_in_keys source
    /\ {| parameter_value := JStr "7"; parameter_origin := "url" |}
       = copied origin source "id".
Proof.
  destruct (TransformRequest_adds_only_request_keys colliding_request "id"
              {| parameter_value := JStr "7"; parameter_origin := "url" |})
    as (origin & source & H1 & H2 & H3 & _).
  - left. vm_compute. apply elem_of_cons. right. apply list_elem_of_here.
  - exists origin, source. repeat split; assumption.
Defined.


(** ** What is registered *)

Lemma addRoutes_effect (route : IProxiedRoute) (methods : list HTTPMethod)
    (this : Adapter) :
  let this' :=
    fold_left (fun this method => addRouteToHttpMethod method route this)
              methods this in
  routes (fastify this')
    = routes (fastify this) ++ (declared route <$> methods)
  /\ emitted this' = emitted this ++ (methods ≫= announced route)
  /\ plugins (fastify this') = plugins (fastify this).
Proof.
  revert this. induction methods as [|m ms IH]; intros this;
    cbn [fold_left fmap list_fmap mbind list_bind].
  - now rewrite !app_nil_r.
  - destruct (IH (addRouteToHttpMethod m route this)) as (R & E & P).
    destruct (addRouteToHttpMethod_effect m route this) as (R1 & E1 & P1).
    cbn zeta in *. rewrite R, E, P, R1, E1, P1, <- !app_assoc.
    repeat split.
Qed.

Lemma loadRoute_effect (this : Adapter) (route : IProxiedRoute) :
  route ∉ _loadedRoutes this ->
  routes (fastify (loadRoute this route))
    = routes (fastify this) ++ (declared route <$> methods_of route)
  /\ emitted (loadRoute this route)
    = emitted this ++ (methods_of route ≫= announced route)
  /\ plugins (fastify (loadRoute this route)) = plugins (fastify this).
Proof.
  intros Hnew. unfold loadRoute.
  rewrite bool_decide_eq_false_2 by exact Hnew.
  cbn [fastify emitted].
  apply (addRoutes_effect route (methods_of route)
           (describeRoute route (methods_of route) this)).
Qed.

Lemma loadRoute_plugins (this : Adapter) (route : IProxiedRoute) :
  plugins (fastify (loadRoute this route)) = plugins (fastify this).
Proof.
  destruct (decide (route ∈ _loadedRoutes this)) as [Hin|Hnew].
  - now rewrite loadRoute_already_loaded.
  - now destruct (loadRoute_effect this route Hnew) as (_ & _ & P).
Qed.

Lemma loadRoute_registered (this : Adapter) (route : IProxiedRoute) :
  routes_registered this -> routes_registered (loadRoute this route).
Proof.
  intros (R & E).
  destruct (decide (route ∈ _loadedRoutes this)) as [Hin|Hnew].
  { rewrite loadRoute_already_loaded by exact Hin. now split. }
  destruct (loadRoute_effect this route Hnew) as (R' & E' & _).
  unfold routes_registered.
  rewrite R', E', loadRoute_loaded.
  rewrite bool_decide_eq_false_2 by exact Hnew.
  rewrite !bind_app. cbn [mbind list_bind]. rewrite !app_nil_r.
  now rewrite R, E.
Qed.

(** Loading keeps the plugins, the boot flag and the containers. *)
Lemma loadRoutesFromContainers_registered (cs : list Container)
    (this : Adapter) :
  routes_registered this ->
  routes_registered (loadRoutesFromContainers cs this)
  /\ plugins (fastify (loadRoutesFromContainers cs this))
     = plugins (fastify this)
  /\ _booted (loadRoutesFromContainers cs this) = _booted this
  /\ containers (loadRoutesFromContainers cs this) = containers this.
Proof.
  unfold loadRoutesFromContainers. revert this.
  induction cs as [|c cs IH]; intros this H; cbn [fold_left];
    [repeat split; apply H|].
  assert (Hc : routes_registered (fold_left loadRoute (allRoutes c) this)
               /\ plugins (fastify (fold_left loadRoute (allRoutes c) this))
                  = plugins (fastify this)
               /\ _booted (fold_left loadRoute (allRoutes c) this)
                  = _booted this
               /\ containers (fold_left loadRoute (allRoutes c) this)
                  = containers this).
  { generalize (allRoutes c) as rs. intros rs. revert this H.
    induction rs as [|r rs IHr]; intros this H; cbn [fold_left];
      [repeat split; apply H|].
    destruct (IHr (loadRoute this r) (loadRoute_registered this r H))
      as (H1 & H2 & H3 & H4).
    destruct (loadRoute_frame this r) as (B & C & _).
    rewrite H2, H3, H4, loadRoute_plugins, B, C. repeat split; apply H1. }
  destruct Hc as (H1 & H2 & H3 & H4).
  destruct (IH _ H1) as (K1 & K2 & K3 & K4).
  rewrite K2, K3, K4, H2, H3, H4. repeat split; apply K1.
Qed.

Lemma boot_registered (this : Adapter) :
  registered this -> registered (boot this).
Proof.
  intros H. unfold boot. destruct (_booted this) eqn:B; [exact H|].
  destruct H as (R & P & C). rewrite B in P.
  set (prepared := console_write _ (fastify_register fastifyMultipart _)).
  assert (Hp : routes_registered prepared) by exact R.
  destruct (loadRoutesFromContainers_registered (containers prepared)
              prepared Hp) as (R' & P' & _ & C').
  unfold registered, routes_registered.
  cbn [console_write fastify routes plugins emitted _loadedRoutes _booted
       containers].
  split; [exact R'|]. split.
  - rewrite P'. subst prepared.
    cbn [console_write fastify_register with_fastify fastify plugins].
    now rewrite P.
  - rewrite C'. exact C.
Qed.

Lemma perform_registered (this : Adapter) (op : Operation) :
  registered this -> registered (perform this op).
Proof.
  intros H. destruct op as [c|cs| |h]; cbn [perform].
  - unfold addContainer. destruct (bool_decide _) eqn:E; [exact H|].
    apply bool_decide_eq_false in E. destruct H as (R & P & C).
    unfold registered, routes_registered.
    cbn [fastify routes plugins emitted _loadedRoutes _booted containers].
    split; [exact R|]. split; [exact P|].
    apply NoDup_app. split; [exact C|]. split; [|apply NoDup_singleton].
    intros x Hx Hx'. apply list_elem_of_singleton in Hx'. congruence.
  - destruct H as (R & P & C).
    destruct (loadRoutesFromContainers_registered cs this R)
      as (R' & P' & B' & C').
    unfold registered. rewrite P', B', C'.
    split; [exact R'|]. split; [exact P | exact C].
  - now apply boot_registered.
  - exact H.
Qed.

Lemma perform_all_registered (ops : list Operation) :
  registered (perform_all ops new_Adapter).
Proof.
  unfold perform_all.
  assert (H : registered new_Adapter).
  { repeat split. apply NoDup_nil_2. }
  revert H. generalize new_Adapter as this.
  induction ops as [|op ops IH]; intros this H; cbn [fold_left]; [exact H|].
  apply IH. now apply perform_registered.
Qed.


Lemma served_method_supported (method : HTTPMethod) :
  (served_method method ∉ [search; all])
  /\ exists e, method_event (served_method method) = Some e
              /\ e <> ALL_REQUEST /\ e <> REQUEST
              /\ e <> REQUEST_ERROR /\ e <> REQUEST_RESPONSE
              /\ event_name e
                 = (method_string (served_method method) ++ "_request")%string.
Proof.
  split.
  - destruct method; vm_compute; intros H;
      repeat (apply elem_of_cons in H as [H|H]; [discriminate|]);
      now apply elem_of_nil in H.
  - destruct method; eexists; (split; [reflexivity|]);
      repeat split; discriminate.
Qed.

Lemma served_url_slash (route : IProxiedRoute) :
  charAt0 (served_url route) = "/".
Proof.
  unfold served_url. case_bool_decide as H; [reflexivity|].
  destruct (decide (charAt0 (trim (route_url route)) = "/")); [assumption|].
  contradiction.
Qed.

Lemma new_Adapter_declarations_ok : declarations_ok new_Adapter.
Proof.
  split; [reflexivity|]. split; [constructor|].
  intros r m Hr. now apply elem_of_nil in Hr.
Qed.

(** X8. Along every sequence of registration calls on a new adapter,
    whichever declarations Fastify refuses and each throw being caught by the
    caller: every declaration Fastify holds is served under a method other
    than [search] and [all], declared in upper case, at the url of its route
    with a leading slash; and every method of every loaded route has its
    declaration.  When every call returned, the declarations are exactly
    those of the loaded routes: for each, in the order loaded, one per method
    of the route, in the order of its methods. *)
Theorem declarations_cover_loaded_routes :
  forall (accepts_route : FastifyInstance -> RouteOptions -> bool)
         (ops : list Operation),
    let run := perform_each accepts_route ops new_Adapter in
    let this := run.1 in
    (forall b, b ∈ routes (fastify this) ->
       (handler_method b ∉ [search; all])
       /\ options_method b
          = toLocaleUpperCase (method_string (handler_method b))
       /\ options_url b = served_url (handler_route b)
       /\ charAt0 (options_url b) = "/")
    /\ (forall r m, r ∈ _loadedRoutes this -> m ∈ methods_of r ->
          declared r m ∈ routes (fastify this))
    /\ (forallb returned run.2 = true ->
        routes (fastify this)
          = _loadedRoutes this ≫= (fun r => declared r <$> methods_of r)).
Proof.
  intros accepts_route ops run this.
  destruct (perform_each_ok accepts_route ops new_Adapter
              new_Adapter_declarations_ok) as (_ & I2 & I3).
  fold run in I2, I3. fold this in I2, I3.
  split; [|split; [exact I3|]].
  - intros b Hb. rewrite Forall_forall in I2.
    destruct (I2 b Hb) as (r & m & ->).
    cbn [declared handler_route handler_method options_method options_url].
    split; [apply served_method_supported|].
    split; [reflexivity|]. split; [reflexivity | apply served_url_slash].
  - intros Hret. subst this run.
    rewrite (perform_each_returned accepts_route ops new_Adapter Hret).
    now destruct (perform_all_registered ops) as ((R & _) & _).
Qed.

(** A declaration of a route that is not loaded: [PUT /b], made before
    Fastify refused [CONNECT /b]. *)
Example declared_route_not_loaded :
  let run :=
    perform_each route_supported
      [OpAddContainer refused_container; OpBoot] new_Adapter in
  (returned <$> run.2) = [true; false]
  /\ ((fun b => (options_method b, options_url b)) <$> routes (fastify run.1))
     = [("GET", "/a"); ("PUT", "/b")]
  /\ (route_url <$> _loadedRoutes run.1) = ["a"]
  /\ length (emitted run.1) = 4.
Proof. vm_compute. repeat split. Qed.

Lemma announced_events (route : IProxiedRoute) (method : HTTPMethod) :
  exists e,
    announced route method
      = [(e, ArgsRoute route);
         (REQUEST, ArgsRouteMethod route (served_method method))]
    /\ method_event (served_method method) = Some e
    /\ e <> ALL_REQUEST /\ e <> REQUEST
    /\ e <> REQUEST_ERROR /\ e <> REQUEST_RESPONSE
    /\ event_name e
       = (method_string (served_method method) ++ "_request")%string.
Proof.
  destruct (served_method_supported method) as (_ & e & He & Hrest).
  exists e. unfold announced. rewrite He. split; [reflexivity|].
  split; [reflexivity | exact Hrest].
Qed.

(** X9. Along every sequence of registration calls on a new adapter,
    whichever declarations Fastify refuses, the events emitted are exactly
    two for each declaration Fastify accepted, in the order of the
    declarations: first the event of the method the route is served under,
    whose name is that method followed by ["_request"], with the route; then
    [request], with the route and that method.  A refused declaration emits
    nothing, and [all_request], [request_error] and [request_response] are
    never emitted by registration. *)
Theorem events_follow_accepted_declarations :
  forall (accepts_route : FastifyInstance -> RouteOptions -> bool)
         (ops : list Operation),
    let this := (perform_each accepts_route ops new_Adapter).1 in
    emitted this
      = routes (fastify this) ≫=
          (fun b =>
             match method_event (handler_method b) with
             | Some e => [(e, ArgsRoute (handler_route b))]
             | None => []
             end
             ++ [(REQUEST,
                  ArgsRouteMethod (handler_route b) (handler_method b))])
    /\ length (emitted this) = 2 * length (routes (fastify this))
    /\ (forall e args, (e, args) ∈ emitted this ->
          (e ∉ [ALL_REQUEST; REQUEST_ERROR; REQUEST_RESPONSE])
          /\ (e <> REQUEST ->
              exists b, b ∈ routes (fastify this)
                /\ args = ArgsRoute (handler_route b)
                /\ event_name e
                   = (method_string (handler_method b) ++ "_request")%string)).
Proof.
  intros accepts_route ops this.
  destruct (perform_each_ok accepts_route ops new_Adapter
              new_Adapter_declarations_ok) as (I1 & I2 & _).
  fold this in I1, I2. rewrite Forall_forall in I2.
  assert (Hevents : forall b, b ∈ routes (fastify this) ->
            exists e,
              declaration_events b
                = [(e, ArgsRoute (handler_route b));
                   (REQUEST,
                    ArgsRouteMethod (handler_route b) (handler_method b))]
              /\ method_event (handler_method b) = Some e
              /\ e <> ALL_REQUEST /\ e <> REQUEST
              /\ e <> REQUEST_ERROR /\ e <> REQUEST_RESPONSE
              /\ event_name e
                 = (method_string (handler_method b) ++ "_request")%string).
  { intros b Hb. destruct (I2 b Hb) as (r & m & ->).
    rewrite declaration_events_declared.
    apply (announced_events r m). }
  revert I1 Hevents.
  generalize (emitted this) as events, (routes (fastify this)) as bs.
  intros events bs -> Hevents. split; [|split].
  - induction bs as [|b bs IH]; [reflexivity|].
    cbn [mbind list_bind]. rewrite IH.
    + f_equal. destruct (Hevents b) as (e & -> & -> & _);
        [apply list_elem_of_here | reflexivity].
    + intros b' Hb'. apply Hevents. now apply list_elem_of_further.
  - induction bs as [|b bs IH]; [reflexivity|].
    cbn [mbind list_bind length]. rewrite length_app, IH.
    + destruct (Hevents b) as (e & -> & _); [apply list_elem_of_here|].
      cbn [length]. lia.
    + intros b' Hb'. apply Hevents. now apply list_elem_of_further.
  - intros e args Hin.
    apply list_elem_of_bind in Hin as (b & Hin & Hb).
    destruct (Hevents b Hb) as (e' & Ha & _ & N1 & N2 & N3 & N4 & Hname).
    rewrite Ha in Hin.
    apply elem_of_cons in Hin as [[= -> ->]|Hin].
    + split.
      * intros Hbad.
        repeat (apply elem_of_cons in Hbad as [Hbad|Hbad]; [congruence|]).
        now apply elem_of_nil in Hbad.
      * intros _. exists b. now repeat split.
    + apply list_elem_of_singleton in Hin. injection Hin as -> ->. split.
      * intros Hbad.
        repeat (apply elem_of_cons in Hbad as [Hbad|Hbad]; [discriminate|]).
        now apply elem_of_nil in Hbad.
      * intros Hne. now contradiction Hne.
Qed.

(** X10. Along every sequence of registration calls on a new adapter,
    whichever declarations Fastify refuses, the Fastify plugins are
    registered by [boot] alone, three at a time: the cookie plugin (with an
    empty secret), helmet and multipart, in that order, once for every [boot]
    that threw and once more when the adapter is booted.  So when no [boot]
    threw, an adapter that is not booted has none and a booted one has
    exactly these three. *)
Theorem plugins_registered_per_boot :
  forall (accepts_route : FastifyInstance -> RouteOptions -> bool)
         (ops : list Operation),
    let run := perform_each accepts_route ops new_Adapter in
    plugins (fastify run.1)
      = mjoin (replicate (boots_thrown ops run.2
                          + if _booted run.1 then 1 else 0)
                 [fastifyCookie ""; fastifyHelmet; fastifyMultipart])
    /\ (boots_thrown ops run.2 = 0 ->
        plugins (fastify run.1)
          = if _booted run.1
            then [fastifyCookie ""; fastifyHelmet; fastifyMultipart]
            else []).
Proof.
  intros accepts_route ops run.
  pose proof (perform_each_plugins accepts_route ops new_Adapter 0 eq_refl)
    as H.
  fold run in H. cbn [Nat.add] in H. split; [exact H|].
  intros Hnone. rewrite H, Hnone. now destruct (_booted run.1).
Qed.

(** Two boots that throw and none that returns: six plugins on an adapter
    that is not booted. *)
Example plugins_registered_twice :
  let run :=
    perform_each route_supported
      [OpAddContainer refused_container; OpBoot; OpBoot] new_Adapter in
  boots_thrown [OpAddContainer refused_container; OpBoot; OpBoot] run.2 = 2
  /\ _booted run.1 = false
  /\ length (plugins (fastify run.1)) = 6.
Proof. vm_compute. repeat split. Qed.

Lemma loadRoutesFromContainers_containers (cs : list Container)
    (this : Adapter) :
  containers (loadRoutesFromContainers cs this) = containers this.
Proof.
  unfold loadRoutesFromContainers. revert this.
  induction cs as [|c cs IH]; intros this; cbn [fold_left]; [reflexivity|].
  rewrite IH. generalize (allRoutes c) as rs. intros rs. revert this.
  induction rs as [|r rs IHr]; intros this; cbn [fold_left]; [reflexivity|].
  rewrite IHr. now destruct (loadRoute_frame this r) as (_ & C & _).
Qed.

Lemma boot_containers (this : Adapter) :
  containers (boot this) = containers this.
Proof.
  unfold boot. destruct (_booted this); [reflexivity|].
  cbn [containers console_write]. now rewrite loadRoutesFromContainers_containers.
Qed.

Lemma perform_containers (this : Adapter) (op : Operation) :
  containers this `prefix_of` containers (perform this op).
Proof.
  destruct op as [c|cs| |h]; cbn [perform].
  - unfold addContainer. destruct (bool_decide _); [reflexivity|].
    cbn [containers]. now apply prefix_app_r.
  - now rewrite loadRoutesFromContainers_containers.
  - now rewrite boot_containers.
  - reflexivity.
Qed.

(** X11. Containers are held once and never dropped: along every sequence
    of registration calls on a new adapter the list of containers has no
    container twice, every later call keeps it as a prefix, adding a
    container puts it in the list, and adding it again changes nothing. *)
Theorem containers_held_once :
  forall (ops : list Operation),
    let this := perform_all ops new_Adapter in
    NoDup (containers this)
    /\ (forall more : list Operation,
          containers this `prefix_of` containers (perform_all more this))
    /\ (forall c : Container,
          c ∈ containers (addContainer c this)
          /\ addContainer c (addContainer c this) = addContainer c this).
Proof.
  intros ops this. split; [|split].
  - now destruct (perform_all_registered ops) as (_ & _ & C).
  - intros more. unfold perform_all. generalize this as a. clear this.
    induction more as [|op more IH]; intros a; cbn [fold_left]; [reflexivity|].
    etransitivity; [apply perform_containers | apply IH].
  - intros c.
    assert (Hin : c ∈ containers (addContainer c this)).
    { unfold addContainer.
      destruct (bool_decide (c ∈ containers this)) eqn:E.
      - now apply bool_decide_eq_true in E.
      - cbn [containers]. apply elem_of_app. right. apply list_elem_of_here. }
    split; [exact Hin|].
    unfold addContainer at 1. now rewrite bool_decide_eq_true_2.
Qed.

Lemma boot_all_loaded (this : Adapter) :
  _booted this = false -> all_loaded (containers this) (boot this).
Proof.
  intros B. unfold boot. rewrite B.
  set (prepared := console_write _ (fastify_register fastifyMultipart _)).
  intros c r Hc Hr. cbn [_loadedRoutes].
  now apply (loadRoutesFromContainers_covers (containers prepared) prepared c r).
Qed.

(** X12. A [boot] of an adapter that is not booted returns exactly when it
    has loaded every route of every container added so far, and it sets the
    flag exactly then; when Fastify refuses a declaration it throws, with a
    route left unloaded and the adapter not booted.  A container added after
    a [boot] that returned is not loaded by a later [boot], which returns at
    once: its routes wait for a call of [loadRoutesFromContainers]. *)
Theorem boot_returns_when_all_loaded :
  forall (accepts_route accepts_later :
            FastifyInstance -> RouteOptions -> bool) (this : Adapter),
    _booted this = false ->
    let run := boot_checked accepts_route this in
    (returned run.2 = true <-> all_loaded (containers this) run.1)
    /\ _booted run.1 = returned run.2
    /\ (returned run.2 = true ->
        forall c : Container,
          boot_checked accepts_later (addContainer c run.1)
            = (addContainer c run.1, Normal tt)
          /\ _loadedRoutes (addContainer c run.1) = _loadedRoutes run.1).
Proof.
  intros accepts_route accepts_later this B run.
  destruct (boot_checked_step accepts_route this B) as (_ & F & _).
  fold run in F. split; [|split; [exact F|]].
  - split.
    + intros Hret. destruct run as [this' [[]|e]] eqn:E; [|discriminate].
      apply boot_checked_returned in E. cbn [fst]. rewrite E.
      now apply boot_all_loaded.
    + intros Hall. destruct (returned run.2) eqn:Hret; [reflexivity|].
      exfalso. subst run. unfold boot_checked in *. rewrite B in *.
      set (prepared := console_write _ (fastify_register fastifyMultipart _))
        in *.
      destruct (loadRoutesFromContainers_checked accepts_route
                  (containers prepared) prepared) as [mid [[]|e]] eqn:E;
        [discriminate|].
      apply loadRoutesFromContainers_checked_thrown in E
        as (_ & c & r & Hc & Hr & Hnot).
      apply Hnot. now apply (Hall c r).
  - intros Hret c. rewrite Hret in F. split.
    + apply boot_checked_when_booted. unfold addContainer.
      destruct (bool_decide _); cbn [_booted]; exact F.
    + unfold addContainer. now destruct (bool_decide _).
Qed.

Lemma boot_returns_when_all_loaded_witness :
  let route := {| route_ref := 1; route_url := "users";
                  route_methods := SingleMethod get |} in
  let this :=
    addContainer {| container_ref := 1; allRoutes := [route] |} new_Adapter in
  let refused := addContainer refused_container new_Adapter in
  _booted this = false
  /\ _booted (boot_checked route_supported this).1 = true
  /\ _booted (boot_checked route_supported refused).1 = false.
Proof.
  cbn zeta. split; [reflexivity|].
  destruct (boot_returns_when_all_loaded route_supported route_supported
              (addContainer
                 {| container_ref := 1;
                    allRoutes := [{| route_ref := 1; route_url := "users";
                                     route_methods := SingleMethod get |}] |}
                 new_Adapter) eq_refl) as (_ & -> & _).
  destruct (boot_returns_when_all_loaded route_supported route_supported
              (addContainer refused_container new_Adapter) eq_refl)
    as (_ & -> & _).
  vm_compute. split; reflexivity.
Defined.

Lemma loadedRoutes_step (routes : list IProxiedRoute) (route : IProxiedRoute)
    (acc : gmap string IProxiedRoute) :
  fold_left
    (fun loaded route =>
       if decide (route_url route = "__proto__") then loaded
       else <[route_url route := route]> loaded)
    (routes ++ [route]) acc
  = let loaded :=
      fold_left
        (fun loaded route =>
           if decide (route_url route = "__proto__") then loaded
           else <[route_url route := route]> loaded)
        routes acc in
    if decide (route_url route = "__proto__") then loaded
    else <[route_url route := route]> loaded.
Proof. now rewrite fold_left_app. Qed.

Lemma loadedRoutes_lookup (routes : list IProxiedRoute) (u : string) :
  fold_left
    (fun loaded route =>
       if decide (route_url route = "__proto__") then loaded
       else <[route_url route := route]> loaded)
    routes (∅ : gmap string IProxiedRoute) !! u
  = if decide (u = "__proto__") then None
    else last (filter (fun r => route_url r = u) routes).
Proof.
  induction routes as [|r routes IH] using rev_ind.
  - cbn. rewrite lookup_empty. now destruct (decide _).
  - rewrite loadedRoutes_step. cbn zeta. rewrite filter_app.
    destruct (decide (route_url r = "__proto__")) as [Hp|Hp].
    + rewrite IH. destruct (decide (u = "__proto__")) as [_|Hu]; [reflexivity|].
      rewrite filter_cons_False by congruence.
      rewrite filter_nil. now rewrite app_nil_r.
    + destruct (decide (route_url r = u)) as [<-|Hne].
      * rewrite lookup_insert_eq. rewrite decide_False by exact Hp.
        rewrite filter_cons_True by reflexivity. rewrite filter_nil.
        now rewrite last_snoc.
      * rewrite lookup_insert_ne by exact Hne. rewrite IH.
        rewrite filter_cons_False by exact Hne. rewrite filter_nil.
        now rewrite app_nil_r.
Qed.

(** X13. [loadedRoutes()] reports the loaded routes by their url as written
    on the route: under a url it holds the route loaded last with that url,
    so that of several routes sharing a url only the last is reported; a url
    borne by no loaded route is absent; and a route whose url is
    ["__proto__"] is never reported as a property. *)
Theorem loadedRoutes_by_url :
  forall (this : Adapter) (u : string),
    loadedRoutes this !! u
      = (if decide (u = "__proto__") then None
         else last (filter (fun r => route_url r = u) (_loadedRoutes this)))
    /\ (forall r, loadedRoutes this !! u = Some r ->
          r ∈ _loadedRoutes this /\ route_url r = u)
    /\ ((forall r, r ∈ _loadedRoutes this -> route_url r <> u) ->
        loadedRoutes this !! u = None).
Proof.
  intros this u. unfold loadedRoutes. rewrite loadedRoutes_lookup.
  split; [reflexivity|]. split.
  - intros r. destruct (decide (u = "__proto__")); [discriminate|].
    intros H. apply last_Some in H as [l' H].
    assert (Hin : r ∈ filter (fun r => route_url r = u) (_loadedRoutes this)).
    { rewrite H. apply elem_of_app. right. apply list_elem_of_here. }
    apply list_elem_of_filter in Hin as [Hu Hin]. now split.
  - intros Hnone. destruct (decide (u = "__proto__")); [reflexivity|].
    destruct (last (filter (fun r => route_url r = u) (_loadedRoutes this)))
      as [r|] eqn:Hl; [|reflexivity].
    exfalso. apply last_Some in Hl as [l' H].
    assert (Hin : r ∈ filter (fun r => route_url r = u) (_loadedRoutes this)).
    { rewrite H. apply elem_of_app. right. apply list_elem_of_here. }
    apply list_elem_of_filter in Hin as [Hu Hin]. now apply (Hnone r).
Qed.

Example loadedRoutes_shared_url :
  let r1 := {| route_ref := 1; route_url := "users";
               route_methods := SingleMethod get |} in
  let r2 := {| route_ref := 2; route_url := "users";
               route_methods := SingleMethod post |} in
  let this :=
    loadRoutesFromContainers
      [{| container_ref := 1; allRoutes := [r1; r2] |}] new_Adapter in
  _loadedRoutes this = [r1; r2]
  /\ loadedRoutes this !! "users" = Some r2
  /\ loadedRoutes this !! "/users" = None.
Proof. vm_compute. repeat split. Qed.


(** ** The lifecycle *)

Lemma listen_port_positive (port : option Z) : (0 < listen_port port)%Z.
Proof.
  destruct port as [p|]; cbn; [|lia].
  destruct (0 <? p)%Z eqn:E; [now apply Z.ltb_lt in E | lia].
Qed.

Section ServerRefusals.

Variable accepts_route_after :
  list Z -> nat -> FastifyInstance -> RouteOptions -> bool.
Variable accepts_listen : list Z -> nat -> Z -> bool.

(** A [start] that returns has done what the [start] of the accepting run
    does. *)
Lemma start_checked_returned (this this' : Lifecycle) :
  start_checked accepts_route_after accepts_listen this = (this', Normal tt) ->
  this' = start this.
Proof.
  unfold start_checked, start.
  destruct (boot_checked _ (registry this)) as [booted [[]|e]] eqn:E;
    [|discriminate].
  apply boot_checked_returned in E.
  destruct (accepts_listen _ _ _); [|discriminate].
  intros [= <-]. now rewrite E.
Qed.

(** Every call keeps the invariant of the life of an adapter, whether it
    returns or throws; and it throws only where Fastify does. *)
Lemma lifecycle_step_checked_ok (this : Lifecycle) (c : LifecycleCall) :
  life_ok this ->
  let run :=
    lifecycle_step_checked accepts_route_after accepts_listen this c in
  life_ok run.1
  /\ match run.2 with
     | Normal _ => True
     | Abrupt e =>
         reaches_fastify c = true
         /\ (e = Refused "fastify.route" \/ e = Refused "fastify.listen")
     end.
Proof.
  intros (Hs & Hp & Hc & Hc' & Hb). cbn zeta.
  destruct c as [| |port|op]; cbn [lifecycle_step_checked].
  - unfold start_checked.
    pose proof (perform_checked_step
                  (accepts_route_after (listened this) (closed this))
                  (registry this) OpBoot) as (_ & Hkeep & _).
    cbn [perform_checked] in Hkeep.
    destruct (boot_checked _ (registry this)) as [booted [[]|e]] eqn:E;
      cbn [fst snd] in *.
    + assert (Hbooted : _booted booted = true).
      { apply boot_checked_returned in E. rewrite E. apply boot_booted. }
      destruct (accepts_listen _ _ _); cbn [fst snd].
      * split; [|exact I]. unfold life_ok.
        cbn [_started _server listened closed registry].
        rewrite length_app. cbn [length].
        split; [reflexivity|]. split.
        { apply Forall_app. split; [exact Hp|].
          constructor; [apply listen_port_positive | constructor]. }
        split; [lia|]. split; [lia|]. intros _. exact Hbooted.
      * split; [|split; [reflexivity | now right]]. unfold life_ok.
        cbn [_started _server listened closed registry].
        split; [exact Hs|]. split; [exact Hp|]. split; [exact Hc|].
        split; [exact Hc'|]. intros _. exact Hbooted.
    + split.
      * unfold life_ok. cbn [_started _server listened closed registry].
        split; [exact Hs|]. split; [exact Hp|]. split; [exact Hc|].
        split; [exact Hc'|]. intros Hl. now apply Hkeep, Hb.
      * split; [reflexivity|]. left.
        apply (perform_checked_thrown _ (registry this) booted OpBoot e E).
  - unfold stop. destruct (_started this) eqn:S.
    + rewrite (Hs eq_refl). cbn [fst snd]. split; [|exact I].
      unfold life_ok. cbn [_started _server listened closed registry].
      specialize (Hc' eq_refl).
      split; [discriminate|]. split; [exact Hp|]. split; [lia|].
      split; [discriminate | exact Hb].
    + cbn [fst snd]. split; [|exact I]. unfold life_ok. rewrite S.
      split; [discriminate|]. split; [exact Hp|]. split; [exact Hc|].
      split; [discriminate | exact Hb].
  - cbn [fst snd]. split; [|exact I].
    unfold onPort. destruct (_started this) eqn:S.
    + unfold life_ok. rewrite S.
      split; [exact Hs|]. split; [exact Hp|]. split; [exact Hc|].
      split; [exact Hc' | exact Hb].
    + unfold life_ok. cbn [_started _server listened closed registry].
      split; [discriminate|]. split; [exact Hp|]. split; [exact Hc|].
      split; [discriminate | exact Hb].
  - pose proof (perform_checked_step
                  (accepts_route_after (listened this) (closed this))
                  (registry this) op) as (_ & Hkeep & _).
    destruct (perform_checked _ (registry this) op) as [r done] eqn:E.
    cbn [fst snd] in *. split.
    + unfold life_ok. cbn [_started _server listened closed registry].
      split; [exact Hs|]. split; [exact Hp|]. split; [exact Hc|].
      split; [exact Hc'|]. intros Hl. now apply Hkeep, Hb.
    + destruct done as [[]|e]; [exact I|].
      pose proof (perform_checked_thrown _ _ _ _ _ E) as ->.
      destruct op; try discriminate E; split; try reflexivity; now left.
Qed.

Lemma new_Lifecycle_ok (envPort port : option Z) :
  life_ok (new_Lifecycle envPort port).
Proof.
  destruct port as [p|]; unfold new_Lifecycle, onPort, life_ok; cbn;
    repeat split; try discriminate; try constructor; try lia;
    intros H; now contradiction H.
Qed.

Lemma lifecycle_each_ok (calls : list LifecycleCall) :
  forall this : Lifecycle,
    life_ok this ->
    let run := lifecycle_each accepts_route_after accepts_listen calls this in
    life_ok run.1
    /\ Forall2
         (fun c done =>
            match done with
            | Normal _ => True
            | Abrupt e =>
                reaches_fastify c = true
                /\ (e = Refused "fastify.route"
                    \/ e = Refused "fastify.listen")
            end)
         calls run.2.
Proof.
  cbn zeta. induction calls as [|c calls IH]; intros this H;
    cbn [lifecycle_each]; [split; [exact H | constructor]|].
  destruct (lifecycle_step_checked_ok this c H) as (H' & Hdone).
  destruct (lifecycle_step_checked _ _ this c) as [mid done].
  cbn [fst snd] in *. destruct (IH mid H') as (Hfinal & Hrest).
  destruct (lifecycle_each _ _ calls mid) as [final rest].
  cbn [fst snd] in *. split; [exact Hfinal|]. now constructor.
Qed.


End ServerRefusals.

(** X14. Whatever calls of [start], [stop], [onPort] and the registration
    functions are made on a new adapter, in any order, and whichever calls
    Fastify refuses, each throw being caught by the caller: a call throws
    only where Fastify does, in [fastify.route] or [fastify.listen], so
    [stop], [onPort], [addContainer] and [setRequestHandler] never throw and
    [stop] never finds the server missing.  Every port listened on is
    positive, the server is closed at most as often as it was listened on,
    and an adapter that ever listened is booted. *)
Theorem lifecycle_throws_only_where_Fastify_does :
  forall (accepts_route_after :
            list Z -> nat -> FastifyInstance -> RouteOptions -> bool)
         (accepts_listen : list Z -> nat -> Z -> bool)
         (envPort port : option Z) (calls : list LifecycleCall),
    let run :=
      lifecycle_each accepts_route_after accepts_listen calls
        (new_Lifecycle envPort port) in
    Forall2
      (fun c done =>
         match done with
         | Normal _ => True
         | Abrupt e =>
             reaches_fastify c = true
             /\ (e = Refused "fastify.route" \/ e = Refused "fastify.listen")
         end)
      calls run.2
    /\ Forall (fun p => (0 < p)%Z) (listened run.1)
    /\ closed run.1 <= length (listened run.1)
    /\ (listened run.1 <> [] -> _booted (registry run.1) = true)
    /\ (_started run.1 = true -> _server run.1 = true).
Proof.
  intros accepts_route_after accepts_listen envPort port calls run.
  destruct (lifecycle_each_ok accepts_route_after accepts_listen calls
              (new_Lifecycle envPort port) (new_Lifecycle_ok envPort port))
    as ((Hs & Hp & Hc & _ & Hb) & Hdone).
  fold run in Hs, Hp, Hc, Hb, Hdone.
  split; [exact Hdone|]. split; [exact Hp|]. split; [exact Hc|].
  split; [exact Hb | exact Hs].
Qed.

(** A life in which Fastify refuses a route: [start] throws before
    listening, and [stop] then does nothing. *)
Example lifecycle_refused_start :
  let run :=
    lifecycle_each (fun _ _ => route_supported) (fun _ _ _ => true)
      [DoRegistry (OpAddContainer refused_container); DoStart; DoStop]
      (new_Lifecycle None None) in
  (returned <$> run.2) = [true; false; true]
  /\ listened run.1 = []
  /\ closed run.1 = 0
  /\ _started run.1 = false.
Proof. vm_compute. repeat split. Qed.

(** X15. The port of the first [start]: the constructor's port when one is
    given, else the number read from [FASTIFY_PORT]; and when that number is
    not positive, or is not a number at all (the variable is unset), port
    3031.  The default 3333 written beside [_port] is never used. *)
Theorem first_start_port :
  forall (envPort port : option Z),
    let configured := match port with Some p => Some p | None => envPort end in
    listened (start (new_Lifecycle envPort port))
      = [match configured with
         | Some p => if (0 <? p)%Z then p else 3031%Z
         | None => 3031%Z
         end]
    /\ listened (start (new_Lifecycle None None)) = [3031%Z]
    /\ (forall p, (0 < p)%Z ->
          listened (start (new_Lifecycle envPort (Some p))) = [p]
          /\ listened (start (new_Lifecycle (Some p) None)) = [p]).
Proof.
  intros envPort port configured. subst configured.
  split; [destruct port; reflexivity|]. split; [reflexivity|].
  intros p Hp. apply Z.ltb_lt in Hp.
  unfold new_Lifecycle, start, onPort. cbn. rewrite Hp. now split.
Qed.



(** ** Handling a request with a handler set *)

(** On a reply that accepts every status, [_requestHandler_checked] is
    [_requestHandler]. *)
Lemma requestHandler_checked_accepting
    (flow_exitCode flow_httpStatus : JsVal) (flow_isApiError : bool)
    (this : Adapter) (route : IProxiedRoute) (method : HTTPMethod)
    (request : FastifyRequest) (matchedPattern : string)
    (response : FastifyReply) :
  _requestHandler_checked (fun _ => true)
    flow_exitCode flow_httpStatus flow_isApiError
    this route method request matchedPattern response
  = _requestHandler flow_exitCode flow_httpStatus flow_isApiError
      this route method request matchedPattern response.
Proof.
  unfold _requestHandler_checked, _requestHandler.
  destruct (_apiHandler this) as [handle|].
  - destruct (handle route _) as [routeResp|error|].
    + rewrite SendResponse_checked_accepted by reflexivity.
      cbn [run_reply run_settled run_emitted].
      now destruct (SendResponse routeResp response) as [r [send|e]].
    + rewrite ErrorHandler_checked_run.
      cbn [run_reply run_settled run_emitted].
      now destruct (ErrorHandler response error).
    + reflexivity.
  - rewrite ErrorHandler_checked_run.
    now destruct (ErrorHandler response _).
Qed.

(** X17. With an api request handler set that answers with a response none
    of whose commands can throw, the run hands the handler the normalized
    request with the method of the route, keeps the calls already made on the
    reply and sets the [X-Exit-Code] header.  When the reply accepts the
    status of the response, the status is set, the promise is resolved once,
    with the payload or [{}], [request_response] is emitted and nothing is
    left uncaught; when the reply refuses the status, the promise is not
    settled, nothing is emitted and the refusal is not caught by the
    adapter. *)
Theorem requestHandler_sends_accepted_response :
  forall (accepts_status : JsVal -> bool)
         (flow_exitCode flow_httpStatus : JsVal) (flow_isApiError : bool)
         (this : Adapter) (handle : ApiHandler) (route : IProxiedRoute)
         (method : HTTPMethod) (request : FastifyRequest)
         (matchedPattern : string) (response : FastifyReply)
         (routeResp : IApiRouteResponse),
    _apiHandler this = Some handle ->
    handle route (set_method method (TransformRequest request))
      = CallsSuccess routeResp ->
    (forall commands name,
        response_commands routeResp = Some commands ->
        name ∈ command_names commands -> name ∉ throwing_names) ->
    let run :=
      _requestHandler_checked accepts_status
        flow_exitCode flow_httpStatus flow_isApiError
        this route method request matchedPattern response in
    run_apiRequest run = Some (set_method method (TransformRequest request))
    /\ response `prefix_of` run_reply run
    /\ reply_header "X-Exit-Code" (run_reply run)
       = Some (response_exitCode routeResp)
    /\ if accepts_status (response_status routeResp)
       then reply_status (run_reply run) = Some (response_status routeResp)
            /\ run_settled run
               = [Resolve (if is_nullish (response_payload routeResp)
                           then JObj [] else response_payload routeResp)]
            /\ run_emitted run
               = [(REQUEST_RESPONSE, ArgsResponse routeResp route)]
            /\ run_uncaught run = None
       else run_settled run = []
            /\ run_emitted run = []
            /\ run_uncaught run = Some (Refused "reply.status").
Proof.
  intros accepts_status fe fs fa this handle route method request pattern
    response routeResp Hset Hanswer Hsafe run.
  destruct (SendResponse_checked_safe accepts_status routeResp response Hsafe)
    as (calls & _ & Hsent & Hheader & Hstatus).
  subst run. unfold _requestHandler_checked. rewrite Hset, Hanswer.
  rewrite Hsent in Hheader. rewrite Hsent.
  destruct (accepts_status (response_status routeResp));
    cbn [run_reply run_settled run_emitted run_apiRequest run_uncaught fst]
      in *.
  - split; [reflexivity|]. split; [now apply prefix_app_r|].
    split; [exact Hheader|]. split; [exact Hstatus|]. repeat split.
  - split; [reflexivity|]. split; [now apply prefix_app_r|].
    split; [exact Hheader|]. repeat split.
Qed.

Lemma requestHandler_sends_accepted_response_witness :
  let handler : ApiHandler :=
    fun _ _ =>
      CallsSuccess {| response_payload := JNull; response_commands := None;
                      response_exitCode := JStr "OK";
                      response_status := JNum 200 |} in
  let run :=
    _requestHandler_checked status_100_to_600 JUndefined (JNum 501) true
      (setRequestHandler handler new_Adapter)
      {| route_ref := 1; route_url := "users"; route_methods := SingleMethod get |}
      get colliding_request "/users" [] in
  run_settled run = [Resolve (JObj [])]
  /\ reply_status (run_reply run) = Some (JNum 200)
  /\ run_uncaught run = None.
Proof.
  cbn zeta.
  destruct (requestHandler_sends_accepted_response status_100_to_600
              JUndefined (JNum 501) true
              (setRequestHandler
                 (fun _ _ =>
                    CallsSuccess {| response_payload := JNull;
                                    response_commands := None;
                                    response_exitCode := JStr "OK";
                                    response_status := JNum 200 |})
                 new_Adapter)
              (fun _ _ =>
                 CallsSuccess {| response_payload := JNull;
                                 response_commands := None;
                                 response_exitCode := JStr "OK";
                                 response_status := JNum 200 |})
              {| route_ref := 1; route_url := "users";
                 route_methods := SingleMethod get |}
              get colliding_request "/users" []
              {| response_payload := JNull; response_commands := None;
                 response_exitCode := JStr "OK"; response_status := JNum 200 |}
              eq_refl eq_refl)
    as (_ & _ & _ & Hstatus & Hsettled & _ & Huncaught).
  - intros commands name H. discriminate H.
  - split; [exact Hsettled|]. split; [exact Hstatus | exact Huncaught].
Defined.

(** A response without a status: the reply refuses it, and the promise
    given back to Fastify is never settled. *)
Example requestHandler_missing_status :
  let handler : ApiHandler :=
    fun _ _ =>
      CallsSuccess {| response_payload := JStr "done";
                      response_commands := None;
                      response_exitCode := JStr "OK";
                      response_status := JUndefined |} in
  let run :=
    _requestHandler_checked status_100_to_600 JUndefined (JNum 501) true
      (setRequestHandler handler new_Adapter)
      {| route_ref := 1; route_url := "users"; route_methods := SingleMethod get |}
      get colliding_request "/users" [] in
  run_settled run = []
  /\ run_reply run = [CallHeader "X-Exit-Code" (JStr "OK")]
  /\ run_uncaught run = Some (Refused "reply.status").
Proof. vm_compute. repeat split. Qed.

(** X18. With an api request handler set that answers with an error object,
    the run reports nothing before the handler is called, then passes the
    reply the error's [httpStatus] when that is a number and 500 otherwise.
    When the reply accepts that status, the promise is settled once through
    the error handler, resolved in the first case and rejected in the second,
    [request_error] is emitted with the error and nothing is left uncaught;
    when the reply refuses it, as Fastify's does for a number outside 100 to
    600, no call is recorded on the reply, the promise is not settled,
    nothing is emitted and the refusal is not caught by the adapter. *)
Theorem requestHandler_reports_error_with_accepted_status :
  forall (accepts_status : JsVal -> bool)
         (flow_exitCode flow_httpStatus : JsVal) (flow_isApiError : bool)
         (this : Adapter) (handle : ApiHandler) (route : IProxiedRoute)
         (method : HTTPMethod) (request : FastifyRequest)
         (matchedPattern : string) (response : FastifyReply)
         (error : ErrorObject),
    _apiHandler this = Some handle ->
    handle route (set_method method (TransformRequest request))
      = CallsFailure error ->
    let run :=
      _requestHandler_checked accepts_status
        flow_exitCode flow_httpStatus flow_isApiError
        this route method request matchedPattern response in
    let status :=
      if is_number (error_httpStatus error)
      then error_httpStatus error else JNum 500 in
    if accepts_status status
    then run_reply run = response ++ [CallStatus status]
         /\ (exists settled,
               run_settled run = [settled]
               /\ is_resolve settled = is_number (error_httpStatus error))
         /\ run_emitted run = [(REQUEST_ERROR, ArgsError error route request)]
         /\ run_uncaught run = None
    else run_reply run = response
         /\ run_settled run = []
         /\ run_emitted run = []
         /\ run_uncaught run = Some (Refused "reply.status").
Proof.
  intros accepts_status fe fs fa this handle route method request pattern
    response error Hset Hanswer run status.
  subst run status. unfold _requestHandler_checked. rewrite Hset, Hanswer.
  rewrite ErrorHandler_checked_run. unfold ErrorHandler.
  destruct (is_number (error_httpStatus error));
    match goal with |- context [accepts_status ?c] =>
      destruct (accepts_status c) end;
    cbn [run_reply run_settled run_emitted run_uncaught fst snd];
    (split; [reflexivity|]);
    (split; [try (eexists; split; reflexivity); reflexivity|]);
    split; reflexivity.
Qed.

Lemma requestHandler_reports_error_with_accepted_status_witness :
  let error := {| error_message := JStr "No such user";
                  error_exitCode := JStr "NOT_FOUND";
                  error_httpStatus := JNum 404; error_isApiError := true |} in
  let run :=
    _requestHandler_checked status_100_to_600 JUndefined (JNum 501) true
      (setRequestHandler (fun _ _ => CallsFailure error) new_Adapter)
      {| route_ref := 1; route_url := "users"; route_methods := SingleMethod get |}
      get colliding_request "/users" [] in
  run_reply run = [CallStatus (JNum 404)] /\ run_uncaught run = None.
Proof.
  cbn zeta.
  pose proof (requestHandler_reports_error_with_accepted_status
                status_100_to_600 JUndefined (JNum 501) true
                (setRequestHandler
                   (fun _ _ =>
                      CallsFailure
                        {| error_message := JStr "No such user";
                           error_exitCode := JStr "NOT_FOUND";
                           error_httpStatus := JNum 404;
                           error_isApiError := true |})
                   new_Adapter)
                (fun _ _ =>
                   CallsFailure
                     {| error_message := JStr "No such user";
                        error_exitCode := JStr "NOT_FOUND";
                        error_httpStatus := JNum 404;
                        error_isApiError := true |})
                {| route_ref := 1; route_url := "users";
                   route_methods := SingleMethod get |}
                get colliding_request "/users" []
                {| error_message := JStr "No such user";
                   error_exitCode := JStr "NOT_FOUND";
                   error_httpStatus := JNum 404; error_isApiError := true |}
                eq_refl eq_refl) as H.
  cbn zeta in H.
  change (status_100_to_600
            (if is_number (JNum 404) then JNum 404 else JNum 500))
    with true in H.
  cbv iota in H. destruct H as (Hreply & _ & _ & Huncaught).
  split; [exact Hreply | exact Huncaught].
Defined.

(** An error whose status the reply refuses: nothing is reported. *)
Example requestHandler_refused_error_status :
  let error := {| error_message := JStr "No such user";
                  error_exitCode := JStr "NOT_FOUND";
                  error_httpStatus := JNum 0; error_isApiError := true |} in
  let run :=
    _requestHandler_checked status_100_to_600 JUndefined (JNum 501) true
      (setRequestHandler (fun _ _ => CallsFailure error) new_Adapter)
      {| route_ref := 1; route_url := "users"; route_methods := SingleMethod get |}
      get colliding_request "/users" [] in
  run_reply run = []
  /\ run_settled run = []
  /\ run_uncaught run = Some (Refused "reply.status").
Proof. vm_compute. repeat split. Qed.

(** ** The two error handlers *)



(** ** The cookie command built by the adapter *)

Lemma pretty_N_go_digits (c : ascii) (x : N) (s : string) :
  (forall d : N, pretty_N_char d <> c) ->
  mentions c (pretty_N_go x s) = mentions c s.
Proof.
  intros Hc. revert s. induction (N.lt_wf_0 x) as [x _ IH]; intros s.
  destruct (decide (x = 0)%N) as [->|Hx]; [now rewrite pretty_N_go_0|].
  rewrite pretty_N_go_step by lia. rewrite IH by (apply N.div_lt; lia).
  cbn [mentions]. now rewrite bool_decide_eq_false_2 by apply Hc.
Qed.

Lemma pretty_nat_no_letter (n : nat) : mentions "v" (pretty n) = false.
Proof.
  unfold pretty, pretty_nat, pretty, pretty_N.
  destruct (decide (N.of_nat n = 0)%N); [reflexivity|].
  rewrite pretty_N_go_digits; [reflexivity|].
  intros d. unfold pretty_N_char. repeat case_match; discriminate.
Qed.

Lemma index_keys_no_value (n : nat) : "value" ∉ index_keys n.
Proof.
  unfold index_keys. intros Hin.
  apply list_elem_of_fmap in Hin as (i & Hi & _).
  pose proof (pretty_nat_no_letter i) as H. rewrite <- Hi in H.
  vm_compute in H. discriminate.
Qed.

Lemma assoc_absent (k : string) (props : list (string * JsVal)) :
  k ∉ props.*1 -> assoc k props = None.
Proof.
  induction props as [|[k' v] props IH]; intros H; cbn [assoc]; [reflexivity|].
  cbn [fmap list_fmap fst] in H. rewrite decide_False.
  - apply IH. intros Hin. apply H. apply elem_of_cons. now right.
  - intros ->. apply H. apply list_elem_of_here.
Qed.

Lemma elem_of_zip_fst {A B} (x : A) (l : list A) (k : list B) :
  x ∈ (zip l k).*1 -> x ∈ l.
Proof.
  revert k. induction l as [|a l IH]; intros [|b k] H; cbn in H;
    try now apply elem_of_nil in H.
  apply elem_of_cons in H as [->|H]; [apply list_elem_of_here|].
  apply elem_of_cons. right. now apply (IH k).
Qed.

(** A string has no [value] property. *)
Lemma string_value_undefined (s : string) : prop (JStr s) "value" = JUndefined.
Proof.
  unfold prop. cbn [own_props]. rewrite assoc_absent; [reflexivity|].
  intros Hin. apply elem_of_zip_fst in Hin.
  now apply index_keys_no_value in Hin.
Qed.

(** X20. The command built by [Adapter.CreateCookie] does not have the
    payload the ['create-cookie'] command reads.  With options that have no
    property the payload is [{name, value}]; the command, were it applied to
    that payload, would treat [name] and [value] as two cookie names and set
    a cookie called ["name"] and one called ["value"], each with the value
    [undefined], instead of the cookie asked for. *)
Theorem CreateCookie_payload_is_not_a_cookie_map :
  forall (name value : string) (options : JsVal) (r : FastifyReply),
    for_in_keys options = [] ->
    command_name (CreateCookie name value options) = "create-cookie"
    /\ command_payload (CreateCookie name value options)
       = JObj [("name", JStr name); ("value", JStr value)]
    /\ Commands.create_cookie
         (command_payload (CreateCookie name value options)) r
       = (r ++ [CallSetCookie "name" JUndefined (JStr name);
                CallSetCookie "value" JUndefined (JStr value)],
          Normal tt).
Proof.
  intros name value options r Hkeys.
  assert (Hp : command_payload (CreateCookie name value options)
               = JObj [("name", JStr name); ("value", JStr value)]).
  { unfold CreateCookie, spread. cbn [command_payload].
    unfold for_in_keys in Hkeys. apply fmap_nil_inv in Hkeys.
    now rewrite Hkeys. }
  split; [reflexivity|]. split; [exact Hp|].
  rewrite Hp. unfold Commands.create_cookie. rewrite create_cookie_run.
  set (payload := JObj [("name", JStr name); ("value", JStr value)]).
  change (for_in_keys payload) with ["name"; "value"].
  cbn [leading forallb].
  change (prop payload "name") with (JStr name).
  change (prop payload "value") with (JStr value).
  cbn [is_nullish negb andb leading fmap list_fmap].
  change (prop payload "name") with (JStr name).
  change (prop payload "value") with (JStr value).
  now rewrite !string_value_undefined.
Qed.

Lemma CreateCookie_payload_is_not_a_cookie_map_witness :
  Commands.create_cookie (command_payload (CreateCookie "sid" "abc" (JObj []))) []
  = ([CallSetCookie "name" JUndefined (JStr "sid");
      CallSetCookie "value" JUndefined (JStr "abc")], Normal tt).
Proof.
  destruct (CreateCookie_payload_is_not_a_cookie_map "sid" "abc" (JObj []) []
              eq_refl) as (_ & _ & H).
  exact H.
Defined.
